(** * iCook keyword crawler: extraction, link discovery and persistence

    A shallow embedding of [scrape_icook_keywords_to_firestore.py].

    Python values decoded from JSON-LD are the type [json]; Python [str]
    is a list of Unicode code points.  Operations the interpreter checks
    at run time ([.get], subscripts, [.strip()], iteration, [in]) are
    partial and live in the error monad [res]; the [isinstance] tests of
    the source are boolean functions, so that what can raise, and where,
    is a theorem about the guards and not a property of the encoding. *)

From Stdlib Require Import String Ascii.
From Stdlib Require Import List NArith ZArith Bool Lia.
From Stdlib Require Import DecimalN DecimalPos.
Import ListNotations.

Set Implicit Arguments.

(** ** Python strings *)

Module PyStr.

Definition char := N.
Definition pystr := list char.

Local Open Scope N_scope.

(** ASCII literals of the source, as code points. *)
Definition lit (s : string) : pystr :=
  List.map N_of_ascii (list_ascii_of_string s).

Arguments lit s%_string.

Definition char_eqb (a b : char) : bool := N.eqb a b.

Fixpoint str_eqb (a b : pystr) : bool :=
  match a, b with
  | [], [] => true
  | x :: a', y :: b' => char_eqb x y && str_eqb a' b'
  | _, _ => false
  end.

(** [s.startswith(p)] *)
Fixpoint startswith (p s : pystr) : bool :=
  match p, s with
  | [], _ => true
  | x :: p', y :: s' => char_eqb x y && startswith p' s'
  | _ :: _, [] => false
  end.

(** [p in s] for two strings: [p] occurs somewhere in [s]. *)
Fixpoint substring (p s : pystr) : bool :=
  startswith p s ||
  match s with
  | [] => false
  | _ :: s' => substring p s'
  end.

(** [str.isspace] on one code point: the characters [str.strip()]
    removes when called without argument. *)
Definition is_space (c : char) : bool :=
  ((9 <=? c) && (c <=? 13)) || ((28 <=? c) && (c <=? 32))
  || (c =? 133) || (c =? 160) || (c =? 5760)
  || ((8192 <=? c) && (c <=? 8202))
  || (c =? 8232) || (c =? 8233) || (c =? 8239) || (c =? 8287)
  || (c =? 12288).

Fixpoint lstrip (s : pystr) : pystr :=
  match s with
  | c :: s' => if is_space c then lstrip s' else s
  | [] => []
  end.

Definition rstrip (s : pystr) : pystr := rev (lstrip (rev s)).

(** [s.strip()] *)
Definition strip (s : pystr) : pystr := rstrip (lstrip s).

(** A text carries no surrounding whitespace. *)
Definition trimmed (s : pystr) : Prop :=
  match s with
  | [] => True
  | c :: _ => is_space c = false /\ is_space (last s c) = false
  end.

(** [s.replace(old, new)]: every non-overlapping occurrence of [old],
    scanning from the left.  [skip] counts the characters of the current
    occurrence still to be dropped. *)
Fixpoint replace_from (old new : pystr) (skip : nat) (s : pystr) : pystr :=
  match s with
  | [] => []
  | c :: s' =>
      match skip with
      | S k => replace_from old new k s'
      | O =>
          if startswith old s
          then new ++ replace_from old new (Nat.pred (length old)) s'
          else c :: replace_from old new 0 s'
      end
  end.

Definition replace (old new s : pystr) : pystr :=
  match old with
  | [] => new ++ flat_map (fun c => c :: new) s
  | _ :: _ => replace_from old new 0 s
  end.

(** Decimal digits of [str(int)]. *)
Fixpoint uint_chars (d : Decimal.uint) : pystr :=
  match d with
  | Decimal.Nil => []
  | Decimal.D0 d => 48 :: uint_chars d
  | Decimal.D1 d => 49 :: uint_chars d
  | Decimal.D2 d => 50 :: uint_chars d
  | Decimal.D3 d => 51 :: uint_chars d
  | Decimal.D4 d => 52 :: uint_chars d
  | Decimal.D5 d => 53 :: uint_chars d
  | Decimal.D6 d => 54 :: uint_chars d
  | Decimal.D7 d => 55 :: uint_chars d
  | Decimal.D8 d => 56 :: uint_chars d
  | Decimal.D9 d => 57 :: uint_chars d
  end.

(** [str(n)] for a natural number. *)
Definition dec (n : N) : pystr := uint_chars (N.to_uint n).

(** [str(z)] for an [int]. *)
Definition dec_int (z : Z) : pystr :=
  match z with
  | Zneg p => 45 :: dec (Npos p)
  | _ => dec (Z.to_N z)
  end.

(** The ASCII digits. *)
Definition ascii_digit (c : char) : option N :=
  if (48 <=? c) && (c <=? 57) then Some (c - 48) else None.

(** [bool(s)] for a list or a string. *)
Definition nonempty {A : Type} (l : list A) : bool :=
  match l with
  | [] => false
  | _ :: _ => true
  end.

(** [sep.join(parts)] *)
Fixpoint join (sep : pystr) (parts : list pystr) : pystr :=
  match parts with
  | [] => []
  | [p] => p
  | p :: ps => p ++ sep ++ join sep ps
  end.

End PyStr.
Export PyStr.

(** ** Exceptions *)

Inductive exn :=
| AttributeError | KeyError | IndexError | TypeError | ValueError
| AssertionError | DriverError.

Inductive res (A : Type) : Type :=
| Ok (a : A)
| Raise (e : exn).

Arguments Ok {A} a.
Arguments Raise {A} e.

Definition bind {A B : Type} (c : res A) (k : A -> res B) : res B :=
  match c with
  | Ok a => k a
  | Raise e => Raise e
  end.

Notation "x <- c ;; k" := (bind c (fun x => k))
  (at level 61, c at next level, right associativity).

(** A [for] loop whose body may raise. *)
Fixpoint foldM {A S : Type} (body : A -> S -> res S) (l : list A) (s : S)
  : res S :=
  match l with
  | [] => Ok s
  | a :: l' => s' <- body a s ;; foldM body l' s'
  end.

(** ** Decoded JSON documents: the Python values [json.loads] builds *)

#[local] Unset Elimination Schemes.

Inductive json :=
| JNone
| JBool (b : bool)
| JInt (z : Z)
| JFloat (r : pystr)   (* a float, carried by the text [repr] prints for it *)
| JStr (s : pystr)
| JList (l : list json)
| JDict (d : list (pystr * json)).

#[local] Set Elimination Schemes.

(** What the interpreter and its libraries supply. *)
Class Runtime := {
  (** [json.loads(raw)]; [Raise] when it raises. *)
  json_loads : pystr -> res json;
  (** [repr(s)] of a [str], as it appears inside [str(list)] and [str(dict)]. *)
  repr_str : pystr -> pystr;
  (** value of a code point of Unicode category Nd: what the pattern
      [\d] matches and [int] reads. *)
  digit_val : char -> option N
}.

Module Py.

Definition isinstance_str (v : json) : bool :=
  match v with JStr _ => true | _ => false end.

Definition isinstance_list (v : json) : bool :=
  match v with JList _ => true | _ => false end.

Definition isinstance_dict (v : json) : bool :=
  match v with JDict _ => true | _ => false end.

Definition is_None (v : json) : bool :=
  match v with JNone => true | _ => false end.

(** [bool(v)] *)
Definition truthy (v : json) : bool :=
  match v with
  | JNone => false
  | JBool b => b
  | JInt z => negb (Z.eqb z 0)
  | JFloat r => negb (str_eqb r (lit "0.0") || str_eqb r (lit "-0.0"))
  | JStr s => nonempty s
  | JList l => nonempty l
  | JDict d => nonempty d
  end.

(** [a or b], with [b] evaluated only when [a] is falsy. *)
Definition or_else (a : json) (b : res json) : res json :=
  if truthy a then Ok a else b.

(** [v == s] for a string literal [s]. *)
Definition eq_str (v : json) (s : pystr) : bool :=
  match v with JStr t => str_eqb t s | _ => false end.

Fixpoint lookup (k : pystr) (d : list (pystr * json)) : option json :=
  match d with
  | [] => None
  | (k', v) :: d' => if str_eqb k' k then Some v else lookup k d'
  end.

(** the value under [k], [None] for a missing key *)
Definition get_or_none (k : pystr) (d : list (pystr * json)) : json :=
  match lookup k d with Some x => x | None => JNone end.

(** [v.get(k)] *)
Definition dict_get (v : json) (k : pystr) : res json :=
  match v with
  | JDict d => Ok (get_or_none k d)
  | _ => Raise AttributeError
  end.

(** [v[k]] with a string key *)
Definition getitem_key (v : json) (k : pystr) : res json :=
  match v with
  | JDict d => match lookup k d with Some x => Ok x | None => Raise KeyError end
  | _ => Raise TypeError
  end.

(** [v[0]] *)
Definition getitem0 (v : json) : res json :=
  match v with
  | JList (x :: _) => Ok x
  | JList [] => Raise IndexError
  | JStr (c :: _) => Ok (JStr [c])
  | JStr [] => Raise IndexError
  | JDict _ => Raise KeyError
  | _ => Raise TypeError
  end.

(** [k in v] with a string [k] *)
Definition contains (k : pystr) (v : json) : res bool :=
  match v with
  | JDict d => Ok (match lookup k d with Some _ => true | None => false end)
  | JList l => Ok (existsb (fun x => eq_str x k) l)
  | JStr s => Ok (substring k s)
  | _ => Raise TypeError
  end.

(** the elements a [for] loop or a comprehension draws from [v] *)
Definition iter (v : json) : res (list json) :=
  match v with
  | JList l => Ok l
  | JDict d => Ok (List.map (fun kv => JStr (fst kv)) d)
  | JStr s => Ok (List.map (fun c => JStr [c]) s)
  | _ => Raise TypeError
  end.

(** [v.strip()] *)
Definition str_strip (v : json) : res pystr :=
  match v with
  | JStr s => Ok (strip s)
  | _ => Raise AttributeError
  end.

(** [v.startswith(p)] *)
Definition str_startswith (v : json) (p : pystr) : res bool :=
  match v with
  | JStr s => Ok (startswith p s)
  | _ => Raise AttributeError
  end.

(** [v.replace(old, new)] *)
Definition str_replace (v : json) (old new : pystr) : res json :=
  match v with
  | JStr s => Ok (JStr (replace old new s))
  | _ => Raise AttributeError
  end.

Section WithRuntime.
Context {R : Runtime}.

(** [repr(v)] *)
Fixpoint py_repr (v : json) : pystr :=
  match v with
  | JNone => lit "None"
  | JBool true => lit "True"
  | JBool false => lit "False"
  | JInt z => dec_int z
  | JFloat r => r
  | JStr s => repr_str s
  | JList l => lit "[" ++ join (lit ", ") (List.map py_repr l) ++ lit "]"
  | JDict d =>
      lit "{"
      ++ join (lit ", ")
           (List.map (fun kv => repr_str (fst kv) ++ lit ": " ++ py_repr (snd kv)) d)
      ++ lit "}"
  end.

(** [str(v)] *)
Definition py_str (v : json) : pystr :=
  match v with
  | JStr s => s
  | _ => py_repr v
  end.

Definition is_digit (c : char) : bool :=
  match digit_val c with Some _ => true | None => false end.

Definition digit_step (acc : N) (c : char) : N :=
  (10 * acc + match digit_val c with Some d => d | None => 0 end)%N.

(** [sys.get_int_max_str_digits()], as the interpreter starts: the
    program does not change it. *)
Definition int_max_str_digits : nat := 4300.

(** [int(ds)] for a run of decimal digits, the only texts this program
    hands to [int]: a run longer than [int_max_str_digits] is refused
    with [ValueError]. *)
Definition py_int (ds : pystr) : res N :=
  if nonempty ds && forallb is_digit ds
  then if Nat.leb (length ds) int_max_str_digits
       then Ok (fold_left digit_step ds 0%N)
       else Raise ValueError
  else Raise ValueError.

(** The runtime's digits include the ASCII ones and no other ASCII
    character. *)
Definition ascii_digits : Prop :=
  forall c : char, (c < 128)%N -> digit_val c = ascii_digit c.

End WithRuntime.

End Py.
Export Py.

(** ** Structured data extractor *)

Module Extractor.
Section WithRuntime.
Context {R : Runtime}.

Local Open Scope N_scope.

(** the pattern [\d+] followed by the character [stop], anchored at the
    start of [s]; greedy, giving back digits when [stop] does not follow.
    The result is what group 1 captures. *)
Fixpoint digits_then (stop : char) (s : pystr) : option pystr :=
  match s with
  | [] => None
  | c :: s' =>
      if is_digit c then
        match digits_then stop s' with
        | Some ds => Some (c :: ds)
        | None =>
            match s' with
            | c' :: _ => if char_eqb c' stop then Some [c] else None
            | [] => None
            end
        end
      else None
  end.

(** [re.search(r"PT(\d+)H", s)]: group 1 of the leftmost match. *)
Fixpoint search_hours (s : pystr) : option pystr :=
  match s with
  | [] => None
  | _ :: s' =>
      match (if startswith (lit "PT") s then digits_then 72 (skipn 2 s) else None) with
      | Some g => Some g
      | None => search_hours s'
      end
  end.

(** [re.search(r"(\d+)M", s)]: group 1 of the leftmost match. *)
Fixpoint search_minutes (s : pystr) : option pystr :=
  match s with
  | [] => None
  | _ :: s' =>
      match digits_then 77 s with
      | Some g => Some g
      | None => search_minutes s'
      end
  end.

(** [re.search(pattern, v)] on a Python value. *)
Definition re_search (find : pystr -> option pystr) (v : json)
  : res (option pystr) :=
  match v with
  | JStr s => Ok (find s)
  | _ => Raise TypeError
  end.

Definition hours_text : pystr := [32; 23567; 26178].          (* " 小時" *)
Definition minutes_text : pystr := [32; 20998; 37912].        (* " 分鐘" *)

(** [int(m.group(1))] when the pattern matched, [0] otherwise *)
Definition group_int (m : option pystr) : res N :=
  match m with
  | Some g => py_int g
  | None => Ok 0
  end.

(** the four [return]s that end [iso8601_duration_to_text] *)
Definition format_duration (hours minutes : N) : json :=
  if (hours =? 0) && (minutes =? 0) then JNone
  else if negb (hours =? 0) && negb (minutes =? 0)
  then JStr (dec hours ++ hours_text ++ lit " " ++ dec minutes ++ minutes_text)
  else if negb (hours =? 0) then JStr (dec hours ++ hours_text)
  else JStr (dec minutes ++ minutes_text).

Definition iso8601_duration_to_text (s : json) : res json :=
  if negb (truthy s) then Ok JNone else
  pt <- str_startswith s (lit "PT") ;;
  if negb pt then Ok s else
  m_h <- re_search search_hours s ;;
  m_m <- re_search search_minutes s ;;
  hours <- group_int m_h ;;
  minutes <- group_int m_m ;;
  Ok (format_duration hours minutes).

Definition ensure_str (x : json) : json :=
  if is_None x then JNone else JStr (strip (py_str x)).

Definition extract_image_url_from_ld (obj : json) : res json :=
  if negb (truthy obj) then Ok JNone else
  if isinstance_str obj then Ok obj else
  early <-
    (if isinstance_list obj && truthy obj then
       o0 <- getitem0 obj ;;
       if isinstance_str o0 then Ok (Some o0)
       else if isinstance_dict o0 then
         u <- dict_get o0 (lit "url") ;; Ok (Some (ensure_str u))
       else Ok None
     else Ok None) ;;
  match early with
  | Some r => Ok r
  | None =>
      if isinstance_dict obj then
        u <- dict_get obj (lit "url") ;; Ok (ensure_str u)
      else Ok JNone
  end.

(** the body of the loop of [pick_from_list]: [steps.append] on the
    list captured from [extract_steps_from_ld] *)
Definition pick_item (it : json) (steps : list pystr) : res (list pystr) :=
  if isinstance_str it then
    t <- str_strip it ;;
    Ok (if nonempty t then steps ++ [t] else steps)
  else if isinstance_dict it then
    a <- dict_get it (lit "text") ;;
    t <- or_else a (dict_get it (lit "name")) ;;
    Ok (if truthy t && nonempty (strip (py_str t))
        then steps ++ [strip (py_str t)] else steps)
  else Ok steps.

Definition pick_from_list (items : json) (steps : list pystr)
  : res (list pystr) :=
  its <- iter items ;; foldM pick_item its steps.

Definition extract_steps_from_ld (obj : json) : res (list pystr) :=
  steps <-
    (if isinstance_list obj then pick_from_list obj []
     else if isinstance_dict obj then
       ty <- dict_get obj (lit "@type") ;;
       section <-
         (if eq_str ty (lit "HowToSection")
          then ile <- dict_get obj (lit "itemListElement") ;;
               Ok (isinstance_list ile)
          else Ok false) ;;
       if section then
         ile <- getitem_key obj (lit "itemListElement") ;;
         pick_from_list ile []
       else
         a <- dict_get obj (lit "text") ;;
         t <- or_else a (dict_get obj (lit "name")) ;;
         Ok (if truthy t && nonempty (strip (py_str t))
             then [strip (py_str t)] else [])
     else Ok []) ;;
  Ok (List.filter (fun s => nonempty s) (List.map strip steps)).

(** The six locals of [parse_ld_json]. *)
Record fields := Fields {
  title : json;
  ingredients : list pystr;
  time_text : json;
  yield_info : json;
  steps : list pystr;
  image_url : json
}.

Definition no_fields : fields := Fields JNone [] JNone JNone [] JNone.

Definition with_title (v : json) (f : fields) : fields :=
  Fields v (ingredients f) (time_text f) (yield_info f) (steps f) (image_url f).
Definition with_ingredients (v : list pystr) (f : fields) : fields :=
  Fields (title f) v (time_text f) (yield_info f) (steps f) (image_url f).
Definition with_time_text (v : json) (f : fields) : fields :=
  Fields (title f) (ingredients f) v (yield_info f) (steps f) (image_url f).
Definition with_yield_info (v : json) (f : fields) : fields :=
  Fields (title f) (ingredients f) (time_text f) v (steps f) (image_url f).
Definition with_steps (v : list pystr) (f : fields) : fields :=
  Fields (title f) (ingredients f) (time_text f) (yield_info f) v (image_url f).
Definition with_image_url (v : json) (f : fields) : fields :=
  Fields (title f) (ingredients f) (time_text f) (yield_info f) (steps f) v.

(** the six [if not <field>:] blocks of the node loop *)

Definition fill_title (node : json) (f : fields) : res fields :=
  if truthy (title f) then Ok f else
  n <- dict_get node (lit "name") ;;
  Ok (with_title (ensure_str n) f).

Definition fill_ingredients (node : json) (f : fields) : res fields :=
  if nonempty (ingredients f) then Ok f else
  ing <- dict_get node (lit "recipeIngredient") ;;
  if isinstance_list ing then
    xs <- iter ing ;;
    Ok (with_ingredients
          (List.map (fun x => strip (py_str x))
             (List.filter (fun x => nonempty (strip (py_str x))) xs)) f)
  else Ok f.

(** [ensure_str(node.get("totalTime")) or ensure_str(node.get("cookTime"))] *)
Definition duration_source (node : json) : res json :=
  tt <- dict_get node (lit "totalTime") ;;
  or_else (ensure_str tt)
    (ct <- dict_get node (lit "cookTime") ;; Ok (ensure_str ct)).

Definition fill_time (node : json) (f : fields) : res fields :=
  if truthy (time_text f) then Ok f else
  t <- duration_source node ;;
  if truthy t then
    d <- iso8601_duration_to_text t ;;
    v <- or_else d (Ok t) ;;
    Ok (with_time_text v f)
  else Ok f.

Definition fill_yield (node : json) (f : fields) : res fields :=
  if truthy (yield_info f) then Ok f else
  y <- dict_get node (lit "recipeYield") ;;
  if isinstance_list y && truthy y then
    y0 <- getitem0 y ;; Ok (with_yield_info (ensure_str y0) f)
  else Ok (with_yield_info (ensure_str y) f).

Definition fill_steps (node : json) (f : fields) : res fields :=
  if nonempty (steps f) then Ok f else
  inst <- dict_get node (lit "recipeInstructions") ;;
  st <- extract_steps_from_ld inst ;;
  if nonempty st then Ok (with_steps st f) else Ok f.

Definition fill_image (node : json) (f : fields) : res fields :=
  if truthy (image_url f) then Ok f else
  img <- dict_get node (lit "image") ;;
  u <- extract_image_url_from_ld img ;;
  Ok (with_image_url u f).

(** [is_recipe] of the node loop *)
Definition is_recipe (node : json) : res bool :=
  types <- dict_get node (lit "@type") ;;
  if eq_str types (lit "Recipe") then Ok true
  else if isinstance_list types then contains (lit "Recipe") types
  else Ok false.

(** one turn of [for node in nodes] *)
Definition visit_node (node : json) (f : fields) : res fields :=
  r <- is_recipe node ;;
  if negb r then Ok f else
  f <- fill_title node f ;;
  f <- fill_ingredients node f ;;
  f <- fill_time node f ;;
  f <- fill_yield node f ;;
  f <- fill_steps node f ;;
  fill_image node f.

(** the [nodes] list built for one candidate; a candidate that is neither
    an object nor a list is passed over *)
Definition collect_nodes (obj : json) : res (list json) :=
  if isinstance_dict obj then
    has <- contains (lit "@graph") obj ;;
    graph <- (if has then g <- getitem_key obj (lit "@graph") ;;
                          Ok (isinstance_list g)
              else Ok false) ;;
    if graph then
      g <- getitem_key obj (lit "@graph") ;;
      gs <- iter g ;;
      Ok (List.filter isinstance_dict gs)
    else Ok [obj]
  else if isinstance_list obj then
    xs <- iter obj ;;
    Ok (List.filter isinstance_dict xs)
  else Ok [].

(** one turn of [for obj in candidates] *)
Definition visit_candidate (obj : json) (f : fields) : res fields :=
  nodes <- collect_nodes obj ;;
  foldM visit_node nodes f.

(** one turn of [for raw in ld_texts] *)
Definition visit_blob (raw : pystr) (f : fields) : res fields :=
  match json_loads raw with
  | Raise _ => Ok f
  | Ok data =>
      candidates <- (if isinstance_list data then iter data else Ok [data]) ;;
      foldM visit_candidate candidates f
  end.

Definition parse_ld_json (ld_texts : list pystr) : res fields :=
  foldM visit_blob ld_texts no_fields.

(** *** Vocabulary for the properties of the extractor *)

(** The nodes of one candidate, in the order the claims name them: the
    object members of [@graph] when the candidate is an object that
    holds a list there, the candidate itself when it is any other
    object, its object members when it is a list, nothing otherwise. *)
Definition candidate_nodes (obj : json) : list json :=
  match obj with
  | JDict d =>
      match lookup (lit "@graph") d with
      | Some (JList g) => List.filter isinstance_dict g
      | _ => [obj]
      end
  | JList members => List.filter isinstance_dict members
  | _ => []
  end.

(** The nodes of one blob: those of each member of a top-level list in
    turn, those of the document itself otherwise; none when the blob
    does not decode. *)
Definition blob_nodes (raw : pystr) : list json :=
  match json_loads raw with
  | Ok (JList candidates) => flat_map candidate_nodes candidates
  | Ok data => candidate_nodes data
  | Raise _ => []
  end.

(** Blob order, then node order within a blob. *)
Definition ld_nodes (ld_texts : list pystr) : list json :=
  flat_map blob_nodes ld_texts.

Definition is_dict (v : json) : Prop := isinstance_dict v = true.

(** An object whose [@type] is the text [Recipe] or a list that holds
    it. *)
Definition recipe_node (node : json) : bool :=
  match node with
  | JDict d =>
      match get_or_none (lit "@type") d with
      | JStr t => str_eqb t (lit "Recipe")
      | JList types => existsb (fun x => eq_str x (lit "Recipe")) types
      | _ => false
      end
  | _ => false
  end.

Definition recipe_nodes (ld_texts : list pystr) : list json :=
  List.filter recipe_node (ld_nodes ld_texts).

(** The duration text of a node: [totalTime] as text, else [cookTime]. *)
Definition duration_text (d : list (pystr * json)) : json :=
  if truthy (ensure_str (get_or_none (lit "totalTime") d))
  then ensure_str (get_or_none (lit "totalTime") d)
  else ensure_str (get_or_none (lit "cookTime") d).

(** What a node offers on its own for each field, read off the node.
    For the time: the converted duration text, the raw text when the
    conversion yields nothing, and nothing when there is no text or the
    conversion raises. *)
Definition offer (node : json) : fields :=
  match node with
  | JDict d =>
      Fields
        (ensure_str (get_or_none (lit "name") d))
        (match get_or_none (lit "recipeIngredient") d with
         | JList xs =>
             List.map (fun x => strip (py_str x))
               (List.filter (fun x => nonempty (strip (py_str x))) xs)
         | _ => []
         end)
        (if truthy (duration_text d)
         then match iso8601_duration_to_text (duration_text d) with
              | Ok r => if truthy r then r else duration_text d
              | Raise _ => JNone
              end
         else JNone)
        (match get_or_none (lit "recipeYield") d with
         | JList (y0 :: _) => ensure_str y0
         | y => ensure_str y
         end)
        (match extract_steps_from_ld (get_or_none (lit "recipeInstructions") d) with
         | Ok st => st
         | Raise _ => []
         end)
        (match extract_image_url_from_ld (get_or_none (lit "image") d) with
         | Ok u => u
         | Raise _ => JNone
         end)
  | _ => no_fields
  end.

(** The digit runs [int] is handed for the text [t] are within its
    limit. *)
Definition int_readable (t : json) : Prop :=
  match t with
  | JStr s =>
      startswith (lit "PT") s = true ->
      forall g, search_hours s = Some g \/ search_minutes s = Some g ->
                (length g <= int_max_str_digits)%nat
  | _ => True
  end.

(** Every Recipe node of the blobs has a duration text [int] can read. *)
Definition durations_readable (ld_texts : list pystr) : Prop :=
  forall d, In (JDict d) (recipe_nodes ld_texts) -> int_readable (duration_text d).


(** One assignment under [if not <field>:]. *)
Definition picks {V : Type} (filled : V -> bool) (cur off new : V) : Prop :=
  (filled cur = true -> new = cur)
  /\ (filled cur = false -> filled off = true -> new = off)
  /\ (filled cur = false -> filled off = false -> filled new = false).


(** An optional text that carries no surrounding whitespace. *)
Definition trimmed_text (v : json) : Prop :=
  match v with
  | JNone => True
  | JStr s => trimmed s
  | _ => False
  end.

(** Non-empty texts without surrounding whitespace. *)
Definition clean_list (l : list pystr) : Prop :=
  Forall (fun s => trimmed s /\ nonempty s = true) l.

(** Every field but the image holds trimmed text. *)
Definition well_trimmed (f : fields) : Prop :=
  trimmed_text (title f) /\ clean_list (ingredients f)
  /\ trimmed_text (time_text f) /\ trimmed_text (yield_info f)
  /\ clean_list (steps f).

(** The text [PT<H>H<M>M], either component possibly absent. *)
Definition pt_text (h m : option N) : pystr :=
  lit "PT"
  ++ match h with Some h => dec h ++ lit "H" | None => [] end
  ++ match m with Some m => dec m ++ lit "M" | None => [] end.

Definition component (c : option N) : N :=
  match c with Some n => n | None => 0 end.

End WithRuntime.
End Extractor.
Export Extractor.

(** ** The world outside the process *)

Module Env.

(** The remote [recipes] collection: document id to document. *)
Definition store := list (pystr * json).

Fixpoint store_set (id : pystr) (doc : json) (s : store) : store :=
  match s with
  | [] => [(id, doc)]
  | (k, v) :: s' =>
      if str_eqb k id then (k, doc) :: s' else (k, v) :: store_set id doc s'
  end.

(** A JSON file on disk, as [json.load] finds it. *)
Inductive file :=
| Absent
| Unparseable
| Holds (v : json).

Record world := World {
  sample_file : file;           (* icook_keywords_sample.json *)
  history_file : file;          (* icook_keywords_history.json *)
  db : option store             (* the remote handle; [None]: not configured *)
}.

Definition with_db (d : option store) (w : world) : world :=
  World (sample_file w) (history_file w) d.
Definition with_sample_file (f : file) (w : world) : world :=
  World f (history_file w) (db w).
Definition with_history_file (f : file) (w : world) : world :=
  World (sample_file w) f (db w).

(** Code with effects on the world: what it has done stays done when it
    raises. *)
Definition io (A : Type) : Type := world -> res A * world.

Definition io_ret {A : Type} (a : A) : io A := fun w => (Ok a, w).

Definition io_bind {A B : Type} (c : io A) (k : A -> io B) : io B :=
  fun w =>
    match c w with
    | (Ok a, w') => k a w'
    | (Raise e, w') => (Raise e, w')
    end.

Definition lift {A : Type} (c : res A) : io A := fun w => (c, w).

(** [try: c  except Exception: handler] *)
Definition try_except {A : Type} (c : io A) (handler : io A) : io A :=
  fun w =>
    match c w with
    | (Ok a, w') => (Ok a, w')
    | (Raise _, w') => handler w'
    end.

Notation "x <~ c ;; k" := (io_bind c (fun x => k))
  (at level 61, c at next level, right associativity).

Fixpoint for_each {A S : Type} (body : A -> S -> io S) (l : list A) (s : S)
  : io S :=
  match l with
  | [] => io_ret s
  | a :: l' => s' <~ body a s ;; for_each body l' s'
  end.

(** An element of the page whose [inner_text()] is read twice: by the
    filter of the comprehension, then for the value kept. *)
Record element := Element {
  first_read : res pystr;
  second_read : res pystr
}.

(** What the page driver shows at one recipe page. *)
Record page_view := PageView {
  (** [goto], the wait and the script locator go through *)
  opens : bool;
  (** [inner_text()] of each [application/ld+json] script *)
  ld_scripts : list (res pystr);
  (** [page.locator("h1").first.inner_text()] *)
  h1_text : res pystr;
  (** [get_attribute("content")] of the [og:image] meta element *)
  og_image : res (option pystr);
  (** the step elements and the [inner_text()] reads of each *)
  step_items : res (list element);
  (** the ingredient elements and the [inner_text()] reads of each *)
  ingredient_items : res (list element);
  (** [page.wait_for_timeout] at the end of the turn, outside any [try] *)
  pause : res unit
}.

(** How a [with open(..., "w")] / [json.dump] block ends. *)
Inductive write_outcome :=
| Written          (* the file now holds the value *)
| OpenFailed       (* [open] raised: the file is untouched *)
| DumpFailed.      (* the file was truncated and the dump broke off *)

(** One run of the process, as the world lets it happen. *)
Record run := Run {
  (** the keyword list after [random.shuffle] *)
  kws : list pystr;
  (** the [href] of each anchor the search page of a keyword shows;
      [Raise] when the search navigation or an attribute read fails *)
  search_anchors : pystr -> res (list (option pystr));
  (** the recipe page behind a link, when visited for a keyword *)
  visit : pystr -> pystr -> page_view;
  (** whether the remote [set] of that page's document goes through *)
  remote_set_ok : pystr -> pystr -> bool;
  sample_write : write_outcome;
  history_write : write_outcome;
  (** entering [sync_playwright()], the launch, the context and the page *)
  browser_start : res unit;
  (** [ctx.close()], [browser.close()] and leaving the [with] block *)
  browser_stop : res unit
}.

End Env.
Export Env.

(** ** Crawl controller

    Logging does not enter: [log] prints a line, which is taken to go
    through, and swallows a failed write to its file.  [time.sleep] only
    paces the run.  The waits of the page driver can fail like any other
    call on the page: those of the search are part of [search_anchors],
    the one under the [try] of a page visit is part of [opens], and the
    one that ends a turn of the page loop, outside any [try], is
    [pause]. *)

Module Crawler.

Definition LIMIT_PER_ING : nat := 20.

(** [re.fullmatch(r"/recipes/\d+", href)] *)
Definition fullmatch_recipe {R : Runtime} (href : pystr) : bool :=
  startswith (lit "/recipes/") href
  && nonempty (skipn 9 href) && forallb is_digit (skipn 9 href).

(** [urljoin("https://icook.tw", href)] for a reference that is an
    absolute path without dot segments: the path replaces the (empty)
    path of the base. *)
Definition urljoin_icook (href : pystr) : pystr :=
  lit "https://icook.tw" ++ href.

(** [list(dict.fromkeys(links))]: a key already present keeps its place *)
Definition fromkeys (links : list pystr) : list pystr :=
  fold_left
    (fun keys k => if existsb (str_eqb k) keys then keys else keys ++ [k])
    links [].

(** the anchor loop of [scrape_keyword] *)
Definition matching_links {R : Runtime} (anchors : list (option pystr))
  : list pystr :=
  fold_left
    (fun links href =>
       match href with
       | Some h =>
           if nonempty h && fullmatch_recipe h
           then links ++ [urljoin_icook h] else links
       | None => links
       end)
    anchors [].

(** the link list [scrape_keyword] visits *)
Definition discover_links {R : Runtime} (anchors : list (option pystr))
  : list pystr :=
  firstn LIMIT_PER_ING (fromkeys (matching_links anchors)).

(** The first occurrence of each link, in the order first seen. *)
Fixpoint first_seen (links : list pystr) : list pystr :=
  match links with
  | [] => []
  | x :: rest => x :: List.filter (fun y => negb (str_eqb x y)) (first_seen rest)
  end.

(** The link an anchor contributes, if its [href] is a recipe page. *)
Definition anchor_link {R : Runtime} (href : option pystr) : list pystr :=
  match href with
  | Some h => if nonempty h && fullmatch_recipe h then [urljoin_icook h] else []
  | None => []
  end.

(** the identifier computed by [upsert_firestore] *)
Definition doc_id (link : json) : res pystr :=
  s <- str_replace link (lit "https://") [] ;;
  match s with
  | JStr s => Ok (replace (lit "/") (lit "_") (replace (lit "http://") [] s))
  | _ => Raise AttributeError
  end.

Definition upsert_firestore (set_ok : bool) (doc : json) : io pystr :=
  has <~ lift (contains (lit "link") doc) ;;
  if negb has then lift (Raise AssertionError) else
  link <~ lift (getitem_key doc (lit "link")) ;;
  id <~ lift (doc_id link) ;;
  fun w =>
    match db w with
    | Some recipes =>
        if set_ok then (Ok id, with_db (Some (store_set id doc recipes)) w)
        else (Raise DriverError, w)
    | None => (Raise AttributeError, w)
    end.

(** [(c.inner_text() or <empty>).strip()] on what one read gave *)
Definition text_of (t : pystr) : pystr :=
  strip (if nonempty t then t else []).

(** one element of the comprehension of the step and ingredient
    fallbacks: the filter reads the text, and when that is not blank a
    second read gives the text that is kept *)
Definition collect_item (it : element) (acc : list pystr) : res (list pystr) :=
  t1 <- first_read it ;;
  if nonempty (text_of t1) then
    t2 <- second_read it ;;
    Ok (acc ++ [text_of t2])
  else Ok acc.

(** the comprehension; it raises when a read raises *)
Definition collect_texts (items : res (list element)) : res (list pystr) :=
  its <- items ;; foldM collect_item its [].

Definition placeholder_title : pystr :=
  [40; 26410; 25214; 21040; 27161; 38988; 41]%N.     (* "(未找到標題)" *)

(** the texts handed to [parse_ld_json] *)
Definition gather_ld_texts (scripts : list (res pystr)) : list pystr :=
  fold_left
    (fun ld_texts s =>
       match s with
       | Ok txt =>
           if nonempty txt && substring (lit "Recipe") txt
           then ld_texts ++ [txt] else ld_texts
       | Raise _ => ld_texts
       end)
    scripts [].

(** the four fallbacks of [scrape_keyword], on the fields
    [parse_ld_json] returned *)
Definition fallback (pv : page_view) (f : fields) : fields :=
  let title :=
    if truthy (title f) then title f
    else match h1_text pv with
         | Ok t => JStr (strip t)
         | Raise _ => JStr placeholder_title
         end in
  let image_url :=
    if truthy (image_url f) then image_url f
    else match og_image pv with
         | Ok (Some og) =>
             if nonempty og && startswith (lit "http") og
             then JStr og else image_url f
         | _ => image_url f
         end in
  let steps :=
    if nonempty (steps f) then steps f
    else match collect_texts (step_items pv) with
         | Ok tmp => if nonempty tmp then tmp else steps f
         | Raise _ => steps f
         end in
  let ingredients :=
    if nonempty (ingredients f) then ingredients f
    else match collect_texts (ingredient_items pv) with
         | Ok tmp => if nonempty tmp then tmp else ingredients f
         | Raise _ => ingredients f
         end in
  Fields title ingredients (time_text f) (yield_info f) steps image_url.

(** the dict [doc] *)
Definition make_doc (url : pystr) (f : fields) : json :=
  JDict
    [ (lit "title", if truthy (title f) then title f else JStr []);
      (lit "ingredients", JList (List.map JStr (ingredients f)));
      (lit "steps", JList (List.map JStr (steps f)));
      (lit "time", time_text f);
      (lit "yield", yield_info f);
      (lit "link", JStr url);
      (lit "imageUrl", image_url f);
      (lit "source", JStr (lit "icook")) ].

(** one turn of the page loop of [scrape_keyword] *)
Definition scrape_page {R : Runtime} (r : run) (keyword url : pystr)
    (saved : list json) : io (list json) :=
  let pv := visit r keyword url in
  if negb (opens pv) then io_ret saved else
  parsed <~ lift (parse_ld_json (gather_ld_texts (ld_scripts pv))) ;;
  let f := fallback pv parsed in
  let doc := make_doc url f in
  saved' <~
    (if nonempty (ingredients f) then
       _ <~ (fun w =>
               match db w with
               | Some _ =>
                   try_except
                     (_ <~ upsert_firestore (remote_set_ok r keyword url) doc ;;
                      io_ret tt)
                     (io_ret tt) w
               | None => (Ok tt, w)
               end) ;;
       io_ret (saved ++ [doc])
     else io_ret saved) ;;
  _ <~ lift (pause pv) ;;
  io_ret saved'.

Definition scrape_keyword {R : Runtime} (r : run) (keyword : pystr)
  : io (list json) :=
  anchors <~ lift (search_anchors r keyword) ;;
  for_each (scrape_page r keyword) (discover_links anchors) [].

End Crawler.
Export Crawler.

(** ** Persistence *)

Module Persistence.

(** [try: with open(path, "w") as f: json.dump(v, f) except Exception: log] *)
Definition write_json (o : write_outcome) (v : json) (old : file) : file :=
  match o with
  | Written => Holds v
  | OpenFailed => old
  | DumpFailed => Unparseable
  end.

(** the history list [main] starts from *)
Definition read_history (f : file) : json :=
  match f with
  | Absent => JList []
  | Unparseable => JList []
  | Holds v => v
  end.

(** [history.extend(all_saved)] *)
Definition list_extend (history : json) (more : list json) : res json :=
  match history with
  | JList l => Ok (JList (l ++ more))
  | _ => Raise AttributeError
  end.

(** the [with sync_playwright()] block of [main]: the browser is
    started, the keyword loop runs, the browser is stopped *)
Definition crawl {R : Runtime} (r : run) : io (list json) :=
  _ <~ lift (browser_start r) ;;
  all_saved <~
    for_each
      (fun kw all_saved =>
         docs <~ scrape_keyword r kw ;;
         io_ret (all_saved ++ docs))
      (kws r) [] ;;
  _ <~ lift (browser_stop r) ;;
  io_ret all_saved.

(** [main], up to the end of the history write; it returns [all_saved].
    The summary that follows only counts the remote collection. *)
Definition main {R : Runtime} (r : run) : io (list json) :=
  all_saved <~ crawl r ;;
  _ <~ (fun w =>
          (Ok tt,
           with_sample_file
             (write_json (sample_write r) (JList all_saved) (sample_file w)) w)) ;;
  history <~ (fun w => (list_extend (read_history (history_file w)) all_saved, w)) ;;
  _ <~ (fun w =>
          (Ok tt,
           with_history_file
             (write_json (history_write r) history (history_file w)) w)) ;;
  io_ret all_saved.

(** *** Vocabulary for the properties of persistence *)

(** A record with a non-empty ingredients list. *)
Definition has_ingredients (doc : json) : Prop :=
  exists x xs, getitem_key doc (lit "ingredients") = Ok (JList (x :: xs)).

(** The remote collection holds [doc] under [id]. *)
Definition remote_has (w : world) (id : pystr) (doc : json) : Prop :=
  exists recipes, db w = Some recipes /\ In (id, doc) recipes.

(** The crawl leaves the files alone, and whatever it adds to the remote
    collection has ingredients. *)
Definition crawled (w w' : world) : Prop :=
  sample_file w' = sample_file w
  /\ history_file w' = history_file w
  /\ (forall id doc, remote_has w' id doc -> remote_has w id doc \/ has_ingredients doc).

(** [saved'] is [saved] with records appended that have ingredients. *)
Definition extended (saved saved' : list json) : Prop :=
  exists new, saved' = saved ++ new /\ Forall has_ingredients new.

End Persistence.
Export Persistence.

(** ** A concrete runtime, for worked examples *)

Module Demo.

(** JSON text written with apostrophes for the quotation marks. *)
Definition json_text (s : string) : pystr :=
  List.map (fun c => if N.eqb c 39 then 34%N else c) (lit s).

Arguments json_text s%_string.

(** [repr] of a text free of quotes, backslashes and non-printing
    characters. *)
Definition plain_repr (s : pystr) : pystr := [39%N] ++ s ++ [39%N].

(** A runtime whose decoder knows the listed texts and rejects all
    others. *)
Definition table_runtime (known : list (pystr * json)) : Runtime :=
  {| json_loads raw :=
       match List.find (fun kv => str_eqb (fst kv) raw) known with
       | Some kv => Ok (snd kv)
       | None => Raise ValueError
       end;
     repr_str := plain_repr;
     digit_val := ascii_digit |}.

Definition recipe_type : pystr * json := (lit "@type", JStr (lit "Recipe")).

(** a zero duration *)
Definition zero_duration_blob : pystr :=
  json_text "{'@type': 'Recipe', 'totalTime': 'PT0H0M'}".
Definition zero_duration_doc : json :=
  JDict [recipe_type; (lit "totalTime", JStr (lit "PT0H0M"))].

(** an image URL with blanks around it *)
Definition padded_image_blob : pystr :=
  json_text "{'@type': 'Recipe', 'image': ' http://a/b.jpg '}".
Definition padded_image_doc : json :=
  JDict [recipe_type; (lit "image", JStr (lit " http://a/b.jpg "))].

(** a blank image string, then a node with a usable one *)
Definition blank_image_blob : pystr :=
  json_text "[{'@type': 'Recipe', 'image': '  '}, {'@type': 'Recipe', 'image': 'http://a/b.jpg'}]".
Definition blank_image_doc : json :=
  JList [ JDict [recipe_type; (lit "image", JStr (lit "  "))];
          JDict [recipe_type; (lit "image", JStr (lit "http://a/b.jpg"))] ].

(** the same, with the image given as an object: the blank is dropped *)
Definition blank_image_object_blob : pystr :=
  json_text "[{'@type': 'Recipe', 'image': {'url': '  '}}, {'@type': 'Recipe', 'image': 'http://a/b.jpg'}]".
Definition blank_image_object_doc : json :=
  JList [ JDict [recipe_type; (lit "image", JDict [(lit "url", JStr (lit "  "))])];
          JDict [recipe_type; (lit "image", JStr (lit "http://a/b.jpg"))] ].

(** a recipe with a name, two ingredients and a duration *)
Definition soup_blob : pystr :=
  json_text "{'@type': 'Recipe', 'name': 'Soup', 'recipeIngredient': ['water', 'salt'], 'totalTime': 'PT1H30M'}".
Definition soup_node : list (pystr * json) :=
  [ recipe_type; (lit "name", JStr (lit "Soup"));
    (lit "recipeIngredient", JList [JStr (lit "water"); JStr (lit "salt")]);
    (lit "totalTime", JStr (lit "PT1H30M")) ].
Definition soup_doc : json := JDict soup_node.

(** a name given as a list *)
Definition list_name_blob : pystr :=
  json_text "{'@type': 'Recipe', 'name': ['a']}".
Definition list_name_doc : json :=
  JDict [recipe_type; (lit "name", JList [JStr (lit "a")])].

(** a duration of more hours than [int] reads: 4301 digits *)
Definition long_duration : pystr :=
  lit "PT" ++ List.repeat 49%N 4301 ++ lit "H".
Definition long_duration_blob : pystr :=
  json_text "{'@type': 'Recipe', 'totalTime': '" ++ long_duration ++ json_text "'}".
Definition long_duration_doc : json :=
  JDict [recipe_type; (lit "totalTime", JStr long_duration)].

(** text no decoder accepts *)
Definition broken_blob : pystr := lit "{Recipe".

Definition demo : Runtime :=
  table_runtime
    [ (zero_duration_blob, zero_duration_doc);
      (padded_image_blob, padded_image_doc);
      (blank_image_blob, blank_image_doc);
      (blank_image_object_blob, blank_image_object_doc);
      (soup_blob, soup_doc);
      (list_name_blob, list_name_doc);
      (long_duration_blob, long_duration_doc) ].

(** A page that carries the soup recipe. *)
Definition soup_page : page_view :=
  PageView true [Ok soup_blob] (Ok (lit "Soup")) (Ok None) (Ok []) (Ok [])
           (Ok tt).

(** A run over one keyword whose search shows one recipe link, with all
    writes going through. *)
Definition soup_run : run :=
  Run [[38622; 32905]%N]                                   (* "雞肉" *)
      (fun _ => Ok [Some (lit "/recipes/1")])
      (fun _ _ => soup_page)
      (fun _ _ => true)
      Written Written (Ok tt) (Ok tt).

(** No files yet, no remote store. *)
Definition fresh_world : world := World Absent Absent None.

(** The record the soup run saves. *)
Definition soup_record : json :=
  JDict
    [ (lit "title", JStr (lit "Soup"));
      (lit "ingredients", JList [JStr (lit "water"); JStr (lit "salt")]);
      (lit "steps", JList []);
      (lit "time", JStr (dec 1 ++ hours_text ++ lit " " ++ dec 30 ++ minutes_text));
      (lit "yield", JNone);
      (lit "link", JStr (lit "https://icook.tw/recipes/1"));
      (lit "imageUrl", JNone);
      (lit "source", JStr (lit "icook")) ].

End Demo.

(** ** Vocabulary for the properties of whole pages and runs *)

Module Records.

(** The record a page adds to [saved]: none when the page does not
    open, when the extractor raises on it, or when it ends without
    ingredients. *)
Definition page_docs {R : Runtime} (r : run) (keyword url : pystr) : list json :=
  if negb (opens (visit r keyword url)) then []
  else match parse_ld_json (gather_ld_texts (ld_scripts (visit r keyword url))) with
       | Ok parsed =>
           let f := fallback (visit r keyword url) parsed in
           if nonempty (ingredients f) then [make_doc url f] else []
       | Raise _ => []
       end.

(** How one turn of the page loop ends, read off the page alone: a
    page that does not open is passed over; on one that opens the
    extractor may raise, and so may the pause that ends the turn. *)
Definition page_outcome {R : Runtime} (r : run) (keyword url : pystr)
  : res (list json) :=
  if negb (opens (visit r keyword url)) then Ok []
  else
    _ <- parse_ld_json (gather_ld_texts (ld_scripts (visit r keyword url))) ;;
    _ <- pause (visit r keyword url) ;;
    Ok (page_docs r keyword url).

(** What [scrape_keyword] returns, read off the pages alone. *)
Definition keyword_docs {R : Runtime} (r : run) (keyword : pystr)
  : res (list json) :=
  anchors <- search_anchors r keyword ;;
  foldM (fun url saved => docs <- page_outcome r keyword url ;; Ok (saved ++ docs))
        (discover_links anchors) [].

(** What the browser session of [main] collects, read off the pages
    alone. *)
Definition crawl_docs {R : Runtime} (r : run) : res (list json) :=
  _ <- browser_start r ;;
  all_saved <-
    foldM (fun kw all_saved => docs <- keyword_docs r kw ;; Ok (all_saved ++ docs))
          (kws r) [] ;;
  _ <- browser_stop r ;;
  Ok all_saved.

(** The same run with other outcomes of the remote writes. *)
Definition with_remote_set_ok (ok : pystr -> pystr -> bool) (r : run) : run :=
  Run (kws r) (search_anchors r) (visit r) ok (sample_write r) (history_write r)
      (browser_start r) (browser_stop r).

(** The document the remote collection holds under [id]. *)
Definition store_get (id : pystr) (s : store) : option json :=
  match List.find (fun kv => str_eqb (fst kv) id) s with
  | Some kv => Some (snd kv)
  | None => None
  end.

(** The [link] of a record. *)
Definition record_link (doc : json) : option pystr :=
  match getitem_key doc (lit "link") with
  | Ok (JStr u) => Some u
  | _ => None
  end.

(** [None] or a [str]. *)
Definition text_or_none (v : json) : Prop :=
  v = JNone \/ exists s, v = JStr s.

(** [None], or a text that is not empty and carries no surrounding
    whitespace. *)
Definition filled_text_or_none (v : json) : Prop :=
  v = JNone \/ exists s, v = JStr s /\ nonempty s = true /\ trimmed s.

(** A record as [scrape_keyword] assembles it for [url]; [texts] is
    what holds of its ingredient and step texts. *)
Definition is_record (texts : list pystr -> Prop) (url : pystr) (doc : json)
  : Prop :=
  exists title ings stps time yld image,
    doc = JDict
            [ (lit "title", JStr title);
              (lit "ingredients", JList (List.map JStr ings));
              (lit "steps", JList (List.map JStr stps));
              (lit "time", time);
              (lit "yield", yld);
              (lit "link", JStr url);
              (lit "imageUrl", image);
              (lit "source", JStr (lit "icook")) ]
    /\ ings <> [] /\ texts ings /\ texts stps
    /\ filled_text_or_none time /\ trimmed_text yld /\ text_or_none image.

(** Both reads of the element give the same. *)
Definition steady (it : element) : Prop := second_read it = first_read it.

(** The step and ingredient elements of the page read the same twice. *)
Definition steady_page (pv : page_view) : Prop :=
  (forall its, step_items pv = Ok its -> Forall steady its)
  /\ (forall its, ingredient_items pv = Ok its -> Forall steady its).

(** The link of a recipe page of the site. *)
Definition recipe_url (ds : pystr) : pystr := lit "https://icook.tw/recipes/" ++ ds.

End Records.
Export Records.

(** ** More worked inputs *)

Module Demo2.
Import Demo.

(** a recipe with every field given as clean text *)
Definition full_blob : pystr :=
  json_text "{'@type': 'Recipe', 'name': 'Stew', 'recipeIngredient': ['beef', 'salt'], 'totalTime': '2 hours', 'recipeYield': '4', 'recipeInstructions': ['boil', 'serve'], 'image': 'http://a/b.jpg'}".
Definition full_doc : list (pystr * json) :=
  [ recipe_type; (lit "name", JStr (lit "Stew"));
    (lit "recipeIngredient", JList (List.map JStr [lit "beef"; lit "salt"]));
    (lit "totalTime", JStr (lit "2 hours"));
    (lit "recipeYield", JStr (lit "4"));
    (lit "recipeInstructions", JList (List.map JStr [lit "boil"; lit "serve"]));
    (lit "image", JStr (lit "http://a/b.jpg")) ].

Definition demo2 : Runtime :=
  table_runtime [ (full_blob, JDict full_doc); (soup_blob, soup_doc) ].

(** A page that does not open. *)
Definition closed_page : page_view :=
  PageView false [] (Raise DriverError) (Raise DriverError)
           (Raise DriverError) (Raise DriverError) (Raise DriverError).

(** The soup run, with the page of recipe 2 closed. *)
Definition closed_run : run :=
  Run [[38622; 32905]%N]
      (fun _ => Ok [Some (lit "/recipes/1"); Some (lit "/recipes/2")])
      (fun _ url => if str_eqb url (lit "https://icook.tw/recipes/2")
                    then closed_page else soup_page)
      (fun _ _ => true)
      Written Written (Ok tt) (Ok tt).

(** A run whose search fails. *)
Definition failing_run : run :=
  Run [[38622; 32905]%N]
      (fun _ => Raise DriverError)
      (fun _ _ => soup_page)
      (fun _ _ => true)
      Written Written (Ok tt) (Ok tt).

(** A history file that holds an object, not a list. *)
Definition odd_history_world : world :=
  World Absent (Holds (JDict [])) None.

(** A world with an empty remote collection. *)
Definition remote_world : world := World Absent Absent (Some []).

(** Two records whose links differ in the scheme only. *)
Definition plain_record : json :=
  JDict [ (lit "title", JStr (lit "old"));
          (lit "link", JStr (lit "http://icook.tw/recipes/1")) ].
Definition secure_record : json :=
  JDict [ (lit "title", JStr (lit "new"));
          (lit "link", JStr (lit "https://icook.tw/recipes/1")) ].

(** the fields of the stew recipe *)
Definition stew_fields : fields :=
  Fields (JStr (lit "Stew")) [lit "beef"; lit "salt"] (JStr (lit "2 hours"))
         (JStr (lit "4")) [lit "boil"; lit "serve"] (JStr (lit "http://a/b.jpg")).




(** The soup run, with the snapshot file not writable. *)
Definition unwritable_run : run :=
  Run [[38622; 32905]%N]
      (fun _ => Ok [Some (lit "/recipes/1")])
      (fun _ _ => soup_page)
      (fun _ _ => true)
      OpenFailed Written (Ok tt) (Ok tt).

End Demo2.

(** * Properties *)

Unset Implicit Arguments.

(** ** Strings *)

Module PyStrFacts.

Local Open Scope N_scope.

Lemma str_eqb_spec a b : reflect (a = b) (str_eqb a b).
Proof.
  revert b; induction a as [|x a IH]; intros [|y b]; simpl;
    try (constructor; congruence).
  unfold char_eqb. destruct (N.eqb_spec x y) as [->|Hn]; simpl.
  - destruct (IH b) as [->|Hn]; constructor; congruence.
  - constructor; congruence.
Qed.

Lemma str_eqb_refl a : str_eqb a a = true.
Proof. destruct (str_eqb_spec a a); congruence. Qed.

Lemma str_eqb_eq a b : str_eqb a b = true <-> a = b.
Proof. destruct (str_eqb_spec a b); split; congruence. Qed.

Lemma str_eqb_neq a b : str_eqb a b = false <-> a <> b.
Proof. destruct (str_eqb_spec a b); split; congruence. Qed.

Lemma startswith_app p s : startswith p (p ++ s) = true.
Proof.
  induction p as [|x p IH]; simpl; auto.
  unfold char_eqb; rewrite N.eqb_refl; auto.
Qed.

Lemma startswith_inv p s :
  startswith p s = true -> exists r, s = p ++ r.
Proof.
  revert s; induction p as [|x p IH]; intros s H; simpl in *.
  - now exists s.
  - destruct s as [|y s]; [discriminate|].
    apply andb_true_iff in H as [Hc Hp].
    apply N.eqb_eq in Hc; subst y.
    destruct (IH _ Hp) as [r ->]. now exists r.
Qed.

Lemma nonempty_false {A} (l : list A) : nonempty l = false <-> l = [].
Proof. destruct l; simpl; split; congruence. Qed.

Lemma nonempty_true {A} (l : list A) : nonempty l = true <-> l <> [].
Proof. destruct l; simpl; split; congruence. Qed.

(** *** [strip] leaves no whitespace at either end *)

Lemma lstrip_head s c r : lstrip s = c :: r -> is_space c = false.
Proof.
  induction s as [|x s IH]; simpl; [discriminate|].
  destruct (is_space x) eqn:E; auto.
  intros [= <- <-]; exact E.
Qed.

Lemma lstrip_snoc l c :
  is_space c = false -> exists l', lstrip (l ++ [c]) = l' ++ [c].
Proof.
  intros Hc. induction l as [|x l IH]; simpl.
  - rewrite Hc. now exists [].
  - destruct (is_space x).
    + exact IH.
    + now exists (x :: l).
Qed.

Lemma rstrip_cons c r :
  is_space c = false -> exists r', rstrip (c :: r) = c :: r'.
Proof.
  intros Hc. unfold rstrip; simpl.
  destruct (lstrip_snoc (rev r) c Hc) as [l' ->].
  rewrite rev_app_distr; simpl. now exists (rev l').
Qed.

Lemma rstrip_last s d : rstrip s <> [] -> is_space (last (rstrip s) d) = false.
Proof.
  unfold rstrip. destruct (lstrip (rev s)) as [|c r] eqn:E; [easy|].
  intros _. simpl. rewrite last_last. eapply lstrip_head; eauto.
Qed.

Lemma strip_trimmed s : trimmed (strip s).
Proof.
  unfold strip, trimmed.
  destruct (rstrip (lstrip s)) as [|c r] eqn:E; [exact I|].
  split.
  - destruct (lstrip s) as [|x t] eqn:El.
    + discriminate.
    + pose proof (lstrip_head _ _ _ El) as Hx.
      destruct (rstrip_cons x t Hx) as [r' Hr]. congruence.
  - rewrite <- E. apply rstrip_last. congruence.
Qed.

Lemma lstrip_id s :
  match s with [] => True | c :: _ => is_space c = false end -> lstrip s = s.
Proof. destruct s as [|c r]; simpl; auto. now intros ->. Qed.

Lemma trimmed_strip s : trimmed s -> strip s = s.
Proof.
  unfold trimmed, strip. destruct s as [|c r]; [reflexivity|].
  intros [Hc Hl]. rewrite lstrip_id by exact Hc.
  unfold rstrip.
  destruct (rev (c :: r)) as [|y t] eqn:E.
  - apply (f_equal (@rev _)) in E. rewrite rev_involutive in E. discriminate.
  - assert (Hy : last (c :: r) c = y).
    { rewrite <- (rev_involutive (c :: r)), E. simpl. apply last_last. }
    rewrite Hy in Hl. simpl. rewrite Hl, <- E. apply rev_involutive.
Qed.

Lemma strip_idempotent s : strip (strip s) = strip s.
Proof. apply trimmed_strip, strip_trimmed. Qed.

End PyStrFacts.
Export PyStrFacts.

(** ** Durations *)

Module DurationFacts.
Section WithRuntime.
Context {R : Runtime}.

Local Open Scope N_scope.

Lemma py_int_unfold ds :
  nonempty ds = true -> forallb is_digit ds = true ->
  (length ds <= int_max_str_digits)%nat ->
  py_int ds = Ok (fold_left digit_step ds 0).
Proof.
  intros H1 H2 H3. unfold py_int. rewrite H1, H2. cbn [andb].
  apply Nat.leb_le in H3. now rewrite H3.
Qed.

(** a run of digits beyond the limit is refused *)
Lemma py_int_long ds :
  (int_max_str_digits < length ds)%nat -> py_int ds = Raise ValueError.
Proof.
  intros H. unfold py_int. destruct (nonempty ds && forallb is_digit ds); [|reflexivity].
  apply Nat.leb_gt in H. now rewrite H.
Qed.

Lemma py_int_error ds e : py_int ds = Raise e -> e = ValueError.
Proof.
  unfold py_int. destruct (nonempty ds && forallb is_digit ds); [|congruence].
  destruct (Nat.leb _ _); congruence.
Qed.

(** what [\d+] captures is a non-empty run of digits *)
Lemma digits_then_run stop s g :
  digits_then stop s = Some g ->
  nonempty g = true /\ forallb is_digit g = true.
Proof.
  revert g; induction s as [|c s IH]; simpl; intros g; [discriminate|].
  destruct (is_digit c) eqn:Hc; [|discriminate].
  destruct (digits_then stop s) as [ds|].
  - intros [= <-]. destruct (IH ds eq_refl) as [_ Hd]. simpl. now rewrite Hc, Hd.
  - destruct s as [|c' s']; [discriminate|].
    destruct (char_eqb c' stop); [|discriminate].
    intros [= <-]. simpl. now rewrite Hc.
Qed.

Lemma search_hours_run s g :
  search_hours s = Some g -> nonempty g = true /\ forallb is_digit g = true.
Proof.
  induction s as [|c s IH]; simpl; [discriminate|].
  destruct (if startswith (lit "PT") (c :: s) then _ else _) as [g'|] eqn:E.
  - intros [= <-]. destruct (startswith (lit "PT") (c :: s)); [|discriminate].
    eapply digits_then_run; eauto.
  - exact IH.
Qed.

Lemma search_minutes_run s g :
  search_minutes s = Some g -> nonempty g = true /\ forallb is_digit g = true.
Proof.
  induction s as [|c s IH]; simpl; [discriminate|].
  destruct (is_digit c) eqn:Hc.
  - destruct (digits_then 77 s) as [ds|] eqn:Eds.
    + intros [= <-]. destruct (digits_then_run _ _ _ Eds) as [_ Hd].
      simpl. now rewrite Hc, Hd.
    + destruct s as [|c' s']; [exact IH|].
      destruct (char_eqb c' 77); [|exact IH].
      intros [= <-]. simpl. now rewrite Hc.
  - exact IH.
Qed.

Lemma group_int_run (m : option pystr) :
  (forall g, m = Some g -> nonempty g = true /\ forallb is_digit g = true) ->
  (forall g, m = Some g -> (length g <= int_max_str_digits)%nat) ->
  exists n, group_int m = Ok n.
Proof.
  intros Hrun Hlen. destruct m as [g|]; simpl; [|now exists 0].
  destruct (Hrun g eq_refl) as [H1 H2].
  rewrite (py_int_unfold _ H1 H2 (Hlen g eq_refl)). eauto.
Qed.

Lemma group_int_error m e : group_int m = Raise e -> e = ValueError.
Proof. destruct m as [g|]; simpl; [apply py_int_error|discriminate]. Qed.

(** [iso8601_duration_to_text] on a text that starts with [PT] *)
Lemma iso8601_PT_eq s :
  startswith (lit "PT") s = true ->
  iso8601_duration_to_text (JStr s)
  = (hours <- group_int (search_hours s) ;;
     minutes <- group_int (search_minutes s) ;;
     Ok (format_duration hours minutes)).
Proof.
  intros Hpt. unfold iso8601_duration_to_text.
  destruct s as [|c s]; [discriminate|].
  cbn [truthy nonempty negb str_startswith bind re_search].
  rewrite Hpt. reflexivity.
Qed.

Lemma iso8601_PT s h m :
  startswith (lit "PT") s = true ->
  group_int (search_hours s) = Ok h ->
  group_int (search_minutes s) = Ok m ->
  iso8601_duration_to_text (JStr s) = Ok (format_duration h m).
Proof. intros Hpt Hh Hm. now rewrite (iso8601_PT_eq _ Hpt), Hh, Hm. Qed.

Lemma iso8601_other s :
  startswith (lit "PT") s = false ->
  iso8601_duration_to_text (JStr s) = Ok (if nonempty s then JStr s else JNone).
Proof.
  intros Hpt. unfold iso8601_duration_to_text.
  destruct s as [|c s]; [reflexivity|].
  cbn [truthy nonempty negb str_startswith bind]. now rewrite Hpt.
Qed.

(** what [iso8601_duration_to_text] returns on a text, when it returns:
    nothing, the text itself, or a formatted duration *)
Lemma iso8601_shape s r :
  iso8601_duration_to_text (JStr s) = Ok r ->
  r = JNone \/ r = JStr s \/ exists h m, r = format_duration h m.
Proof.
  destruct (startswith (lit "PT") s) eqn:Hpt.
  - rewrite (iso8601_PT_eq _ Hpt).
    destruct (group_int (search_hours s)) as [h|]; [|discriminate].
    destruct (group_int (search_minutes s)) as [m|]; [|discriminate].
    cbn [bind]. intros [= <-]. eauto.
  - rewrite (iso8601_other _ Hpt). intros [= <-]. destruct (nonempty s); auto.
Qed.

(** it returns on a text whose digit runs [int] can read *)
Lemma iso8601_returns s :
  int_readable (JStr s) -> exists r, iso8601_duration_to_text (JStr s) = Ok r.
Proof.
  intros Hr. destruct (startswith (lit "PT") s) eqn:Hpt.
  - unfold int_readable in Hr. specialize (Hr Hpt).
    destruct (group_int_run (search_hours s) (search_hours_run s)
                (fun g E => Hr g (or_introl E))) as [h Hh].
    destruct (group_int_run (search_minutes s) (search_minutes_run s)
                (fun g E => Hr g (or_intror E))) as [m Hm].
    rewrite (iso8601_PT _ _ _ Hpt Hh Hm). eauto.
  - rewrite (iso8601_other _ Hpt). eauto.
Qed.

(** and the only error it raises is the one of [int] *)
Lemma iso8601_error s e :
  iso8601_duration_to_text (JStr s) = Raise e -> e = ValueError.
Proof.
  destruct (startswith (lit "PT") s) eqn:Hpt.
  - rewrite (iso8601_PT_eq _ Hpt).
    destruct (group_int (search_hours s)) as [h|e1] eqn:E1.
    + destruct (group_int (search_minutes s)) as [m|e2] eqn:E2; [discriminate|].
      cbn [bind]. intros [= <-]. apply (group_int_error _ _ E2).
    + cbn [bind]. intros [= <-]. apply (group_int_error _ _ E1).
  - rewrite (iso8601_other _ Hpt). discriminate.
Qed.

End WithRuntime.
End DurationFacts.
Export DurationFacts.

(** ** The extractor *)

Module ExtractorFacts.
Section WithRuntime.
Context {R : Runtime}.

Lemma foldM_app {A S} (body : A -> S -> res S) l1 l2 s :
  foldM body (l1 ++ l2) s = (s' <- foldM body l1 s ;; foldM body l2 s').
Proof.
  revert s; induction l1 as [|a l1 IH]; intros s; simpl; [reflexivity|].
  destruct (body a s) as [s1|e]; simpl; auto.
Qed.

Lemma foldM_total {A S} (P : A -> Prop) (body : A -> S -> res S) :
  (forall a s, P a -> exists s', body a s = Ok s') ->
  forall l s, Forall P l -> exists s', foldM body l s = Ok s'.
Proof.
  intros Hb l; induction l as [|a l IH]; intros s Hl; simpl; [eauto|].
  inversion Hl as [|? ? Ha Hl']; subst.
  destruct (Hb a s Ha) as [s1 ->]. simpl. auto.
Qed.

Lemma ensure_str_cases x :
  ensure_str x = JNone \/ exists s, ensure_str x = JStr s /\ trimmed s.
Proof.
  unfold ensure_str. destruct (is_None x); [now left|right].
  eexists; split; [reflexivity|apply strip_trimmed].
Qed.

Lemma ensure_str_text x : trimmed_text (ensure_str x).
Proof. destruct (ensure_str_cases x) as [->|(s & -> & H)]; simpl; auto. Qed.

(** *** The helpers return on every shape *)

Lemma extract_image_total obj :
  exists r, extract_image_url_from_ld obj = Ok r
            /\ (r = JNone \/ exists s, r = JStr s).
Proof.
  unfold extract_image_url_from_ld.
  destruct (truthy obj) eqn:T; cbn [negb]; [|eauto].
  destruct obj as [ | b | z | r | s | l | d];
    cbn [isinstance_str isinstance_list isinstance_dict andb bind dict_get];
    try rewrite T; cbn [bind]; eauto.
  - destruct l as [|o0 l]; [discriminate|]. cbn [getitem0 bind].
    destruct o0; cbn [isinstance_str isinstance_dict bind dict_get]; eauto.
    destruct (ensure_str_cases (get_or_none (lit "url") d)) as [->|(s & -> & _)]; eauto.
  - destruct (ensure_str_cases (get_or_none (lit "url") d)) as [->|(s & -> & _)]; eauto.
Qed.

Lemma pick_item_total it acc : exists acc', pick_item it acc = Ok acc'.
Proof.
  unfold pick_item.
  destruct it; cbn [isinstance_str isinstance_dict str_strip bind dict_get]; eauto.
  unfold or_else. destruct (truthy (get_or_none (lit "text") d)); cbn [bind]; eauto.
Qed.

Lemma pick_from_list_total l acc : exists acc', pick_from_list (JList l) acc = Ok acc'.
Proof.
  unfold pick_from_list. cbn [iter bind].
  apply (foldM_total (fun _ => True)); [intros; apply pick_item_total|].
  apply Forall_forall; auto.
Qed.

Lemma extract_steps_total obj : exists st, extract_steps_from_ld obj = Ok st.
Proof.
  unfold extract_steps_from_ld.
  destruct obj as [ | b | z | r | s | l | d];
    cbn [isinstance_list isinstance_dict bind dict_get]; eauto.
  - destruct (pick_from_list_total l []) as [st ->]. cbn [bind]. eauto.
  - destruct (eq_str (get_or_none (lit "@type") d) (lit "HowToSection")); cbn [bind].
    + destruct (isinstance_list (get_or_none (lit "itemListElement") d)) eqn:E.
      * unfold getitem_key, get_or_none in *.
        destruct (lookup (lit "itemListElement") d) as [ile|]; [|discriminate].
        destruct ile; try discriminate. cbn [bind].
        destruct (pick_from_list_total l []) as [st ->]. cbn [bind]. eauto.
      * unfold or_else. destruct (truthy (get_or_none (lit "text") d)); cbn [bind]; eauto.
    + unfold or_else. destruct (truthy (get_or_none (lit "text") d)); cbn [bind]; eauto.
Qed.

(** *** Each block reads and writes its own field only *)

Ltac picks_tac :=
  unfold picks; cbn [truthy nonempty]; repeat split; intros;
  repeat match goal with
         | H : ?b = _ |- context [if ?b then _ else _] => rewrite H
         | H : _ = true |- _ => rewrite H in *
         | H : _ = false |- _ => rewrite H in *
         end; try congruence; auto.

Lemma duration_text_cases d :
  duration_text d = JNone \/ exists s, duration_text d = JStr s /\ trimmed s.
Proof.
  unfold duration_text.
  destruct (truthy (ensure_str (get_or_none (lit "totalTime") d)));
    apply ensure_str_cases.
Qed.

(** [duration_text] is what the source computes *)
Lemma duration_source_eq d : duration_source (JDict d) = Ok (duration_text d).
Proof.
  unfold duration_source, duration_text, or_else. cbn [dict_get bind].
  now destruct (truthy (ensure_str (get_or_none (lit "totalTime") d))).
Qed.

Lemma fill_title_fun d :
  exists g, (forall f, fill_title (JDict d) f = Ok (with_title (g (title f)) f))
            /\ (forall cur, picks truthy cur (title (offer (JDict d))) (g cur))
            /\ g JNone = title (offer (JDict d)).
Proof.
  exists (fun cur => if truthy cur then cur
                     else ensure_str (get_or_none (lit "name") d)).
  split; [|split; [|reflexivity]].
  - intros f. unfold fill_title. destruct (truthy (title f)); [now destruct f|reflexivity].
  - intros cur. cbn [offer title]. picks_tac.
Qed.

Lemma fill_ingredients_fun d :
  exists g, (forall f, fill_ingredients (JDict d) f = Ok (with_ingredients (g (ingredients f)) f))
            /\ (forall cur, picks (@nonempty pystr) cur (ingredients (offer (JDict d))) (g cur))
            /\ g [] = ingredients (offer (JDict d)).
Proof.
  exists (fun cur => if nonempty cur then cur else ingredients (offer (JDict d))).
  split; [|split; [|reflexivity]].
  - intros f. unfold fill_ingredients.
    destruct (ingredients f) as [|x xs] eqn:Ei; cbn [nonempty];
      [|destruct f; cbn in Ei; now subst].
    cbn [dict_get bind offer ingredients].
    destruct (get_or_none (lit "recipeIngredient") d);
      cbn [isinstance_list iter bind]; try reflexivity;
      destruct f; cbn in Ei; now subst.
  - intros cur. unfold picks.
    destruct cur as [|c cur]; cbn [nonempty]; repeat split; intros; congruence.
Qed.

(** the time block: the one that can raise, through [int] *)
Lemma fill_time_fun d :
  exists g : json -> res json,
    (forall f, fill_time (JDict d) f
               = (v <- g (time_text f) ;; Ok (with_time_text v f)))
    /\ (forall cur v, g cur = Ok v ->
          picks truthy cur (time_text (offer (JDict d))) v)
    /\ (forall v, g JNone = Ok v -> v = time_text (offer (JDict d)))
    /\ (forall cur, truthy cur = true -> g cur = Ok cur)
    /\ (int_readable (duration_text d) -> forall cur, exists v, g cur = Ok v)
    /\ (forall cur e, g cur = Raise e -> e = ValueError).
Proof.
  exists (fun cur =>
            if truthy cur then Ok cur
            else if truthy (duration_text d)
                 then r <- iso8601_duration_to_text (duration_text d) ;;
                      Ok (if truthy r then r else duration_text d)
                 else Ok cur).
  split; [|split; [|split; [|split; [|split]]]].
  - intros f. unfold fill_time. destruct (truthy (time_text f)); [now destruct f|].
    rewrite duration_source_eq. cbn [bind].
    destruct (truthy (duration_text d)); [|now destruct f].
    destruct (iso8601_duration_to_text (duration_text d)) as [r|e]; [|reflexivity].
    cbn [bind]. unfold or_else. now destruct (truthy r).
  - intros cur v. cbn [offer time_text]. unfold picks.
    destruct (truthy cur) eqn:Tc.
    + intros [= <-]. repeat split; congruence.
    + destruct (truthy (duration_text d)) eqn:Td.
      * destruct (iso8601_duration_to_text (duration_text d)) as [r|e]; [|discriminate].
        cbn [bind]. intros [= <-]. repeat split; congruence.
      * intros [= <-]. cbn [truthy]. repeat split; congruence.
  - intros v. cbn [truthy offer time_text].
    destruct (truthy (duration_text d)); [|congruence].
    destruct (iso8601_duration_to_text (duration_text d)) as [r|e]; [|discriminate].
    cbn [bind]. congruence.
  - intros cur ->. reflexivity.
  - intros Hr cur. destruct (truthy cur); [eauto|].
    destruct (truthy (duration_text d)); [|eauto].
    destruct (duration_text_cases d) as [E|(s & E & _)]; rewrite E in *.
    + cbn. eauto.
    + destruct (iso8601_returns s Hr) as [r ->]. cbn [bind]. eauto.
  - intros cur e. destruct (truthy cur); [discriminate|].
    destruct (truthy (duration_text d)) eqn:Td; [|discriminate].
    destruct (duration_text_cases d) as [E|(s & E & _)]; rewrite E in *;
      [discriminate|].
    destruct (iso8601_duration_to_text (JStr s)) as [r|e'] eqn:Ei; [discriminate|].
    cbn [bind]. intros [= <-]. apply (iso8601_error _ _ Ei).
Qed.

Lemma fill_yield_fun d :
  exists g, (forall f, fill_yield (JDict d) f = Ok (with_yield_info (g (yield_info f)) f))
            /\ (forall cur, picks truthy cur (yield_info (offer (JDict d))) (g cur))
            /\ g JNone = yield_info (offer (JDict d)).
Proof.
  exists (fun cur => if truthy cur then cur else yield_info (offer (JDict d))).
  split; [|split; [|reflexivity]].
  - intros f. unfold fill_yield. destruct (truthy (yield_info f)); [now destruct f|].
    cbn [dict_get bind offer yield_info].
    destruct (get_or_none (lit "recipeYield") d) as [ | b | z | r | s | l | d'];
      cbn [isinstance_list andb]; try reflexivity.
    destruct l; reflexivity.
  - intros cur. picks_tac.
Qed.

Lemma fill_steps_fun d :
  exists g, (forall f, fill_steps (JDict d) f = Ok (with_steps (g (steps f)) f))
            /\ (forall cur, picks (@nonempty pystr) cur (steps (offer (JDict d))) (g cur))
            /\ g [] = steps (offer (JDict d)).
Proof.
  exists (fun cur => if nonempty cur then cur else steps (offer (JDict d))).
  split; [|split; [|reflexivity]].
  - intros f. unfold fill_steps.
    destruct (steps f) as [|x xs] eqn:Es; cbn [nonempty];
      [|destruct f; cbn in Es; now subst].
    cbn [dict_get bind offer steps].
    destruct (extract_steps_total (get_or_none (lit "recipeInstructions") d)) as [st ->].
    cbn [bind]. destruct st as [|y ys]; cbn [nonempty]; [|reflexivity].
    destruct f; cbn in Es; now subst.
  - intros cur. unfold picks.
    destruct cur as [|c cur]; cbn [nonempty]; repeat split; intros; congruence.
Qed.

Lemma fill_image_fun d :
  exists g, (forall f, fill_image (JDict d) f = Ok (with_image_url (g (image_url f)) f))
            /\ (forall cur, picks truthy cur (image_url (offer (JDict d))) (g cur))
            /\ g JNone = image_url (offer (JDict d)).
Proof.
  exists (fun cur => if truthy cur then cur else image_url (offer (JDict d))).
  split; [|split; [|reflexivity]].
  - intros f. unfold fill_image. destruct (truthy (image_url f)); [now destruct f|].
    cbn [dict_get bind offer image_url].
    destruct (extract_image_total (get_or_none (lit "image") d)) as (u & -> & _).
    reflexivity.
  - intros cur. picks_tac.
Qed.

(** [recipe_node] is the test of the node loop *)
Lemma is_recipe_spec d : is_recipe (JDict d) = Ok (recipe_node (JDict d)).
Proof.
  unfold is_recipe, recipe_node. cbn [dict_get bind].
  destruct (get_or_none (lit "@type") d) as [ | b | z | r | t | l | d'];
    cbn [eq_str isinstance_list contains]; try reflexivity.
  now destruct (str_eqb t (lit "Recipe")).
Qed.

Lemma is_recipe_dict d : exists b, is_recipe (JDict d) = Ok b.
Proof. rewrite is_recipe_spec. eauto. Qed.

Lemma visit_node_other d f :
  is_recipe (JDict d) = Ok false -> visit_node (JDict d) f = Ok f.
Proof. intros H. unfold visit_node. now rewrite H. Qed.

(** A Recipe node: the six blocks as functions of the field each one
    owns; only the time block can raise. *)
Lemma visit_node_fun d :
  is_recipe (JDict d) = Ok true ->
  exists g1 g2 (g3 : json -> res json) g4 g5 g6,
    (forall f,
       fill_title (JDict d) f = Ok (with_title (g1 (title f)) f)
       /\ fill_ingredients (JDict d) f = Ok (with_ingredients (g2 (ingredients f)) f)
       /\ fill_time (JDict d) f = (v <- g3 (time_text f) ;; Ok (with_time_text v f))
       /\ fill_yield (JDict d) f = Ok (with_yield_info (g4 (yield_info f)) f)
       /\ fill_steps (JDict d) f = Ok (with_steps (g5 (steps f)) f)
       /\ fill_image (JDict d) f = Ok (with_image_url (g6 (image_url f)) f)
       /\ visit_node (JDict d) f
          = (v <- g3 (time_text f) ;;
             Ok (Fields (g1 (title f)) (g2 (ingredients f)) v
                        (g4 (yield_info f)) (g5 (steps f)) (g6 (image_url f)))))
    /\ (forall cur, picks truthy cur (title (offer (JDict d))) (g1 cur))
    /\ (forall cur, picks (@nonempty pystr) cur (ingredients (offer (JDict d))) (g2 cur))
    /\ (forall cur v, g3 cur = Ok v -> picks truthy cur (time_text (offer (JDict d))) v)
    /\ (forall cur, picks truthy cur (yield_info (offer (JDict d))) (g4 cur))
    /\ (forall cur, picks (@nonempty pystr) cur (steps (offer (JDict d))) (g5 cur))
    /\ (forall cur, picks truthy cur (image_url (offer (JDict d))) (g6 cur))
    /\ (forall v, g3 JNone = Ok v ->
          Fields (g1 JNone) (g2 []) v (g4 JNone) (g5 []) (g6 JNone) = offer (JDict d))
    /\ (forall cur, truthy cur = true -> g3 cur = Ok cur)
    /\ (int_readable (duration_text d) -> forall cur, exists v, g3 cur = Ok v)
    /\ (forall cur e, g3 cur = Raise e -> e = ValueError).
Proof.
  intros Hr.
  destruct (fill_title_fun d) as (g1 & E1 & P1 & F1).
  destruct (fill_ingredients_fun d) as (g2 & E2 & P2 & F2).
  destruct (fill_time_fun d) as (g3 & E3 & P3 & F3 & K3 & R3 & X3).
  destruct (fill_yield_fun d) as (g4 & E4 & P4 & F4).
  destruct (fill_steps_fun d) as (g5 & E5 & P5 & F5).
  destruct (fill_image_fun d) as (g6 & E6 & P6 & F6).
  exists g1, g2, g3, g4, g5, g6.
  split; [|repeat (split; [assumption|])].
  - intros f. repeat (split; [auto|]).
    unfold visit_node. rewrite Hr. cbn [negb bind].
    rewrite E1; cbn [bind]. rewrite E2; cbn [bind]. rewrite E3.
    cbn [time_text with_title with_ingredients].
    destruct (g3 (time_text f)) as [v|e]; [|reflexivity]. cbn [bind].
    rewrite E4; cbn [bind]. rewrite E5; cbn [bind]. rewrite E6.
    reflexivity.
  - split.
    + intros v Hv. rewrite F1, F2, F4, F5, F6, (F3 v Hv). reflexivity.
    + repeat (split; [assumption|]). assumption.
Qed.

(** the visit assembles what each block gives when run alone on the
    fields the visit started from *)
Lemma visit_node_recipe d f f' :
  is_recipe (JDict d) = Ok true ->
  visit_node (JDict d) f = Ok f' ->
  exists f1 f2 f3 f4 f5 f6,
    fill_title (JDict d) f = Ok f1 /\ fill_ingredients (JDict d) f = Ok f2
    /\ fill_time (JDict d) f = Ok f3 /\ fill_yield (JDict d) f = Ok f4
    /\ fill_steps (JDict d) f = Ok f5 /\ fill_image (JDict d) f = Ok f6
    /\ f' = Fields (title f1) (ingredients f2) (time_text f3)
                   (yield_info f4) (steps f5) (image_url f6).
Proof.
  intros Hr Hv.
  destruct (visit_node_fun d Hr) as (g1 & g2 & g3 & g4 & g5 & g6 & E & _).
  destruct (E f) as (E1 & E2 & E3 & E4 & E5 & E6 & V).
  rewrite V in Hv. rewrite E1, E2, E3, E4, E5, E6.
  destruct (g3 (time_text f)) as [v|e]; [|discriminate]. cbn [bind] in *.
  injection Hv as <-. do 6 eexists. repeat (split; [reflexivity|]). reflexivity.
Qed.


(** from nothing, a Recipe node gives its offer *)
Lemma visit_node_fresh d f' :
  is_recipe (JDict d) = Ok true ->
  visit_node (JDict d) no_fields = Ok f' -> f' = offer (JDict d).
Proof.
  intros Hr Hv.
  destruct (visit_node_fun d Hr)
    as (g1 & g2 & g3 & g4 & g5 & g6 & E & _ & _ & _ & _ & _ & _ & F & _).
  destruct (E no_fields) as (_ & _ & _ & _ & _ & _ & V). rewrite V in Hv.
  cbn [no_fields title ingredients time_text yield_info steps image_url] in Hv.
  destruct (g3 JNone) as [v|e] eqn:E3; [|discriminate]. cbn [bind] in Hv.
  injection Hv as <-. now apply F.
Qed.

(** the visit returns when [int] can read the node's duration, or the
    time is already set *)
Lemma visit_node_returns d f :
  int_readable (duration_text d) \/ truthy (time_text f) = true ->
  exists f', visit_node (JDict d) f = Ok f'.
Proof.
  intros H. destruct (is_recipe_dict d) as [[|] Hr].
  - destruct (visit_node_fun d Hr)
      as (g1 & g2 & g3 & g4 & g5 & g6 & E & _ & _ & _ & _ & _ & _ & _ & K & Rd & _).
    destruct (E f) as (_ & _ & _ & _ & _ & _ & V). rewrite V.
    destruct H as [H|H].
    + destruct (Rd H (time_text f)) as [v ->]. cbn [bind]. eauto.
    + rewrite (K _ H). cbn [bind]. eauto.
  - rewrite (visit_node_other _ _ Hr). eauto.
Qed.

(** and the only error of a visit is the one of [int] *)
Lemma visit_node_error d f e :
  visit_node (JDict d) f = Raise e -> e = ValueError.
Proof.
  destruct (is_recipe_dict d) as [[|] Hr].
  - destruct (visit_node_fun d Hr)
      as (g1 & g2 & g3 & g4 & g5 & g6 & E & _ & _ & _ & _ & _ & _ & _ & _ & _ & X).
    destruct (E f) as (_ & _ & _ & _ & _ & _ & V). rewrite V.
    destruct (g3 (time_text f)) as [v|e'] eqn:E3; [discriminate|].
    cbn [bind]. intros [= <-]. apply (X _ _ E3).
  - rewrite (visit_node_other _ _ Hr). discriminate.
Qed.

(** *** The loops visit the nodes in order *)

Lemma filter_dicts l : Forall is_dict (List.filter isinstance_dict l).
Proof. apply Forall_forall. intros x Hx. apply filter_In in Hx. apply Hx. Qed.

(** [candidate_nodes] is the list the source builds *)
Lemma collect_nodes_spec obj : collect_nodes obj = Ok (candidate_nodes obj).
Proof.
  unfold collect_nodes, candidate_nodes.
  destruct obj as [ | b | z | r | s | l | d];
    cbn [isinstance_dict isinstance_list iter bind contains getitem_key];
    try reflexivity.
  destruct (lookup (lit "@graph") d) as [g|]; cbn [bind]; [|reflexivity].
  destruct g; reflexivity.
Qed.

Lemma candidate_nodes_dicts obj : Forall is_dict (candidate_nodes obj).
Proof.
  unfold candidate_nodes. destruct obj as [ | b | z | r | s | l | d]; try constructor.
  - apply filter_dicts.
  - destruct (lookup (lit "@graph") d) as [g|].
    + destruct g; try (repeat constructor). apply filter_dicts.
    + repeat constructor.
Qed.

Lemma visit_candidates_flat cs f :
  foldM visit_candidate cs f
  = foldM visit_node (flat_map candidate_nodes cs) f.
Proof.
  revert f; induction cs as [|obj cs IH]; intros f; [reflexivity|].
  cbn [foldM flat_map]. rewrite foldM_app. unfold visit_candidate at 1.
  rewrite collect_nodes_spec. cbn [bind].
  destruct (foldM visit_node (candidate_nodes obj) f) as [f1|e]; cbn [bind]; auto.
Qed.

Lemma visit_blob_flat raw f :
  visit_blob raw f = foldM visit_node (blob_nodes raw) f.
Proof.
  unfold visit_blob, blob_nodes.
  destruct (json_loads raw) as [data|e]; [|reflexivity].
  destruct data; cbn [isinstance_list iter bind];
    rewrite visit_candidates_flat; cbn [flat_map]; now rewrite ?app_nil_r.
Qed.

Lemma visit_blobs_flat texts f :
  foldM visit_blob texts f = foldM visit_node (ld_nodes texts) f.
Proof.
  revert f; induction texts as [|raw texts IH]; intros f; [reflexivity|].
  unfold ld_nodes in *. cbn [foldM flat_map]. rewrite foldM_app, visit_blob_flat.
  destruct (foldM visit_node (blob_nodes raw) f); cbn [bind]; auto.
Qed.

Lemma blob_nodes_dicts raw : Forall is_dict (blob_nodes raw).
Proof.
  unfold blob_nodes. destruct (json_loads raw) as [data|e]; [|constructor].
  destruct data; try apply candidate_nodes_dicts.
  apply Forall_flat_map, Forall_forall. intros obj _. apply candidate_nodes_dicts.
Qed.

Lemma ld_nodes_dicts texts : Forall is_dict (ld_nodes texts).
Proof.
  unfold ld_nodes. apply Forall_flat_map, Forall_forall. intros raw _.
  apply blob_nodes_dicts.
Qed.

Lemma parse_ld_json_flat texts :
  parse_ld_json texts = foldM visit_node (ld_nodes texts) no_fields.
Proof. apply visit_blobs_flat. Qed.

(** the node loop returns when [int] can read the duration of every
    Recipe node *)
Lemma visit_nodes_returns nodes :
  Forall is_dict nodes ->
  (forall d, In (JDict d) (List.filter recipe_node nodes) ->
             int_readable (duration_text d)) ->
  forall f, exists f', foldM visit_node nodes f = Ok f'.
Proof.
  induction 1 as [|n nodes Hn Hd IH]; intros Hr f; [cbn; eauto|].
  destruct n as [ | | | | | | d]; try discriminate.
  cbn [foldM]. cbn [List.filter] in Hr.
  destruct (recipe_node (JDict d)) eqn:Er.
  - destruct (visit_node_returns d f (or_introl (Hr d (or_introl eq_refl))))
      as [f1 ->].
    cbn [bind]. apply IH. intros d' Hin. apply Hr. now right.
  - rewrite visit_node_other by (now rewrite is_recipe_spec, Er).
    cbn [bind]. now apply IH.
Qed.

Lemma visit_nodes_error nodes f e :
  Forall is_dict nodes -> foldM visit_node nodes f = Raise e -> e = ValueError.
Proof.
  intros Hd. revert f. induction Hd as [|n nodes Hn Hd IH]; intros f; [discriminate|].
  destruct n as [ | | | | | | d]; try discriminate.
  cbn [foldM]. destruct (visit_node (JDict d) f) as [f1|e1] eqn:E1; cbn [bind].
  - apply IH.
  - intros [= <-]. apply (visit_node_error _ _ _ E1).
Qed.

Lemma parse_ld_json_returns texts :
  durations_readable texts -> exists f, parse_ld_json texts = Ok f.
Proof.
  intros Hr. rewrite parse_ld_json_flat.
  apply visit_nodes_returns; [apply ld_nodes_dicts|exact Hr].
Qed.

Lemma parse_ld_json_error texts e :
  parse_ld_json texts = Raise e -> e = ValueError.
Proof. rewrite parse_ld_json_flat. apply visit_nodes_error, ld_nodes_dicts. Qed.

(** *** First-wins *)





Section Picks.
Variables (d : list (pystr * json)) (f f' : fields).
Hypothesis Hr : is_recipe (JDict d) = Ok true.
Hypothesis Hv : visit_node (JDict d) f = Ok f'.







End Picks.

End WithRuntime.
End ExtractorFacts.
Export ExtractorFacts.

(** ** Claims about the extractor *)

Section ExtractorClaims.
Context {R : Runtime}.

(** The steps and the image a node offers are what the two helpers
    return. *)
Lemma offer_steps d :
  extract_steps_from_ld (get_or_none (lit "recipeInstructions") d)
  = Ok (steps (offer (JDict d))).
Proof.
  cbn [offer steps].
  now destruct (extract_steps_total (get_or_none (lit "recipeInstructions") d)) as [st ->].
Qed.

Lemma offer_image d :
  extract_image_url_from_ld (get_or_none (lit "image") d)
  = Ok (image_url (offer (JDict d))).
Proof.
  cbn [offer image_url].
  now destruct (extract_image_total (get_or_none (lit "image") d)) as (u & -> & _).
Qed.



(** Claim C9.  A blob that [json.loads] rejects is passed over: its
    turn of the loop raises nothing and leaves the fields as they are,
    and the extractor does with the whole sequence what it does with
    the sequence without that blob. *)
Theorem undecodable_blob_skipped (before after : list pystr) (raw : pystr) (e : exn) :
  json_loads raw = Raise e ->
  parse_ld_json (before ++ raw :: after) = parse_ld_json (before ++ after)
  /\ forall f, visit_blob raw f = Ok f.
Proof.
  intros He.
  assert (Hskip : forall f, visit_blob raw f = Ok f)
    by (intros f; unfold visit_blob; now rewrite He).
  split; [|exact Hskip].
  unfold parse_ld_json. rewrite !foldM_app.
  destruct (foldM visit_blob before no_fields) as [f|e']; [|reflexivity].
  cbn [bind foldM]. now rewrite Hskip.
Qed.

Lemma visit_non_recipes nodes f :
  Forall is_dict nodes ->
  List.filter recipe_node nodes = [] ->
  foldM visit_node nodes f = Ok f.
Proof.
  intros Hd. induction Hd as [|n nodes Hn Hd IH]; [reflexivity|].
  cbn [List.filter]. destruct (recipe_node n) eqn:Er; [discriminate|].
  intros Hnil. cbn [foldM].
  destruct n as [ | | | | | | d]; try discriminate.
  rewrite visit_node_other by (now rewrite is_recipe_spec, Er).
  cbn [bind]. auto.
Qed.

(** Claim C10, amended.  [extract_image_url_from_ld] and
    [extract_steps_from_ld] return on every value, and [parse_ld_json]
    returns on every list of texts in which [int] can read the duration
    of each Recipe node.  Without a Recipe node every field keeps its
    default: no value, or the empty sequence.  A candidate that is
    neither an object nor a list, a list member that is not an object,
    an ingredients value that is not a list, an instructions value that
    is neither a list nor an object, a step that is neither a string nor
    an object, and an image of any other shape contribute nothing.  The
    name, the duration and the yield are different: whatever is there
    and is not [None] is turned into text with [str]. *)
Theorem parse_ld_json_tolerates_shapes :
  (forall ld_texts, durations_readable ld_texts ->
                    exists f, parse_ld_json ld_texts = Ok f)
  /\ (forall obj, exists u, extract_image_url_from_ld obj = Ok u)
  /\ (forall obj, exists st, extract_steps_from_ld obj = Ok st)
  /\ (forall ld_texts, recipe_nodes ld_texts = [] ->
        parse_ld_json ld_texts = Ok (Fields JNone [] JNone JNone [] JNone))
  /\ (forall obj f, isinstance_dict obj = false -> isinstance_list obj = false ->
        visit_candidate obj f = Ok f)
  /\ (forall members f,
        visit_candidate (JList members) f
        = foldM visit_node (List.filter isinstance_dict members) f)
  /\ (forall d f, isinstance_list (get_or_none (lit "recipeIngredient") d) = false ->
        fill_ingredients (JDict d) f = Ok f)
  /\ (forall obj, isinstance_list obj = false -> isinstance_dict obj = false ->
        extract_steps_from_ld obj = Ok [])
  /\ (forall it acc, isinstance_str it = false -> isinstance_dict it = false ->
        pick_item it acc = Ok acc)
  /\ (forall obj, isinstance_str obj = false -> isinstance_list obj = false ->
        isinstance_dict obj = false -> extract_image_url_from_ld obj = Ok JNone)
  /\ (forall o0 rest, isinstance_str o0 = false -> isinstance_dict o0 = false ->
        extract_image_url_from_ld (JList (o0 :: rest)) = Ok JNone)
  /\ (forall x, is_None x = false -> ensure_str x = JStr (strip (py_str x)))
  /\ (forall d f, truthy (title f) = false ->
        fill_title (JDict d) f
        = Ok (with_title (ensure_str (get_or_none (lit "name") d)) f))
  /\ (forall d, duration_source (JDict d)
                = Ok (if truthy (ensure_str (get_or_none (lit "totalTime") d))
                      then ensure_str (get_or_none (lit "totalTime") d)
                      else ensure_str (get_or_none (lit "cookTime") d)))
  /\ (forall d f, truthy (yield_info f) = false ->
        fill_yield (JDict d) f
        = Ok (with_yield_info
                (match get_or_none (lit "recipeYield") d with
                 | JList (y0 :: _) => ensure_str y0
                 | y => ensure_str y
                 end) f)).
Proof.
  split; [apply parse_ld_json_returns|].
  split; [intros obj; destruct (extract_image_total obj) as (u & Hu & _); eauto|].
  split; [apply extract_steps_total|].
  split.
  { intros texts Hnil. rewrite parse_ld_json_flat.
    apply visit_non_recipes; [apply ld_nodes_dicts|exact Hnil]. }
  split.
  { intros obj f Hd Hl. unfold visit_candidate, collect_nodes. now rewrite Hd, Hl. }
  split; [reflexivity|].
  split.
  { intros d f Hl. unfold fill_ingredients.
    destruct (nonempty (ingredients f)); [reflexivity|].
    cbn [dict_get bind]. now rewrite Hl. }
  split.
  { intros obj Hl Hd. unfold extract_steps_from_ld. now rewrite Hl, Hd. }
  split.
  { intros it acc Hs Hd. unfold pick_item. now rewrite Hs, Hd. }
  split.
  { intros obj Hs Hl Hd. unfold extract_image_url_from_ld.
    destruct (truthy obj); cbn [negb]; [|reflexivity].
    now rewrite Hs, Hl, Hd. }
  split.
  { intros o0 rest Hs Hd. unfold extract_image_url_from_ld.
    cbn [truthy nonempty negb isinstance_str isinstance_list isinstance_dict andb
         getitem0 bind].
    now rewrite Hs, Hd. }
  split.
  { intros x Hx. unfold ensure_str. now rewrite Hx. }
  split.
  { intros d f Hf. unfold fill_title. now rewrite Hf. }
  split.
  { intros d. apply duration_source_eq. }
  intros d f Hf. unfold fill_yield. rewrite Hf. cbn [dict_get bind].
  destruct (get_or_none (lit "recipeYield") d) as [ | b | z | r | s | l | d'];
    cbn [isinstance_list andb]; try reflexivity.
  destruct l; reflexivity.
Qed.

End ExtractorClaims.

(** ** Durations of the form [PT<H>H<M>M] *)

Module PTFacts.
Section WithRuntime.
Context {R : Runtime}.
Hypothesis Hascii : ascii_digits.

Local Open Scope N_scope.

Lemma digit_val_ascii c : c < 128 -> digit_val c = ascii_digit c.
Proof. apply Hascii. Qed.

Lemma is_digit_ascii c : c < 128 -> is_digit c = ((48 <=? c) && (c <=? 57)).
Proof.
  intros H. unfold is_digit. rewrite (Hascii c H). unfold ascii_digit.
  now destruct ((48 <=? c) && (c <=? 57)).
Qed.

Ltac eval_digit :=
  match goal with
  | |- context [ascii_digit ?c] =>
      let v := eval vm_compute in (ascii_digit c) in
      change (ascii_digit c) with v
  end.

Lemma uint_chars_digits d : forallb is_digit (uint_chars d) = true.
Proof.
  induction d; cbn [uint_chars forallb]; auto;
    rewrite IHd, is_digit_ascii by reflexivity; reflexivity.
Qed.

Lemma uint_chars_fold d acc :
  fold_left digit_step (uint_chars d) (Npos acc) = Npos (Pos.of_uint_acc d acc).
Proof.
  revert acc; induction d; intros acc; cbn [uint_chars fold_left Pos.of_uint_acc];
    auto; unfold digit_step at 2; rewrite digit_val_ascii by reflexivity;
    eval_digit; rewrite <- IHd; f_equal; lia.
Qed.

Lemma uint_chars_int d : fold_left digit_step (uint_chars d) 0 = Pos.of_uint d.
Proof.
  induction d; cbn [uint_chars fold_left Pos.of_uint]; auto;
    unfold digit_step at 2; rewrite digit_val_ascii by reflexivity;
    eval_digit; cbn [N.mul N.add];
    solve [exact IHd | apply uint_chars_fold].
Qed.

Lemma dec_digits n : forallb is_digit (dec n) = true.
Proof. apply uint_chars_digits. Qed.

Lemma dec_nonempty n : nonempty (dec n) = true.
Proof.
  unfold dec. destruct n as [|p]; [reflexivity|]. cbn [N.to_uint].
  pose proof (DecimalPos.Unsigned.to_uint_nonnil p) as H.
  destruct (Pos.to_uint p); [congruence|reflexivity..].
Qed.

(** [int(str(n)) == n], for [n] within the limit *)
Lemma py_int_dec n :
  (length (dec n) <= int_max_str_digits)%nat -> py_int (dec n) = Ok n.
Proof.
  intros Hlen. rewrite py_int_unfold by (apply dec_nonempty || apply dec_digits || exact Hlen).
  unfold dec. rewrite uint_chars_int. f_equal. apply DecimalN.Unsigned.of_to.
Qed.

(** and when [int(str(n))] returns at all, it returns [n] *)
Lemma py_int_dec_inv n v : py_int (dec n) = Ok v -> v = n.
Proof.
  intros Hv. destruct (Nat.leb (length (dec n)) int_max_str_digits) eqn:E.
  - apply Nat.leb_le in E. rewrite (py_int_dec n E) in Hv. congruence.
  - apply Nat.leb_gt in E. rewrite (py_int_long _ E) in Hv. discriminate.
Qed.

(** *** What the two patterns find in [PT<H>H<M>M] *)

Lemma digits_then_none stop ds rest :
  is_digit stop = false ->
  forallb is_digit ds = true ->
  match rest with
  | [] => True
  | x :: _ => is_digit x = false /\ x <> stop
  end ->
  digits_then stop (ds ++ rest) = None.
Proof.
  intros Hs Hds Hr. induction ds as [|c ds IH]; cbn [app].
  - destruct rest as [|x rest]; cbn [digits_then]; [reflexivity|].
    now rewrite (proj1 Hr).
  - cbn [forallb] in Hds. apply andb_true_iff in Hds as [Hc Hds].
    cbn [digits_then]. rewrite Hc, (IH Hds).
    destruct ds as [|c' ds]; cbn [app].
    + destruct rest as [|x rest]; [reflexivity|].
      unfold char_eqb. destruct (N.eqb_spec x stop); [tauto|reflexivity].
    + cbn [forallb] in Hds. apply andb_true_iff in Hds as [Hc' _].
      unfold char_eqb. destruct (N.eqb_spec c' stop); [congruence|reflexivity].
Qed.

Lemma digits_then_some stop ds rest :
  is_digit stop = false ->
  nonempty ds = true -> forallb is_digit ds = true ->
  digits_then stop (ds ++ stop :: rest) = Some ds.
Proof.
  intros Hs Hne Hds. induction ds as [|c ds IH]; [discriminate|].
  cbn [forallb] in Hds. apply andb_true_iff in Hds as [Hc Hds].
  cbn [app digits_then]. rewrite Hc.
  destruct ds as [|c' ds].
  - cbn [app digits_then]. rewrite Hs. unfold char_eqb. now rewrite N.eqb_refl.
  - now rewrite (IH eq_refl Hds).
Qed.

Lemma search_minutes_skip ds x rest :
  forallb is_digit ds = true -> is_digit x = false -> x <> 77 ->
  search_minutes (ds ++ x :: rest) = search_minutes rest.
Proof.
  intros Hds Hx Hne. induction ds as [|c ds IH].
  - cbn [app search_minutes digits_then]. now rewrite Hx.
  - cbn [app search_minutes].
    change (c :: ds ++ x :: rest) with ((c :: ds) ++ x :: rest).
    rewrite digits_then_none; auto.
    + apply IH. cbn [forallb] in Hds. now apply andb_true_iff in Hds.
    + apply is_digit_ascii. reflexivity.
Qed.

Lemma search_minutes_some ds rest :
  nonempty ds = true -> forallb is_digit ds = true ->
  search_minutes (ds ++ 77 :: rest) = Some ds.
Proof.
  intros Hne Hds. destruct ds as [|c ds]; [discriminate|].
  cbn [app search_minutes].
  change (c :: ds ++ 77 :: rest) with ((c :: ds) ++ 77 :: rest).
  rewrite digits_then_some; auto. apply is_digit_ascii. reflexivity.
Qed.

Lemma search_hours_no_P s :
  Forall (fun c => c <> 80) s -> search_hours s = None.
Proof.
  induction 1 as [|c s Hc Hs IH]; [reflexivity|].
  cbn [search_hours startswith lit List.map list_ascii_of_string].
  unfold char_eqb at 1. change (N_of_ascii "P") with 80.
  destruct (N.eqb_spec 80 c); [congruence|]. cbn [andb]. exact IH.
Qed.

Lemma digits_no_P ds : forallb is_digit ds = true -> Forall (fun c => c <> 80) ds.
Proof.
  intros H. apply Forall_forall. intros c Hc Heq. subst c.
  rewrite forallb_forall in H. specialize (H _ Hc).
  rewrite is_digit_ascii in H by reflexivity. discriminate.
Qed.

Lemma search_hours_PT x :
  search_hours (80 :: 84 :: x)
  = match digits_then 72 x with
    | Some g => Some g
    | None => search_hours (84 :: x)
    end.
Proof. reflexivity. Qed.

Lemma hours_found h m :
  search_hours (pt_text h m)
  = match h with Some h => Some (dec h) | None => None end.
Proof.
  unfold pt_text. destruct h as [h|].
  - change (lit "PT" ++ (dec h ++ lit "H") ++ _)
      with (80 :: 84 :: (dec h ++ lit "H") ++ match m with Some m => dec m ++ lit "M" | None => [] end).
    rewrite search_hours_PT, <- app_assoc. change (lit "H" ++ ?x) with (72 :: x).
    rewrite digits_then_some; auto using dec_nonempty, dec_digits.
    apply is_digit_ascii; reflexivity.
  - destruct m as [m|].
    + change (lit "PT" ++ [] ++ dec m ++ lit "M") with (80 :: 84 :: dec m ++ [77]).
      rewrite search_hours_PT, digits_then_none; auto using dec_digits.
      * apply search_hours_no_P. constructor; [discriminate|].
        apply Forall_app; split; [apply digits_no_P, dec_digits|].
        repeat constructor; discriminate.
      * apply is_digit_ascii; reflexivity.
      * split; [apply is_digit_ascii; reflexivity|discriminate].
    + reflexivity.
Qed.

Lemma minutes_found h m :
  search_minutes (pt_text h m)
  = match m with Some m => Some (dec m) | None => None end.
Proof.
  assert (Hpt : pt_text h m
                = 80 :: 84 :: match h with Some h => dec h ++ lit "H" | None => [] end
                              ++ match m with Some m => dec m ++ lit "M" | None => [] end)
    by reflexivity.
  rewrite Hpt. clear Hpt.
  assert (Hskip : forall x rest, x < 128 -> ascii_digit x = None -> x <> 77 ->
                                 search_minutes (x :: rest) = search_minutes rest).
  { intros x rest Hx Hd Hne. apply (search_minutes_skip [] x rest); auto.
    unfold is_digit. now rewrite digit_val_ascii, Hd by exact Hx. }
  rewrite !Hskip by (reflexivity || discriminate).
  destruct h as [h|].
  - rewrite <- app_assoc. change (lit "H" ++ ?x) with (72 :: x).
    rewrite search_minutes_skip;
      try discriminate; auto using dec_digits; try (apply is_digit_ascii; reflexivity).
    destruct m as [m|]; [|reflexivity].
    apply search_minutes_some; auto using dec_nonempty, dec_digits.
  - cbn [app]. destruct m as [m|]; [|reflexivity].
    apply search_minutes_some; auto using dec_nonempty, dec_digits.
Qed.

(** the components of [PT<H>H<M>M] are within the limit of [int] *)
Lemma pt_text_readable h m :
  (forall n, h = Some n -> (length (dec n) <= int_max_str_digits)%nat) ->
  (forall n, m = Some n -> (length (dec n) <= int_max_str_digits)%nat) ->
  int_readable (JStr (pt_text h m)).
Proof.
  intros Hh Hm _ g. rewrite hours_found, minutes_found.
  intros [E|E].
  - destruct h as [n|]; [|discriminate]. injection E as <-. now apply Hh.
  - destruct m as [n|]; [|discriminate]. injection E as <-. now apply Hm.
Qed.

Lemma iso8601_pt_text h m r :
  iso8601_duration_to_text (JStr (pt_text h m)) = Ok r ->
  r = format_duration (component h) (component m).
Proof.
  rewrite iso8601_PT_eq by (unfold pt_text; apply startswith_app).
  rewrite hours_found, minutes_found.
  assert (Hc : forall c v,
             group_int (match c with Some n => Some (dec n) | None => None end) = Ok v ->
             v = component c).
  { intros [n|] v; cbn [group_int component]; [apply py_int_dec_inv|congruence]. }
  destruct (group_int match h with Some n => Some (dec n) | None => None end)
    as [vh|] eqn:Eh; [|discriminate].
  destruct (group_int match m with Some n => Some (dec n) | None => None end)
    as [vm|] eqn:Em; [|discriminate].
  cbn [bind]. intros [= <-]. now rewrite (Hc _ _ Eh), (Hc _ _ Em).
Qed.

End WithRuntime.
End PTFacts.
Export PTFacts.

Section DurationClaim.
Context {R : Runtime}.
Hypothesis Hascii : ascii_digits.

Local Open Scope N_scope.

Lemma nonempty_app_l {A} (a b : list A) : nonempty a = true -> nonempty (a ++ b) = true.
Proof. destruct a; [discriminate|reflexivity]. Qed.

(** [iso8601_duration_to_text(t) or t] *)
Lemma duration_or_raw h m t :
  (if truthy (format_duration h m) then format_duration h m else JStr t)
  = if (h =? 0) && (m =? 0) then JStr t else format_duration h m.
Proof.
  unfold format_duration.
  destruct (h =? 0), (m =? 0); cbn [andb negb truthy]; try reflexivity;
    now rewrite nonempty_app_l by apply dec_nonempty.
Qed.

(** the duration text of a node: [totalTime] as text, else [cookTime] *)
Lemma duration_text_of d t :
  ensure_str (get_or_none (lit "totalTime") d) = JStr t
  \/ (truthy (ensure_str (get_or_none (lit "totalTime") d)) = false
      /\ ensure_str (get_or_none (lit "cookTime") d) = JStr t) ->
  nonempty t = true ->
  duration_text d = JStr t.
Proof.
  intros [E|[E1 E2]] Ht; unfold duration_text.
  - rewrite E. cbn [truthy]. now rewrite Ht.
  - now rewrite E1.
Qed.

(** the time a Recipe node sets when none is set yet *)
Lemma fill_time_value d cur t f :
  is_recipe (JDict d) = Ok true ->
  truthy (time_text cur) = false ->
  duration_text d = JStr t ->
  nonempty t = true ->
  visit_node (JDict d) cur = Ok f ->
  exists r, iso8601_duration_to_text (JStr t) = Ok r
            /\ time_text f = if truthy r then r else JStr t.
Proof.
  intros Hr Hc Hd Ht Hv.
  destruct (visit_node_recipe d cur f Hr Hv)
    as (f1 & f2 & f3 & f4 & f5 & f6 & _ & _ & H3 & _ & _ & _ & ->).
  cbn [time_text]. unfold fill_time in H3.
  rewrite Hc, duration_source_eq, Hd in H3. cbn [bind truthy] in H3. rewrite Ht in H3.
  destruct (iso8601_duration_to_text (JStr t)) as [r|e]; [|discriminate].
  cbn [bind] in H3. exists r. split; [reflexivity|].
  unfold or_else in H3. destruct (truthy r); cbn [bind] in H3; now injection H3 as <-.
Qed.

(** Claim C3, amended.  At a Recipe node whose duration text (totalTime
    as text, else cookTime) is [t], with the time field not yet set.
    The visit returns when [int] can read the digit runs of [t], as it
    can when [t] is [PT<H>H<M>M] with components within the limit of
    [int].  Whenever the visit returns: hours and minutes both present
    and positive give "H 小時 M 分鐘"; hours alone give "H 小時"; minutes
    alone give "M 分鐘"; with both components zero or absent the
    conversion yields nothing and the field takes the raw text [t]; a
    non-empty text that does not start with [PT] is taken unchanged.  In
    general a text that starts with [PT] is converted from the hours and
    minutes the two patterns find in it, and kept raw when both are
    zero. *)
Theorem duration_time_field (d : list (pystr * json)) (cur : fields) (t : pystr) :
  is_recipe (JDict d) = Ok true ->
  truthy (time_text cur) = false ->
  ensure_str (get_or_none (lit "totalTime") d) = JStr t
  \/ (truthy (ensure_str (get_or_none (lit "totalTime") d)) = false
      /\ ensure_str (get_or_none (lit "cookTime") d) = JStr t) ->
  nonempty t = true ->
  (int_readable (JStr t) -> exists f, visit_node (JDict d) cur = Ok f)
  /\ (forall h m,
        t = pt_text h m ->
        (forall n, h = Some n -> (length (dec n) <= int_max_str_digits)%nat) ->
        (forall n, m = Some n -> (length (dec n) <= int_max_str_digits)%nat) ->
        exists f, visit_node (JDict d) cur = Ok f)
  /\ forall f,
       visit_node (JDict d) cur = Ok f ->
       (forall h m, 0 < h -> 0 < m -> t = pt_text (Some h) (Some m) ->
          time_text f
          = JStr (dec h ++ hours_text ++ lit " " ++ dec m ++ minutes_text))
       /\ (forall h m, 0 < h -> component m = 0 -> t = pt_text (Some h) m ->
             time_text f = JStr (dec h ++ hours_text))
       /\ (forall h m, component h = 0 -> 0 < m -> t = pt_text h (Some m) ->
             time_text f = JStr (dec m ++ minutes_text))
       /\ (forall h m, component h = 0 -> component m = 0 -> t = pt_text h m ->
             time_text f = JStr t)
       /\ (startswith (lit "PT") t = false -> time_text f = JStr t)
       /\ (forall h m, startswith (lit "PT") t = true ->
             group_int (search_hours t) = Ok h ->
             group_int (search_minutes t) = Ok m ->
             time_text f
             = if (h =? 0) && (m =? 0) then JStr t else format_duration h m).
Proof.
  intros Hr Hc Hsrc Ht.
  pose proof (duration_text_of d t Hsrc Ht) as Hd.
  assert (Hret : int_readable (JStr t) -> exists f, visit_node (JDict d) cur = Ok f).
  { intros Hread. apply visit_node_returns. left. now rewrite Hd. }
  split; [exact Hret|]. split.
  { intros h m -> Hh Hm. apply Hret. now apply (pt_text_readable Hascii). }
  intros f Hv.
  destruct (fill_time_value d cur t f Hr Hc Hd Ht Hv) as (r & Hiso & ->).
  assert (Hpt : forall h m, t = pt_text h m ->
            (if truthy r then r else JStr t)
            = if (component h =? 0) && (component m =? 0) then JStr t
              else format_duration (component h) (component m)).
  { intros h m ->. rewrite (iso8601_pt_text Hascii h m r Hiso). apply duration_or_raw. }
  repeat split.
  - intros h m Hh Hm E. rewrite (Hpt _ _ E). cbn [component]. unfold format_duration.
    destruct (N.eqb_spec h 0); [lia|]. destruct (N.eqb_spec m 0); [lia|].
    reflexivity.
  - intros h m Hh Hm E. rewrite (Hpt _ _ E). cbn [component]. unfold format_duration.
    rewrite Hm. destruct (N.eqb_spec h 0); [lia|]. reflexivity.
  - intros h m Hh Hm E. rewrite (Hpt _ _ E). cbn [component]. unfold format_duration.
    rewrite Hh. destruct (N.eqb_spec m 0); [lia|]. reflexivity.
  - intros h m Hh Hm E. rewrite (Hpt _ _ E), Hh, Hm. reflexivity.
  - intros Hno. rewrite (iso8601_other _ Hno), Ht in Hiso. injection Hiso as <-.
    cbn [truthy]. now rewrite Ht.
  - intros h m Hpre Hh Hm. rewrite (iso8601_PT _ _ _ Hpre Hh Hm) in Hiso.
    injection Hiso as <-. apply duration_or_raw.
Qed.

End DurationClaim.

(** ** Remote identifiers *)

Module ReplaceFacts.

Local Open Scope N_scope.

Lemma replace_from_skip old new a s :
  replace_from old new (length a) (a ++ s) = replace_from old new 0 s.
Proof.
  induction a as [|c a IH]; [reflexivity|].
  cbn [length app replace_from]. exact IH.
Qed.

(** an occurrence at the very start is replaced, and the scan goes on
    behind it *)
Lemma replace_prefix old new s :
  nonempty old = true ->
  replace old new (old ++ s) = new ++ replace old new s.
Proof.
  destruct old as [|c o]; [discriminate|]. intros _.
  unfold replace. cbn [app replace_from].
  change (c :: o ++ s) with ((c :: o) ++ s). rewrite startswith_app.
  cbn [length Nat.pred]. now rewrite replace_from_skip.
Qed.

Lemma startswith_In p s c : startswith p s = true -> In c p -> In c s.
Proof.
  intros H. apply startswith_inv in H as [r ->]. intros Hc.
  apply in_or_app. now left.
Qed.

(** a text that lacks one character of [old] holds no occurrence of it *)
Lemma replace_absent old new c s :
  In c old -> ~ In c s -> replace old new s = s.
Proof.
  intros Hc. destruct old as [|o0 old]; [destruct Hc|].
  unfold replace. induction s as [|x s IH]; intros Hs; [reflexivity|].
  cbn [replace_from].
  destruct (startswith (o0 :: old) (x :: s)) eqn:E.
  - exfalso. apply Hs. eapply startswith_In; eauto.
  - f_equal. apply IH. intros Hin. apply Hs. now right.
Qed.

(** replacing a single character is a map *)
Lemma replace_char a b s :
  replace [a] [b] s = List.map (fun c => if N.eqb a c then b else c) s.
Proof.
  unfold replace. induction s as [|x s IH]; [reflexivity|].
  cbn [replace_from startswith length Nat.pred List.map app].
  unfold char_eqb. destruct (N.eqb a x); cbn [andb]; now rewrite IH.
Qed.

Lemma replace_char_gone a b s : a <> b -> ~ In a (replace [a] [b] s).
Proof.
  intros Hab. rewrite replace_char. intros Hin. apply in_map_iff in Hin as (c & Hc & _).
  destruct (N.eqb_spec a c); congruence.
Qed.

End ReplaceFacts.
Export ReplaceFacts.

Section IdentifierClaim.

Local Open Scope N_scope.

Lemma doc_id_text link :
  doc_id (JStr link)
  = Ok (replace (lit "/") (lit "_")
          (replace (lit "http://") [] (replace (lit "https://") [] link))).
Proof. reflexivity. Qed.

Lemma https_not_in_http rest :
  replace (lit "https://") [] (lit "http://" ++ rest)
  = lit "http://" ++ replace (lit "https://") [] rest.
Proof. reflexivity. Qed.

(** Claim C7.  The remote identifier is a function of the link alone:
    two records with the same link get the same identifier.  Links that
    differ only in the scheme, [http://] against [https://], get the same
    identifier; no identifier holds a [/] (code point 47); and for a link
    [https://rest] whose rest holds no [:] (code point 58) the identifier
    is [rest] with every [/] replaced by [_] (code point 95). *)
Theorem doc_id_ignores_scheme :
  (forall rest,
     doc_id (JStr (lit "http://" ++ rest)) = doc_id (JStr (lit "https://" ++ rest)))
  /\ (forall link, exists id, doc_id (JStr link) = Ok id /\ ~ In 47 id)
  /\ (forall rest, ~ In 58 rest ->
        doc_id (JStr (lit "https://" ++ rest))
        = Ok (List.map (fun c => if N.eqb 47 c then 95 else c) rest))
  /\ (forall ok1 ok2 doc1 doc2 w1 w2 id1 id2 w1' w2',
        getitem_key doc1 (lit "link") = getitem_key doc2 (lit "link") ->
        upsert_firestore ok1 doc1 w1 = (Ok id1, w1') ->
        upsert_firestore ok2 doc2 w2 = (Ok id2, w2') ->
        id1 = id2).
Proof.
  split.
  { intros rest. rewrite !doc_id_text, https_not_in_http.
    rewrite (replace_prefix (lit "https://")), (replace_prefix (lit "http://"))
      by reflexivity.
    reflexivity. }
  split.
  { intros link. rewrite doc_id_text. eexists; split; [reflexivity|].
    apply replace_char_gone. discriminate. }
  split.
  { intros rest Hno. rewrite doc_id_text.
    rewrite (replace_prefix (lit "https://")) by reflexivity. cbn [app].
    rewrite (replace_absent (lit "https://") [] 58 rest),
            (replace_absent (lit "http://") [] 58 rest);
      auto; try (cbn; tauto).
    f_equal. apply (replace_char 47 95). }
  intros ok1 ok2 doc1 doc2 w1 w2 id1 id2 w1' w2' Hlink H1 H2.
  unfold upsert_firestore, io_bind, lift in H1, H2.
  destruct (contains (lit "link") doc1) as [[|]|]; cbn [negb] in H1; try discriminate.
  destruct (contains (lit "link") doc2) as [[|]|]; cbn [negb] in H2; try discriminate.
  rewrite <- Hlink in H2.
  destruct (getitem_key doc1 (lit "link")) as [link|]; try discriminate.
  destruct (doc_id link) as [id|]; try discriminate.
  destruct (db w1), ok1; try discriminate.
  destruct (db w2), ok2; try discriminate.
  congruence.
Qed.

End IdentifierClaim.

(** ** Link discovery *)

Module LinkFacts.

Lemma filter_comm {A} (p q : A -> bool) l :
  List.filter p (List.filter q l) = List.filter q (List.filter p l).
Proof.
  induction l as [|a l IH]; [reflexivity|]. cbn [List.filter].
  destruct (p a) eqn:Ep, (q a) eqn:Eq; cbn [List.filter];
    rewrite ?Ep, ?Eq, IH; reflexivity.
Qed.

Lemma filter_without (p : pystr -> bool) x l :
  p x = false ->
  List.filter p (List.filter (fun y => negb (str_eqb x y)) l) = List.filter p l.
Proof.
  intros Ep. induction l as [|y l IH]; [reflexivity|].
  cbn [List.filter]. destruct (str_eqb_spec x y) as [<-|Hne]; cbn [negb List.filter].
  - now rewrite Ep.
  - now rewrite IH.
Qed.

Lemma first_seen_filter (p : pystr -> bool) l :
  first_seen (List.filter p l) = List.filter p (first_seen l).
Proof.
  induction l as [|x l IH]; [reflexivity|].
  cbn [first_seen List.filter]. destruct (p x) eqn:Ep.
  - cbn [first_seen]. now rewrite IH, filter_comm.
  - now rewrite IH, filter_without.
Qed.

Lemma first_seen_NoDup l : NoDup (first_seen l).
Proof.
  induction l as [|x l IH]; [constructor|]. cbn [first_seen].
  constructor.
  - intros Hin. apply filter_In in Hin as [_ Hx]. now rewrite str_eqb_refl in Hx.
  - now apply NoDup_filter.
Qed.

Lemma first_seen_In l x : In x (first_seen l) <-> In x l.
Proof.
  induction l as [|y l IH]; [reflexivity|]. cbn [first_seen In].
  rewrite filter_In, IH. destruct (str_eqb_spec y x) as [->|Hne]; cbn [negb].
  - tauto.
  - intuition congruence.
Qed.

Lemma str_eqb_sym a b : str_eqb a b = str_eqb b a.
Proof. destruct (str_eqb_spec a b), (str_eqb_spec b a); congruence. Qed.

Lemma filter_new_key keys x l :
  List.filter (fun k => negb (existsb (str_eqb k) (keys ++ [x]))) l
  = List.filter (fun y => negb (str_eqb x y))
      (List.filter (fun k => negb (existsb (str_eqb k) keys)) l).
Proof.
  induction l as [|y l IH]; [reflexivity|].
  cbn [List.filter]. rewrite existsb_app. cbn [existsb]. rewrite orb_false_r.
  destruct (existsb (str_eqb y) keys); cbn [orb negb List.filter]; [exact IH|].
  rewrite (str_eqb_sym x y). destruct (str_eqb y x); cbn [negb]; now rewrite IH.
Qed.

(** the key loop of [dict.fromkeys], from any set of keys already there *)
Lemma fromkeys_from keys l :
  fold_left
    (fun keys k => if existsb (str_eqb k) keys then keys else keys ++ [k]) l keys
  = keys ++ first_seen (List.filter (fun k => negb (existsb (str_eqb k) keys)) l).
Proof.
  revert keys; induction l as [|x l IH]; intros keys.
  - cbn. now rewrite app_nil_r.
  - cbn [fold_left List.filter]. destruct (existsb (str_eqb x) keys) eqn:Ex; cbn [negb].
    + apply IH.
    + rewrite IH. cbn [first_seen]. rewrite <- app_assoc. cbn [app]. do 2 f_equal.
      now rewrite <- first_seen_filter, filter_new_key.
Qed.

Lemma fromkeys_first_seen l : fromkeys l = first_seen l.
Proof.
  unfold fromkeys. rewrite fromkeys_from. cbn [app existsb negb].
  f_equal. induction l as [|x l IH]; [reflexivity|]. cbn [List.filter]. now rewrite IH.
Qed.

Lemma matching_links_flat {R : Runtime} anchors :
  matching_links anchors = flat_map anchor_link anchors.
Proof.
  unfold matching_links.
  enough (H : forall acc,
             fold_left
               (fun links href =>
                  match href with
                  | Some h =>
                      if nonempty h && fullmatch_recipe h
                      then links ++ [urljoin_icook h] else links
                  | None => links
                  end) anchors acc
             = acc ++ flat_map anchor_link anchors) by apply (H []).
  induction anchors as [|a anchors IH]; intros acc.
  - cbn. now rewrite app_nil_r.
  - cbn [fold_left flat_map]. rewrite IH. unfold anchor_link at 2.
    destruct a as [h|]; [|reflexivity].
    destruct (nonempty h && fullmatch_recipe h); [|reflexivity].
    now rewrite <- app_assoc.
Qed.

Lemma fullmatch_recipe_inv {R : Runtime} h :
  fullmatch_recipe h = true ->
  exists ds, h = lit "/recipes/" ++ ds /\ nonempty ds = true
             /\ forallb is_digit ds = true.
Proof.
  unfold fullmatch_recipe. intros H.
  apply andb_true_iff in H as [H Hd]. apply andb_true_iff in H as [Hs Hn].
  apply startswith_inv in Hs as [ds ->]. exists ds.
  change (skipn 9 (lit "/recipes/" ++ ds)) with ds in *. auto.
Qed.

End LinkFacts.
Export LinkFacts.

Section LinkClaim.
Context {R : Runtime}.

(** Claim C8.  The links visited for a keyword are the first 20 of the
    first-seen subsequence of the links of the anchors whose [href]
    matches [/recipes/\d+]: at most 20, without repetition, a prefix of
    that subsequence (all of it when fewer than 20), which itself holds
    each matching link once. *)
Theorem links_first_seen_capped (anchors : list (option pystr)) :
  discover_links anchors = firstn 20 (first_seen (flat_map anchor_link anchors))
  /\ length (discover_links anchors) <= 20
  /\ NoDup (discover_links anchors)
  /\ (exists rest,
        first_seen (flat_map anchor_link anchors) = discover_links anchors ++ rest
        /\ (length (discover_links anchors) < 20 -> rest = []))
  /\ (forall u, In u (first_seen (flat_map anchor_link anchors)) <->
                In u (flat_map anchor_link anchors))
  /\ NoDup (first_seen (flat_map anchor_link anchors))
  /\ (forall u, In u (flat_map anchor_link anchors) <->
        exists ds, In (Some (lit "/recipes/" ++ ds)) anchors
                   /\ nonempty ds = true /\ forallb is_digit ds = true
                   /\ u = lit "https://icook.tw/recipes/" ++ ds).
Proof.
  assert (E : discover_links anchors
              = firstn 20 (first_seen (flat_map anchor_link anchors))).
  { unfold discover_links. now rewrite fromkeys_first_seen, matching_links_flat. }
  rewrite E. split; [reflexivity|].
  split; [apply firstn_le_length|].
  split.
  { set (l := first_seen _). pose proof (first_seen_NoDup (flat_map anchor_link anchors)) as Hn.
    fold l in Hn. rewrite <- (firstn_skipn 20 l) in Hn. now apply NoDup_app_remove_r in Hn. }
  split.
  { exists (skipn 20 (first_seen (flat_map anchor_link anchors))). split.
    - symmetry. apply firstn_skipn.
    - intros Hlt. apply skipn_all2.
      rewrite length_firstn in Hlt. lia. }
  split; [intros u; apply first_seen_In|].
  split; [apply first_seen_NoDup|].
  intros u. rewrite in_flat_map. split.
  - intros ([h|] & Hin & Hu); cbn [anchor_link] in Hu; [|destruct Hu].
    destruct (nonempty h && fullmatch_recipe h) eqn:Em; [|destruct Hu].
    apply andb_true_iff in Em as [_ Hm].
    destruct (fullmatch_recipe_inv h Hm) as (ds & -> & Hne & Hd).
    destruct Hu as [<-|[]]. exists ds. repeat split; auto.
  - intros (ds & Hin & Hne & Hd & ->). exists (Some (lit "/recipes/" ++ ds)).
    split; [exact Hin|]. cbn [anchor_link].
    assert (Hm : fullmatch_recipe (lit "/recipes/" ++ ds) = true).
    { unfold fullmatch_recipe. rewrite startswith_app.
      change (skipn 9 (lit "/recipes/" ++ ds)) with ds. now rewrite Hne, Hd. }
    rewrite Hm. now left.
Qed.

End LinkClaim.

(** ** The crawl and what it persists *)

Module CrawlFacts.
Section WithRuntime.
Context {R : Runtime}.

Lemma crawled_refl w : crawled w w.
Proof. unfold crawled. auto. Qed.

Lemma crawled_trans w1 w2 w3 : crawled w1 w2 -> crawled w2 w3 -> crawled w1 w3.
Proof.
  unfold crawled. intros (S1 & H1 & D1) (S2 & H2 & D2).
  repeat split; try congruence.
  intros id doc H3. destruct (D2 _ _ H3) as [H|H]; auto.
Qed.

Lemma extended_refl saved : extended saved saved.
Proof. exists []. now rewrite app_nil_r. Qed.

Lemma extended_trans a b c : extended a b -> extended b c -> extended a c.
Proof.
  intros (n1 & -> & F1) (n2 & -> & F2). exists (n1 ++ n2).
  rewrite app_assoc. split; [reflexivity|]. apply Forall_app; auto.
Qed.

Lemma extended_all saved saved' :
  Forall has_ingredients saved -> extended saved saved' ->
  Forall has_ingredients saved'.
Proof. intros F (n & -> & Fn). apply Forall_app; auto. Qed.

(** a loop whose turns all respect an invariant respects it *)
Lemma for_each_inv {A S} (Rs : S -> S -> Prop) (body : A -> S -> io S) :
  (forall s, Rs s s) ->
  (forall a b c, Rs a b -> Rs b c -> Rs a c) ->
  (forall a s w, crawled w (snd (body a s w))
                 /\ forall s', fst (body a s w) = Ok s' -> Rs s s') ->
  forall l s w, crawled w (snd (for_each body l s w))
                /\ forall s', fst (for_each body l s w) = Ok s' -> Rs s s'.
Proof.
  intros Hrefl Htrans Hbody l; induction l as [|a l IH]; intros s w.
  - cbn. split; [apply crawled_refl|]. intros s' [= <-]. apply Hrefl.
  - cbn [for_each]. unfold io_bind. destruct (Hbody a s w) as [Hw Hs].
    destruct (body a s w) as [[s1|e] w1]; cbn [fst snd] in *.
    + destruct (IH s1 w1) as [Hw' Hs']. split.
      * eapply crawled_trans; eauto.
      * intros s' E. eapply Htrans; eauto.
    + split; [exact Hw|]. discriminate.
Qed.

Lemma store_set_In id doc s k v :
  In (k, v) (store_set id doc s) -> In (k, v) s \/ v = doc.
Proof.
  induction s as [|[k0 v0] s IH]; cbn [store_set].
  - intros [[= <- <-]|[]]. now right.
  - destruct (str_eqb k0 id).
    + intros [[= <- <-]|H]; [now right|left; now right].
    + intros [E|H]; [left; now left|]. destruct (IH H); [left; now right|now right].
Qed.

Lemma make_doc_ingredients url f :
  nonempty (ingredients f) = true -> has_ingredients (make_doc url f).
Proof.
  intros H. destruct (ingredients f) as [|x xs] eqn:E; [discriminate|].
  exists (JStr x), (List.map JStr xs). cbn. now rewrite E.
Qed.

Lemma upsert_crawled ok doc w :
  has_ingredients doc -> crawled w (snd (upsert_firestore ok doc w)).
Proof.
  intros Hd. unfold upsert_firestore, io_bind, lift.
  destruct (contains (lit "link") doc) as [[|]|]; cbn [negb snd]; try apply crawled_refl.
  destruct (getitem_key doc (lit "link")) as [link|]; cbn [snd]; try apply crawled_refl.
  destruct (doc_id link) as [id|]; cbn [snd]; try apply crawled_refl.
  destruct (db w) as [recipes|] eqn:Edb; [|apply crawled_refl].
  destruct ok; [|apply crawled_refl]. cbn [snd].
  unfold crawled, remote_has. cbn. repeat split; auto.
  intros k v (s & [= <-] & Hin). destruct (store_set_In _ _ _ _ _ Hin) as [H| ->]; eauto.
Qed.

(** one turn of the page loop, effect by effect *)
Lemma scrape_page_eq r kw url saved w :
  scrape_page r kw url saved w
  = if negb (opens (visit r kw url)) then (Ok saved, w)
    else match parse_ld_json (gather_ld_texts (ld_scripts (visit r kw url))) with
         | Raise e => (Raise e, w)
         | Ok parsed =>
             let doc := make_doc url (fallback (visit r kw url) parsed) in
             if nonempty (ingredients (fallback (visit r kw url) parsed))
             then ((_ <- pause (visit r kw url) ;; Ok (saved ++ [doc])),
                   match db w with
                   | Some _ => snd (upsert_firestore (remote_set_ok r kw url) doc w)
                   | None => w
                   end)
             else ((_ <- pause (visit r kw url) ;; Ok saved), w)
         end.
Proof.
  unfold scrape_page. cbv zeta.
  destruct (opens (visit r kw url)); cbn [negb]; [|reflexivity].
  unfold io_bind at 1, lift.
  destruct (parse_ld_json (gather_ld_texts (ld_scripts (visit r kw url))))
    as [parsed|e]; [|reflexivity].
  destruct (nonempty (ingredients (fallback (visit r kw url) parsed))).
  - unfold io_bind, io_ret. destruct (db w).
    + unfold try_except, io_bind, io_ret.
      destruct (upsert_firestore _ _ w) as [[id|e] w1]; cbn [snd];
        now destruct (pause (visit r kw url)).
    + now destruct (pause (visit r kw url)).
  - unfold io_bind, io_ret. now destruct (pause (visit r kw url)).
Qed.

(** one page: it leaves the files alone, stores only records with
    ingredients, and appends only such records *)
Lemma scrape_page_inv r kw url saved w :
  crawled w (snd (scrape_page r kw url saved w))
  /\ forall saved', fst (scrape_page r kw url saved w) = Ok saved' ->
                    extended saved saved'.
Proof.
  rewrite scrape_page_eq.
  destruct (opens (visit r kw url)); cbn [negb].
  2:{ cbn. split; [apply crawled_refl|]. intros ? [= <-]. apply extended_refl. }
  destruct (parse_ld_json (gather_ld_texts (ld_scripts (visit r kw url))))
    as [parsed|e].
  2:{ cbn. split; [apply crawled_refl|discriminate]. }
  cbv zeta. set (f := fallback (visit r kw url) parsed).
  destruct (nonempty (ingredients f)) eqn:Ei.
  2:{ cbn [fst snd]. split; [apply crawled_refl|].
      destruct (pause (visit r kw url)); cbn [bind]; [|discriminate].
      intros ? [= <-]. apply extended_refl. }
  pose proof (make_doc_ingredients url f Ei) as Hdoc.
  cbn [fst snd]. split.
  - destruct (db w); [now apply upsert_crawled|apply crawled_refl].
  - destruct (pause (visit r kw url)); cbn [bind]; [|discriminate].
    intros ? [= <-]. exists [make_doc url f]; auto.
Qed.

Lemma scrape_keyword_inv r kw w :
  crawled w (snd (scrape_keyword r kw w))
  /\ forall docs, fst (scrape_keyword r kw w) = Ok docs -> Forall has_ingredients docs.
Proof.
  unfold scrape_keyword, io_bind at 1, lift.
  destruct (search_anchors r kw) as [anchors|e].
  2:{ cbn. split; [apply crawled_refl|discriminate]. }
  destruct (for_each_inv extended (scrape_page r kw) extended_refl extended_trans)
    with (l := discover_links anchors) (s := @nil json) (w := w) as [Hw Hs].
  - intros url saved w0. apply scrape_page_inv.
  - split; [exact Hw|]. intros docs E. apply (extended_all []); auto.
Qed.

(** the browser session, step by step *)
Lemma crawl_eq r w :
  crawl r w
  = match browser_start r with
    | Raise e => (Raise e, w)
    | Ok _ =>
        match for_each
                (fun kw all_saved =>
                   docs <~ scrape_keyword r kw ;; io_ret (all_saved ++ docs))
                (kws r) [] w with
        | (Ok all_saved, w1) => ((_ <- browser_stop r ;; Ok all_saved), w1)
        | (Raise e, w1) => (Raise e, w1)
        end
    end.
Proof.
  unfold crawl. set (loop := for_each _ (kws r) []).
  unfold io_bind at 1, lift. destruct (browser_start r) as [[]|e]; [|reflexivity].
  unfold io_bind at 1. destruct (loop w) as [[all_saved|e] w1]; [|reflexivity].
  unfold io_bind, io_ret. now destruct (browser_stop r) as [[]|e].
Qed.

Lemma crawl_inv r w :
  crawled w (snd (crawl r w))
  /\ forall all_saved, fst (crawl r w) = Ok all_saved -> Forall has_ingredients all_saved.
Proof.
  rewrite crawl_eq.
  destruct (browser_start r) as [[]|e].
  2:{ cbn. split; [apply crawled_refl|discriminate]. }
  destruct (for_each_inv extended
              (fun kw all_saved => docs <~ scrape_keyword r kw ;; io_ret (all_saved ++ docs))
              extended_refl extended_trans)
    with (l := kws r) (s := @nil json) (w := w) as [Hw Hs].
  - intros kw saved w0. unfold io_bind, io_ret.
    destruct (scrape_keyword_inv r kw w0) as [Hc Hd].
    destruct (scrape_keyword r kw w0) as [[docs|e] w1]; cbn [fst snd] in *.
    + split; [exact Hc|]. intros s' [= <-]. exists docs; auto.
    + split; [exact Hc|discriminate].
  - destruct (for_each _ (kws r) [] w) as [[all|e] w1]; cbn [fst snd] in *.
    + split; [exact Hw|].
      destruct (browser_stop r) as [[]|e]; cbn [bind]; [|discriminate].
      intros docs [= <-]. apply (extended_all []); auto.
    + split; [exact Hw|discriminate].
Qed.

(** [main], once the crawl has returned *)
Lemma main_after_crawl r w all_saved w1 :
  crawl r w = (Ok all_saved, w1) ->
  main r w
  = match list_extend (read_history (history_file w1)) all_saved with
    | Ok history =>
        (Ok all_saved,
         World (write_json (sample_write r) (JList all_saved) (sample_file w1))
               (write_json (history_write r) history (history_file w1))
               (db w1))
    | Raise e =>
        (Raise e,
         World (write_json (sample_write r) (JList all_saved) (sample_file w1))
               (history_file w1) (db w1))
    end.
Proof.
  intros Hc. unfold main, io_bind, io_ret. rewrite Hc. cbn.
  destruct (list_extend (read_history (history_file w1)) all_saved); reflexivity.
Qed.

Lemma main_crawl_raises r w e w1 :
  crawl r w = (Raise e, w1) -> main r w = (Raise e, w1).
Proof. intros Hc. unfold main, io_bind. now rewrite Hc. Qed.

End WithRuntime.
End CrawlFacts.
Export CrawlFacts.

Section PersistenceClaims.
Context {R : Runtime}.


(** Claim C1.  A page whose ingredients list is empty after extraction
    and fallback leaves the world as it was, and the saved list too: the
    turn gives back the list it was given, unless the pause that ends it
    raises.  Over
    a whole run, returning or not: every record found in the remote
    collection afterwards was there before or has ingredients; the
    snapshot file is untouched, broken, or holds only records with
    ingredients; the history file is untouched, broken, or holds the old
    history followed by records with ingredients; and every record of
    the list the run returns has ingredients. *)
Theorem empty_ingredients_never_persisted (r : run) (w : world) :
  (forall kw url saved w0 parsed,
     parse_ld_json (gather_ld_texts (ld_scripts (visit r kw url))) = Ok parsed ->
     ingredients (fallback (visit r kw url) parsed) = [] ->
     scrape_page r kw url saved w0
     = ((if negb (opens (visit r kw url)) then Ok saved
         else _ <- pause (visit r kw url) ;; Ok saved),
        w0))
  /\ (forall id doc, remote_has (snd (main r w)) id doc ->
        remote_has w id doc \/ has_ingredients doc)
  /\ (sample_file (snd (main r w)) = sample_file w
      \/ sample_file (snd (main r w)) = Unparseable
      \/ exists docs, sample_file (snd (main r w)) = Holds (JList docs)
                      /\ Forall has_ingredients docs)
  /\ (history_file (snd (main r w)) = history_file w
      \/ history_file (snd (main r w)) = Unparseable
      \/ exists old docs,
           read_history (history_file w) = JList old
           /\ history_file (snd (main r w)) = Holds (JList (old ++ docs))
           /\ Forall has_ingredients docs)
  /\ (forall all_saved, fst (main r w) = Ok all_saved ->
        Forall has_ingredients all_saved).
Proof.
  split.
  { intros kw url saved w0 parsed Hp He. rewrite scrape_page_eq, Hp, He.
    cbn [nonempty]. now destruct (negb (opens (visit r kw url))). }
  destruct (crawl_inv r w) as [Hc Hi].
  destruct (crawl r w) as [[all_saved|e] wc] eqn:Ec; cbn [fst snd] in *.
  - rewrite (main_after_crawl _ _ _ _ Ec).
    destruct Hc as (Hs & Hh & Hd). rewrite Hs, Hh.
    specialize (Hi _ eq_refl).
    assert (Hsample : forall o,
               write_json o (JList all_saved) (sample_file w) = sample_file w
               \/ write_json o (JList all_saved) (sample_file w) = Unparseable
               \/ exists docs, write_json o (JList all_saved) (sample_file w)
                               = Holds (JList docs) /\ Forall has_ingredients docs).
    { intros [| |]; cbn; eauto. }
    assert (Hhist : forall old o,
               read_history (history_file w) = JList old ->
               write_json o (JList (old ++ all_saved)) (history_file w) = history_file w
               \/ write_json o (JList (old ++ all_saved)) (history_file w) = Unparseable
               \/ exists old' docs,
                    read_history (history_file w) = JList old'
                    /\ write_json o (JList (old ++ all_saved)) (history_file w)
                       = Holds (JList (old' ++ docs))
                    /\ Forall has_ingredients docs).
    { intros old [| |] Er; cbn; eauto 8. }
    destruct (list_extend (read_history (history_file w)) all_saved) as [h|e] eqn:El;
      cbn [fst snd sample_file history_file db].
    + unfold list_extend in El.
      destruct (read_history (history_file w)) as [ | | | | | old | ] eqn:Er;
        try discriminate.
      injection El as <-.
      split; [exact Hd|]. split; [apply Hsample|]. split; [now apply Hhist|].
      intros ? [= <-]. exact Hi.
    + split; [exact Hd|]. split; [apply Hsample|]. split; [now left|]. discriminate.
  - rewrite (main_crawl_raises _ _ _ _ Ec). destruct Hc as (Hs & Hh & Hd).
    cbn [fst snd]. repeat split; auto; discriminate.
Qed.



End PersistenceClaims.

(** ** Trimming *)

Module TrimFacts.
Section WithRuntime.
Context {R : Runtime}.

Local Open Scope N_scope.

Lemma dec_head n : exists c r, dec n = c :: r /\ is_space c = false.
Proof.
  pose proof (dec_nonempty n) as Hne. unfold dec in *.
  destruct (N.to_uint n); cbn [uint_chars] in *; try discriminate; eauto.
Qed.

Lemma trimmed_ends c l init y :
  is_space c = false -> is_space y = false -> l = init ++ [y] -> trimmed (c :: l).
Proof.
  intros Hc Hy ->. cbn [trimmed]. split; [exact Hc|].
  change (c :: init ++ [y]) with ((c :: init) ++ [y]). now rewrite last_last.
Qed.

Lemma format_duration_trimmed h m : trimmed_text (format_duration h m).
Proof.
  unfold format_duration.
  destruct (dec_head h) as (c & r & -> & Hc).
  destruct (dec_head m) as (c' & r' & -> & Hc').
  destruct ((h =? 0) && (m =? 0)); [exact I|].
  destruct (negb (h =? 0) && negb (m =? 0)); [|destruct (negb (h =? 0))];
    cbn [trimmed_text app].
  - apply (trimmed_ends c _ (r ++ hours_text ++ lit " " ++ (c' :: r') ++ [32; 20998]) 37912);
      auto.
    now rewrite <- !app_assoc.
  - apply (trimmed_ends c _ (r ++ [32; 23567]) 26178); auto.
    now rewrite <- app_assoc.
  - apply (trimmed_ends c' _ (r' ++ [32; 20998]) 37912); auto.
    now rewrite <- app_assoc.
Qed.

Lemma clean_strips (l : list pystr) :
  clean_list (List.filter (fun s => nonempty s) (List.map strip l)).
Proof.
  apply Forall_forall. intros s Hs. apply filter_In in Hs as [Hin Hne].
  apply in_map_iff in Hin as (x & <- & _). split; [apply strip_trimmed|exact Hne].
Qed.

Lemma extract_steps_clean obj st : extract_steps_from_ld obj = Ok st -> clean_list st.
Proof.
  unfold extract_steps_from_ld.
  destruct (if isinstance_list obj then _ else _) as [steps|e]; [|discriminate].
  cbn [bind]. intros [= <-]. apply clean_strips.
Qed.

Lemma fill_title_trimmed d f f1 :
  fill_title (JDict d) f = Ok f1 -> well_trimmed f -> trimmed_text (title f1).
Proof.
  unfold fill_title. intros H (Ht & _).
  destruct (truthy (title f)); [now injection H as <-|].
  cbn [dict_get bind] in H. injection H as <-. apply ensure_str_text.
Qed.

Lemma fill_ingredients_clean d f f2 :
  fill_ingredients (JDict d) f = Ok f2 -> well_trimmed f -> clean_list (ingredients f2).
Proof.
  unfold fill_ingredients. intros H (_ & Hi & _).
  destruct (nonempty (ingredients f)); [now injection H as <-|].
  cbn [dict_get bind] in H.
  destruct (get_or_none (lit "recipeIngredient") d);
    cbn [isinstance_list iter bind] in H; injection H as <-; auto.
  cbn [ingredients with_ingredients]. apply Forall_forall. intros s Hs.
  apply in_map_iff in Hs as (x & <- & Hx). apply filter_In in Hx as [_ Hne].
  split; [apply strip_trimmed|exact Hne].
Qed.

Lemma fill_time_trimmed d f f3 :
  fill_time (JDict d) f = Ok f3 -> well_trimmed f -> trimmed_text (time_text f3).
Proof.
  unfold fill_time. intros H (_ & _ & Ht & _).
  destruct (truthy (time_text f)); [now injection H as <-|].
  rewrite duration_source_eq in H. cbn [bind] in H.
  destruct (truthy (duration_text d)) eqn:Tt; [|now injection H as <-].
  destruct (duration_text_cases d) as [E|(s & E & Hs')]; rewrite E in *;
    [discriminate|].
  destruct (iso8601_duration_to_text (JStr s)) as [r|e] eqn:Hr; [|discriminate].
  pose proof (iso8601_shape _ _ Hr) as Hshape.
  cbn [bind] in H. unfold or_else in H.
  destruct (truthy r); cbn [bind] in H; injection H as <-; cbn; auto.
  destruct Hshape as [->|[->|(h & m & ->)]]; cbn; auto.
  apply format_duration_trimmed.
Qed.

Lemma fill_yield_trimmed d f f4 :
  fill_yield (JDict d) f = Ok f4 -> well_trimmed f -> trimmed_text (yield_info f4).
Proof.
  unfold fill_yield. intros H (_ & _ & _ & Hy & _).
  destruct (truthy (yield_info f)); [now injection H as <-|].
  cbn [dict_get bind] in H.
  destruct (isinstance_list _ && truthy _).
  - destruct (getitem0 _); [|discriminate]. cbn [bind] in H. injection H as <-.
    apply ensure_str_text.
  - injection H as <-. apply ensure_str_text.
Qed.

Lemma fill_steps_clean d f f5 :
  fill_steps (JDict d) f = Ok f5 -> well_trimmed f -> clean_list (steps f5).
Proof.
  unfold fill_steps. intros H (_ & _ & _ & _ & Hs).
  destruct (nonempty (steps f)); [now injection H as <-|].
  cbn [dict_get bind] in H.
  destruct (extract_steps_from_ld _) as [st|e] eqn:E; [|discriminate].
  cbn [bind] in H. destruct (nonempty st); injection H as <-; auto.
  apply (extract_steps_clean _ _ E).
Qed.

Lemma visit_node_trimmed d f f' :
  visit_node (JDict d) f = Ok f' -> well_trimmed f -> well_trimmed f'.
Proof.
  intros Hv Hf. destruct (is_recipe_dict d) as [[|] Hr].
  - destruct (visit_node_recipe d f f' Hr Hv)
      as (f1 & f2 & f3 & f4 & f5 & f6 & H1 & H2 & H3 & H4 & H5 & _ & ->).
    unfold well_trimmed. cbn.
    repeat split;
      eauto using fill_title_trimmed, fill_ingredients_clean, fill_time_trimmed,
        fill_yield_trimmed, fill_steps_clean.
  - rewrite (visit_node_other _ _ Hr) in Hv. now injection Hv as <-.
Qed.

(** Everything [parse_ld_json] returns, the image apart, is trimmed;
    the sequences hold no empty text. *)
Lemma parse_ld_json_trimmed texts f :
  parse_ld_json texts = Ok f -> well_trimmed f.
Proof.
  rewrite parse_ld_json_flat.
  assert (H0 : well_trimmed no_fields) by (repeat split; constructor).
  revert H0. generalize no_fields as f0.
  pose proof (ld_nodes_dicts texts) as Hd.
  induction Hd as [|n nodes Hn Hd IH]; intros f0 H0 Hf.
  - injection Hf as <-. exact H0.
  - destruct n as [ | | | | | | d]; try discriminate.
    cbn [foldM] in Hf. destruct (visit_node (JDict d) f0) as [f1|e] eqn:E; [|discriminate].
    cbn [bind] in Hf. apply (IH f1); auto. apply (visit_node_trimmed _ _ _ E H0).
Qed.

(** The image given as an object, alone or first in a list, is trimmed
    as well. *)
Lemma image_object_trimmed d rest :
  (exists u, extract_image_url_from_ld (JDict d) = Ok u /\ trimmed_text u)
  /\ (exists u, extract_image_url_from_ld (JList (JDict d :: rest)) = Ok u
                /\ trimmed_text u).
Proof.
  unfold extract_image_url_from_ld. split.
  - destruct (truthy (JDict d)); cbn [negb]; [|eexists; split; [reflexivity|exact I]].
    cbn [isinstance_str isinstance_list isinstance_dict andb bind dict_get].
    eexists; split; [reflexivity|apply ensure_str_text].
  - cbn [truthy nonempty negb isinstance_str isinstance_list isinstance_dict andb
         getitem0 bind dict_get].
    eexists; split; [reflexivity|apply ensure_str_text].
Qed.

End WithRuntime.
End TrimFacts.
Export TrimFacts.

(** ** Worked examples *)

Module Examples.
Import Demo.

Local Open Scope N_scope.

Lemma demo_ascii_digits : @ascii_digits demo.
Proof. intros c _. reflexivity. Qed.

(** Claim C3 at the soup recipe, whose [totalTime] is [PT1H30M]. *)
Lemma duration_time_field_witness :
  exists f,
    visit_node (R := demo) soup_doc no_fields = Ok f
    /\ time_text f
       = JStr (dec 1 ++ hours_text ++ lit " " ++ dec 30 ++ minutes_text).
Proof.
  destruct (@duration_time_field demo demo_ascii_digits soup_node no_fields
              (lit "PT1H30M") eq_refl eq_refl (or_introl eq_refl) eq_refl)
    as (_ & Hret & Hall).
  destruct (Hret (Some 1) (Some 30) eq_refl) as [f Hf].
  - intros n [= <-]. apply Nat.leb_le. reflexivity.
  - intros n [= <-]. apply Nat.leb_le. reflexivity.
  - exists f. split; [exact Hf|].
    destruct (Hall f Hf) as (Hboth & _). apply (Hboth 1 30); reflexivity.
Defined.

(** Claim C3 as first stated fails at [PT0H0M]: the time field is not
    left unset, the raw text stands in it. *)
Lemma zero_duration_keeps_raw_text :
  exists f,
    parse_ld_json (R := demo) [zero_duration_blob] = Ok f
    /\ time_text f = JStr (lit "PT0H0M")
    /\ time_text f <> JNone.
Proof.
  eexists. split; [vm_compute; reflexivity|]. split; [reflexivity|discriminate].
Qed.

(** Claim C4, at the inputs where the code departs from it.  An image
    given as a string is returned with its surrounding blanks, and a
    blank image string counts as found: the usable image of a later node
    is not taken.  (Given as an object, the same blank image is dropped
    and the later one taken.) *)
Theorem image_string_not_trimmed :
  (exists f,
     parse_ld_json (R := demo) [padded_image_blob] = Ok f
     /\ image_url f = JStr (lit " http://a/b.jpg ")
     /\ ~ trimmed_text (image_url f))
  /\ (exists f,
        parse_ld_json (R := demo) [blank_image_blob] = Ok f
        /\ image_url f = JStr (lit "  "))
  /\ (exists f,
        parse_ld_json (R := demo) [blank_image_object_blob] = Ok f
        /\ image_url f = JStr (lit "http://a/b.jpg")).
Proof.
  split; [|split].
  - eexists. split; [vm_compute; reflexivity|]. split; [reflexivity|].
    cbn. intros [H _]. discriminate.
  - eexists. split; [vm_compute; reflexivity|reflexivity].
  - eexists. split; [vm_compute; reflexivity|reflexivity].
Qed.

(** A duration with seconds starts with [PT]: it is converted from its
    hours and minutes, the seconds are dropped. *)
Example duration_with_seconds :
  iso8601_duration_to_text (R := demo) (JStr (lit "PT1H30M45S"))
  = Ok (JStr (dec 1 ++ hours_text ++ lit " " ++ dec 30 ++ minutes_text)).
Proof. vm_compute. reflexivity. Qed.

(** A duration whose hours run to 4301 digits: [int] refuses it, and
    the error leaves the extractor. *)
Example long_duration_raises :
  iso8601_duration_to_text (R := demo) (JStr long_duration) = Raise ValueError
  /\ parse_ld_json (R := demo) [long_duration_blob] = Raise ValueError.
Proof. split; vm_compute; reflexivity. Qed.





(** Claim C9 at a broken blob that follows the soup blob. *)
Lemma undecodable_blob_skipped_witness :
  parse_ld_json (R := demo) ([soup_blob] ++ broken_blob :: [])
  = parse_ld_json (R := demo) ([soup_blob] ++ []).
Proof.
  apply (@undecodable_blob_skipped demo [soup_blob] [] broken_blob ValueError).
  reflexivity.
Defined.

(** Claim C10 as first stated fails in two places.  A name of another
    shape is not passed over: given as a list it becomes the title, as
    the text [str] prints for it.  And the extractor does raise: on a
    duration whose hours run to 4301 digits. *)
Lemma shapes_not_all_ignored :
  (exists f,
     parse_ld_json (R := demo) [list_name_blob] = Ok f
     /\ title f = JStr (lit "['a']")
     /\ title f <> JNone)
  /\ parse_ld_json (R := demo) [long_duration_blob] = Raise ValueError.
Proof.
  split.
  - eexists. split; [vm_compute; reflexivity|]. split; [reflexivity|discriminate].
  - vm_compute. reflexivity.
Qed.

End Examples.

(** * Further properties *)

(** ** Instruction steps *)

Module StepFacts.
Section WithRuntime.
Context {R : Runtime}.

Lemma clean_strip_id l :
  clean_list l -> List.filter (fun s => nonempty s) (List.map strip l) = l.
Proof.
  induction 1 as [|s l [Ht Hn] _ IH]; [reflexivity|].
  cbn [List.map List.filter]. rewrite (trimmed_strip _ Ht), Hn. now rewrite IH.
Qed.

Lemma strips_idempotent l :
  List.filter (fun s => nonempty s)
    (List.map strip (List.filter (fun s => nonempty s) (List.map strip l)))
  = List.filter (fun s => nonempty s) (List.map strip l).
Proof. apply clean_strip_id, clean_strips. Qed.

(** the loop of [pick_from_list] over plain strings *)
Lemma pick_strings l acc :
  foldM pick_item (List.map JStr l) acc
  = Ok (acc ++ List.filter (fun s => nonempty s) (List.map strip l)).
Proof.
  revert acc; induction l as [|s l IH]; intros acc.
  - cbn. now rewrite app_nil_r.
  - cbn [List.map foldM]. unfold pick_item at 1.
    cbn [isinstance_str str_strip bind List.filter].
    destruct (nonempty (strip s)); rewrite IH; [|reflexivity].
    now rewrite <- app_assoc.
Qed.

Lemma clean_strings_kept (l : list json) (ings : list pystr) :
  l = List.map JStr ings -> clean_list ings ->
  List.map (fun x => strip (py_str x))
    (List.filter (fun x => nonempty (strip (py_str x))) l) = ings.
Proof.
  intros -> H. induction H as [|s l [Ht Hn] _ IH]; [reflexivity|].
  cbn [List.map List.filter py_str]. rewrite (trimmed_strip _ Ht), Hn.
  cbn [List.map py_str]. now rewrite (trimmed_strip _ Ht), IH.
Qed.

End WithRuntime.
End StepFacts.
Export StepFacts.

Section StepProperties.
Context {R : Runtime}.

(** Property X1.  [extract_steps_from_ld] returns on every value, and what it returns
    are non-empty texts without surrounding whitespace. *)
Theorem steps_are_clean_texts (obj : json) :
  exists st, extract_steps_from_ld obj = Ok st /\ clean_list st.
Proof.
  destruct (extract_steps_total obj) as [st Hst]. exists st.
  split; [exact Hst|]. apply (extract_steps_clean _ _ Hst).
Qed.

(** Property X2.  On a list of plain strings [extract_steps_from_ld] gives the
    stripped strings in the order of the list, the blank ones left out
    and duplicates kept. *)
Theorem steps_from_strings_keep_order (l : list pystr) :
  extract_steps_from_ld (JList (List.map JStr l))
  = Ok (List.filter (fun s => nonempty s) (List.map strip l)).
Proof.
  unfold extract_steps_from_ld, pick_from_list.
  cbn [isinstance_list iter bind]. rewrite pick_strings. cbn [bind app].
  now rewrite strips_idempotent.
Qed.

(** Property X3.  A [HowToSection] object whose [itemListElement] is a list
    yields the steps of that list.  Inside a list, an object with
    neither a [text] nor a [name] contributes nothing, whatever else it
    holds: sections are opened at the top level only. *)
Theorem howto_section_one_level :
  (forall d items,
     get_or_none (lit "@type") d = JStr (lit "HowToSection") ->
     lookup (lit "itemListElement") d = Some (JList items) ->
     extract_steps_from_ld (JDict d) = extract_steps_from_ld (JList items))
  /\ (forall d before after,
        truthy (get_or_none (lit "text") d) = false ->
        truthy (get_or_none (lit "name") d) = false ->
        extract_steps_from_ld (JList (before ++ JDict d :: after))
        = extract_steps_from_ld (JList (before ++ after))).
Proof.
  split.
  - intros d items Hty Hitems. unfold extract_steps_from_ld.
    cbn [isinstance_list isinstance_dict dict_get bind getitem_key].
    rewrite Hty. cbn [eq_str]. change (str_eqb (lit "HowToSection") (lit "HowToSection")) with true.
    unfold get_or_none. rewrite Hitems. cbn [isinstance_list bind]. reflexivity.
  - intros d before after Ht Hn. unfold extract_steps_from_ld, pick_from_list.
    cbn [isinstance_list iter bind]. rewrite !foldM_app.
    destruct (foldM pick_item before []) as [acc|e]; [|reflexivity].
    cbn [bind foldM]. unfold pick_item at 1.
    cbn [isinstance_str isinstance_dict dict_get bind]. unfold or_else.
    rewrite Ht. cbn [dict_get bind]. rewrite Hn. reflexivity.
Qed.

End StepProperties.

(** ** Shapes of the parsed fields *)

Module FieldFacts.
Section WithRuntime.
Context {R : Runtime}.

(** what every visit of a node keeps holds of the result *)
Lemma parse_ld_json_inv (P : fields -> Prop) :
  P no_fields ->
  (forall d f f', visit_node (JDict d) f = Ok f' -> P f -> P f') ->
  forall texts f, parse_ld_json texts = Ok f -> P f.
Proof.
  intros H0 Hstep texts f. rewrite parse_ld_json_flat.
  revert H0. generalize no_fields as f0.
  pose proof (ld_nodes_dicts texts) as Hd.
  induction Hd as [|n nodes Hn Hd IH]; intros f0 H0 Hf.
  - now injection Hf as <-.
  - destruct n as [ | | | | | | d]; try discriminate.
    cbn [foldM] in Hf. destruct (visit_node (JDict d) f0) as [f1|e] eqn:E; [|discriminate].
    cbn [bind] in Hf. apply (IH f1); eauto.
Qed.

Lemma trimmed_truthy v :
  trimmed_text v -> truthy v = true -> filled_text_or_none v.
Proof.
  destruct v; cbn; try tauto; try discriminate. intros Ht Hn. right. eauto.
Qed.

Lemma fill_time_filled d f f3 :
  fill_time (JDict d) f = Ok f3 ->
  filled_text_or_none (time_text f) -> filled_text_or_none (time_text f3).
Proof.
  unfold fill_time. intros H Ht.
  destruct (truthy (time_text f)); [now injection H as <-|].
  rewrite duration_source_eq in H. cbn [bind] in H.
  destruct (truthy (duration_text d)) eqn:Tt; [|now injection H as <-].
  destruct (duration_text_cases d) as [E|(s & E & Hs')]; rewrite E in *;
    [discriminate|].
  destruct (iso8601_duration_to_text (JStr s)) as [r|e] eqn:Hr; [|discriminate].
  pose proof (iso8601_shape _ _ Hr) as Hshape.
  cbn [bind] in H. unfold or_else in H.
  destruct (truthy r) eqn:Tr; cbn [bind] in H; injection H as <-;
    cbn [time_text with_time_text].
  - apply trimmed_truthy; [|exact Tr].
    destruct Hshape as [->|[->|(h & m & ->)]]; cbn; auto.
    apply format_duration_trimmed.
  - right. exists s. cbn in Tt. auto.
Qed.

Lemma fill_image_text d f f6 :
  fill_image (JDict d) f = Ok f6 ->
  text_or_none (image_url f) -> text_or_none (image_url f6).
Proof.
  unfold fill_image. intros H Hi.
  destruct (truthy (image_url f)); [now injection H as <-|].
  cbn [dict_get bind] in H.
  destruct (extract_image_total (get_or_none (lit "image") d)) as (u & Hu & Hshape).
  rewrite Hu in H. cbn [bind] in H. injection H as <-. exact Hshape.
Qed.

Lemma visit_node_texts d f f' :
  visit_node (JDict d) f = Ok f' ->
  filled_text_or_none (time_text f) /\ text_or_none (image_url f) ->
  filled_text_or_none (time_text f') /\ text_or_none (image_url f').
Proof.
  intros Hv [Ht Hi]. destruct (is_recipe_dict d) as [[|] Hr].
  - destruct (visit_node_recipe d f f' Hr Hv)
      as (f1 & f2 & f3 & f4 & f5 & f6 & _ & _ & H3 & _ & _ & H6 & ->).
    cbn [time_text image_url].
    eauto using fill_time_filled, fill_image_text.
  - rewrite (visit_node_other _ _ Hr) in Hv. now injection Hv as <-.
Qed.

Lemma parse_time_image texts f :
  parse_ld_json texts = Ok f ->
  filled_text_or_none (time_text f) /\ text_or_none (image_url f).
Proof.
  apply (parse_ld_json_inv
           (fun f => filled_text_or_none (time_text f) /\ text_or_none (image_url f))).
  - split; now left.
  - apply visit_node_texts.
Qed.

(** a single object that is a Recipe and wraps no graph is the one node
    visited *)
Lemma parse_single_node raw d :
  json_loads raw = Ok (JDict d) ->
  isinstance_list (get_or_none (lit "@graph") d) = false ->
  parse_ld_json [raw] = visit_node (JDict d) no_fields.
Proof.
  intros Hl Hg. rewrite parse_ld_json_flat. unfold ld_nodes, blob_nodes.
  cbn [flat_map]. rewrite Hl, app_nil_r. cbn [candidate_nodes].
  unfold get_or_none in Hg.
  assert (E : match lookup (lit "@graph") d with
              | Some (JList g) => List.filter isinstance_dict g
              | _ => [JDict d]
              end = [JDict d]).
  { destruct (lookup (lit "@graph") d) as [g|]; [|reflexivity].
    destruct g; try reflexivity. discriminate. }
  rewrite E. cbn [foldM]. now destruct (visit_node (JDict d) no_fields).
Qed.

(** a node finds nothing to fill when every field is set *)
Lemma visit_node_full d f :
  truthy (title f) = true -> nonempty (ingredients f) = true ->
  truthy (time_text f) = true -> truthy (yield_info f) = true ->
  nonempty (steps f) = true -> truthy (image_url f) = true ->
  visit_node (JDict d) f = Ok f.
Proof.
  intros T1 T2 T3 T4 T5 T6. destruct (is_recipe_dict d) as [[|] Hr].
  - destruct (visit_node_fun d Hr)
      as (g1 & g2 & g3 & g4 & g5 & g6 & E & P1 & P2 & _ & P4 & P5 & P6 & _ & K & _).
    destruct (E f) as (_ & _ & _ & _ & _ & _ & V). rewrite V, (K _ T3). cbn [bind].
    rewrite (proj1 (P1 _) T1), (proj1 (P2 _) T2), (proj1 (P4 _) T4),
      (proj1 (P5 _) T5), (proj1 (P6 _) T6).
    now destruct f.
  - now apply visit_node_other.
Qed.

Lemma visit_nodes_full nodes f :
  Forall is_dict nodes ->
  truthy (title f) = true -> nonempty (ingredients f) = true ->
  truthy (time_text f) = true -> truthy (yield_info f) = true ->
  nonempty (steps f) = true -> truthy (image_url f) = true ->
  foldM visit_node nodes f = Ok f.
Proof.
  intros Hd T1 T2 T3 T4 T5 T6. induction Hd as [|n nodes Hn Hd IH]; [reflexivity|].
  destruct n as [ | | | | | | d]; try discriminate.
  cbn [foldM]. rewrite visit_node_full by assumption. exact IH.
Qed.

End WithRuntime.
End FieldFacts.
Export FieldFacts.

Section FieldProperties.
Context {R : Runtime}.

(** Property X4.  Whatever the blobs hold, the fields [parse_ld_json] returns have
    these shapes: title and yield are [None] or text without surrounding
    whitespace, ingredients and steps are non-empty trimmed texts, the
    time is [None] or a non-empty trimmed text, the image is [None] or a
    text. *)
Theorem parse_fields_are_texts (ld_texts : list pystr) (f : fields) :
  parse_ld_json ld_texts = Ok f ->
  trimmed_text (title f)
  /\ clean_list (ingredients f)
  /\ filled_text_or_none (time_text f)
  /\ trimmed_text (yield_info f)
  /\ clean_list (steps f)
  /\ text_or_none (image_url f).
Proof.
  intros Hf. destruct (parse_ld_json_trimmed _ _ Hf) as (H1 & H2 & _ & H4 & H5).
  destruct (parse_time_image _ _ Hf) as [H3 H6]. auto 10.
Qed.

(** Property X5.  Once the blobs read so far have filled all six fields, further
    blobs change nothing. *)
Theorem full_fields_are_final (ld_texts later : list pystr) (f : fields) :
  parse_ld_json ld_texts = Ok f ->
  truthy (title f) = true -> nonempty (ingredients f) = true ->
  truthy (time_text f) = true -> truthy (yield_info f) = true ->
  nonempty (steps f) = true -> truthy (image_url f) = true ->
  parse_ld_json (ld_texts ++ later) = Ok f.
Proof.
  intros Hf T1 T2 T3 T4 T5 T6. unfold parse_ld_json in *.
  rewrite foldM_app, Hf. cbn [bind]. rewrite visit_blobs_flat.
  apply visit_nodes_full; auto. apply ld_nodes_dicts.
Qed.

(** Property X6.  A blob that decodes to one Recipe object, without a list under
    [@graph], whose name, ingredients, time (not an ISO [PT] duration),
    yield, instructions and image are clean texts, comes back
    unchanged, field by field. *)
Theorem clean_values_unmodified (raw : pystr) (d : list (pystr * json))
    (name time yld image : pystr) (ings stps : list pystr) :
  json_loads raw = Ok (JDict d) ->
  is_recipe (JDict d) = Ok true ->
  isinstance_list (get_or_none (lit "@graph") d) = false ->
  get_or_none (lit "name") d = JStr name ->
  get_or_none (lit "recipeIngredient") d = JList (List.map JStr ings) ->
  get_or_none (lit "totalTime") d = JStr time ->
  get_or_none (lit "recipeYield") d = JStr yld ->
  get_or_none (lit "recipeInstructions") d = JList (List.map JStr stps) ->
  get_or_none (lit "image") d = JStr image ->
  trimmed name -> clean_list ings ->
  trimmed time -> nonempty time = true -> startswith (lit "PT") time = false ->
  trimmed yld -> clean_list stps -> nonempty image = true ->
  parse_ld_json [raw]
  = Ok (Fields (JStr name) ings (JStr time) (JStr yld) stps (JStr image)).
Proof.
  intros Hl Hr Hg Hname Hing Htime Hyld Hinst Himg Tn Ci Tt Nt Pt Ty Cs Ni.
  rewrite (parse_single_node _ _ Hl Hg).
  assert (Hd : duration_text d = JStr time).
  { unfold duration_text. rewrite Htime. unfold ensure_str. cbn [is_None py_str truthy].
    now rewrite (trimmed_strip _ Tt), Nt. }
  assert (Hread : int_readable (duration_text d)).
  { rewrite Hd. intros Hpt. congruence. }
  destruct (visit_node_returns d no_fields (or_introl Hread)) as [f' Hv].
  rewrite Hv. f_equal. rewrite (visit_node_fresh d f' Hr Hv).
  cbn [offer]. rewrite Hd, Hname, Hing, Hyld, Hinst, Himg.
  f_equal.
  - unfold ensure_str. cbn [is_None py_str]. now rewrite (trimmed_strip _ Tn).
  - now apply clean_strings_kept.
  - cbn [truthy]. rewrite Nt, (iso8601_other _ Pt), Nt. cbn [truthy]. now rewrite Nt.
  - destruct yld as [|c yld]; unfold ensure_str; cbn [is_None py_str];
      now rewrite (trimmed_strip _ Ty).
  - unfold extract_steps_from_ld, pick_from_list.
    cbn [isinstance_list iter bind]. rewrite pick_strings.
    cbn [bind app]. rewrite strips_idempotent. now apply clean_strip_id.
  - unfold extract_image_url_from_ld.
    cbn [truthy isinstance_str negb]. now rewrite Ni.
Qed.

End FieldProperties.

Module FieldExamples.
Import Demo Demo2.

(** Property X4 at the stew recipe. *)
Lemma parse_fields_are_texts_witness :
  trimmed_text (title stew_fields)
  /\ clean_list (ingredients stew_fields)
  /\ filled_text_or_none (time_text stew_fields)
  /\ trimmed_text (yield_info stew_fields)
  /\ clean_list (steps stew_fields)
  /\ text_or_none (image_url stew_fields).
Proof.
  apply (@parse_fields_are_texts demo2 [full_blob] stew_fields).
  vm_compute. reflexivity.
Defined.

(** Property X5: the soup blob after the stew blob changes nothing. *)
Lemma full_fields_are_final_witness :
  @parse_ld_json demo2 ([full_blob] ++ [soup_blob]) = Ok stew_fields.
Proof.
  apply (@full_fields_are_final demo2 [full_blob] [soup_blob] stew_fields);
    vm_compute; reflexivity.
Defined.

(** Property X6 at the stew recipe. *)
Lemma clean_values_unmodified_witness :
  @parse_ld_json demo2 [full_blob]
  = Ok (Fields (JStr (lit "Stew")) [lit "beef"; lit "salt"] (JStr (lit "2 hours"))
               (JStr (lit "4")) [lit "boil"; lit "serve"] (JStr (lit "http://a/b.jpg"))).
Proof.
  apply (@clean_values_unmodified demo2 full_blob full_doc
           (lit "Stew") (lit "2 hours") (lit "4") (lit "http://a/b.jpg")
           [lit "beef"; lit "salt"] [lit "boil"; lit "serve"]);
    try (vm_compute; reflexivity);
    try (vm_compute; auto);
    repeat (constructor; [vm_compute; auto|]); try constructor.
Defined.

End FieldExamples.

(** ** The run as a function of what the pages show *)

Module RunFacts.
Section WithRuntime.
Context {R : Runtime}.

Lemma for_each_app {A S} (body : A -> S -> io S) l1 l2 s w :
  for_each body (l1 ++ l2) s w
  = (s' <~ for_each body l1 s ;; for_each body l2 s') w.
Proof.
  revert s w; induction l1 as [|a l1 IH]; intros s w; [reflexivity|].
  cbn [app for_each]. unfold io_bind. destruct (body a s w) as [[s1|e] w1]; [|reflexivity].
  rewrite IH. reflexivity.
Qed.

(** a loop whose turns return a value read off their inputs alone
    returns what the pure loop returns *)
Lemma for_each_fst {A S} (body : A -> S -> io S) (pure : A -> S -> res S) :
  (forall a s w, fst (body a s w) = pure a s) ->
  forall l s w, fst (for_each body l s w) = foldM pure l s.
Proof.
  intros Hb l; induction l as [|a l IH]; intros s w; [reflexivity|].
  cbn [for_each foldM]. unfold io_bind. specialize (Hb a s w).
  destruct (body a s w) as [[s1|e] w1]; cbn [fst] in Hb; rewrite <- Hb; cbn [bind].
  - apply IH.
  - reflexivity.
Qed.

Lemma foldM_append {A B} (g : A -> list B) l s0 :
  foldM (fun a s => Ok (s ++ g a)) l s0 = Ok (s0 ++ flat_map g l).
Proof.
  revert s0; induction l as [|a l IH]; intros s0; cbn [foldM flat_map bind].
  - now rewrite app_nil_r.
  - now rewrite IH, app_assoc.
Qed.

(** the records a turn of the page loop has when it returns *)
Lemma page_outcome_ok r kw url docs :
  page_outcome r kw url = Ok docs -> docs = page_docs r kw url.
Proof.
  unfold page_outcome, page_docs. destruct (negb _); [congruence|].
  destruct (parse_ld_json _) as [parsed|e]; [|discriminate]. cbn [bind].
  destruct (pause _) as [[]|e]; [|discriminate]. cbn [bind]. congruence.
Qed.

Lemma scrape_page_fst r kw url saved w :
  fst (scrape_page r kw url saved w)
  = (docs <- page_outcome r kw url ;; Ok (saved ++ docs)).
Proof.
  rewrite scrape_page_eq. unfold page_outcome, page_docs.
  destruct (negb (opens (visit r kw url))); [cbn; now rewrite app_nil_r|].
  destruct (parse_ld_json (gather_ld_texts (ld_scripts (visit r kw url))))
    as [parsed|e]; [|reflexivity].
  cbv zeta. cbn [bind].
  destruct (nonempty (ingredients (fallback (visit r kw url) parsed)));
    cbn [fst]; destruct (pause (visit r kw url)) as [[]|e]; cbn [bind];
    try reflexivity; now rewrite app_nil_r.
Qed.

Lemma scrape_keyword_fst r kw w :
  fst (scrape_keyword r kw w) = keyword_docs r kw.
Proof.
  unfold scrape_keyword, keyword_docs, io_bind at 1, lift.
  destruct (search_anchors r kw) as [anchors|e]; [|reflexivity].
  cbn [bind].
  apply (for_each_fst (scrape_page r kw)
           (fun url saved => docs <- page_outcome r kw url ;; Ok (saved ++ docs))).
  intros; apply scrape_page_fst.
Qed.

Lemma crawl_fst r w : fst (crawl r w) = crawl_docs r.
Proof.
  rewrite crawl_eq. unfold crawl_docs.
  destruct (browser_start r) as [[]|e]; [|reflexivity]. cbn [bind].
  rewrite <- (for_each_fst
                (fun kw all_saved =>
                   docs <~ scrape_keyword r kw ;; io_ret (all_saved ++ docs))
                (fun kw all_saved =>
                   docs <- keyword_docs r kw ;; Ok (all_saved ++ docs))
                ) with (w := w).
  - destruct (for_each _ (kws r) [] w) as [[all_saved|e] w1]; reflexivity.
  - intros kw saved w0. unfold io_bind, io_ret.
    pose proof (scrape_keyword_fst r kw w0) as H.
    destruct (scrape_keyword r kw w0) as [[docs|e] w1]; cbn [fst] in *;
      rewrite <- H; reflexivity.
Qed.

(** what [main] returns and leaves in the two files, read off the pages
    and the files alone *)
Lemma main_local r w :
  match crawl_docs r with
  | Ok docs =>
      fst (main r w)
      = (_ <- list_extend (read_history (history_file w)) docs ;; Ok docs)
      /\ sample_file (snd (main r w))
         = write_json (sample_write r) (JList docs) (sample_file w)
      /\ history_file (snd (main r w))
         = match list_extend (read_history (history_file w)) docs with
           | Ok history => write_json (history_write r) history (history_file w)
           | Raise _ => history_file w
           end
  | Raise e =>
      fst (main r w) = Raise e
      /\ sample_file (snd (main r w)) = sample_file w
      /\ history_file (snd (main r w)) = history_file w
  end.
Proof.
  rewrite <- (crawl_fst r w). destruct (crawl_inv r w) as [(Hs & Hh & _) _].
  destruct (crawl r w) as [[docs|e] wc] eqn:Ec; cbn [fst snd] in *.
  - rewrite (main_after_crawl _ _ _ _ Ec), Hs, Hh.
    destruct (list_extend (read_history (history_file w)) docs); cbn; auto.
  - rewrite (main_crawl_raises _ _ _ _ Ec). cbn. auto.
Qed.

Lemma page_docs_link r kw url doc :
  In doc (page_docs r kw url) -> record_link doc = Some url.
Proof.
  unfold page_docs. destruct (negb _); [intros []|].
  destruct (parse_ld_json _) as [parsed|e]; [|intros []].
  cbv zeta. destruct (nonempty _); [|intros []].
  intros [<-|[]]. reflexivity.
Qed.

Lemma page_docs_links r kw links :
  List.map record_link (flat_map (page_docs r kw) links)
  = List.map Some (List.filter (fun url => nonempty (page_docs r kw url)) links).
Proof.
  induction links as [|url links IH]; [reflexivity|].
  cbn [flat_map List.filter]. rewrite map_app, IH.
  pose proof (page_docs_link r kw url) as Hl.
  assert (Hshape : page_docs r kw url = [] \/ exists doc, page_docs r kw url = [doc]).
  { unfold page_docs. destruct (negb _); auto.
    destruct (parse_ld_json _); auto. cbv zeta. destruct (nonempty _); eauto. }
  destruct Hshape as [E|[doc E]]; rewrite E in *; cbn [nonempty List.map app].
  - reflexivity.
  - now rewrite (Hl doc (or_introl eq_refl)).
Qed.

Lemma discover_links_NoDup anchors : NoDup (discover_links anchors).
Proof.
  unfold discover_links. rewrite fromkeys_first_seen.
  set (l := first_seen _). pose proof (first_seen_NoDup (matching_links anchors)) as Hn.
  fold l in Hn. rewrite <- (firstn_skipn LIMIT_PER_ING l) in Hn.
  now apply NoDup_app_remove_r in Hn.
Qed.

Lemma discover_links_length anchors : length (discover_links anchors) <= 20.
Proof. unfold discover_links. apply firstn_le_length. Qed.

Lemma page_docs_length r kw links :
  length (flat_map (page_docs r kw) links) <= length links.
Proof.
  rewrite <- (length_map record_link), page_docs_links, length_map.
  apply filter_length_le.
Qed.

(** the page loop, when it returns, has gathered the records of the
    pages in order *)
Lemma pages_flat r kw links acc docs :
  foldM (fun url saved => d <- page_outcome r kw url ;; Ok (saved ++ d)) links acc
  = Ok docs ->
  docs = acc ++ flat_map (page_docs r kw) links.
Proof.
  revert acc; induction links as [|url links IH]; intros acc; cbn [foldM flat_map].
  - intros [= <-]. now rewrite app_nil_r.
  - destruct (page_outcome r kw url) as [d|e] eqn:E; [|discriminate]. cbn [bind].
    intros Hf. rewrite (IH _ Hf), (page_outcome_ok _ _ _ _ E). now rewrite app_assoc.
Qed.

Lemma keyword_docs_flat r kw docs :
  keyword_docs r kw = Ok docs ->
  exists anchors,
    search_anchors r kw = Ok anchors
    /\ docs = flat_map (page_docs r kw) (discover_links anchors).
Proof.
  unfold keyword_docs. destruct (search_anchors r kw) as [anchors|e]; [|discriminate].
  cbn [bind]. intros Hf. exists anchors. split; [reflexivity|].
  apply (pages_flat _ _ _ [] _ Hf).
Qed.

Lemma keyword_docs_length r kw docs :
  keyword_docs r kw = Ok docs -> length docs <= 20.
Proof.
  intros Hk. destruct (keyword_docs_flat _ _ _ Hk) as (anchors & _ & ->).
  pose proof (page_docs_length r kw (discover_links anchors)).
  pose proof (discover_links_length anchors). lia.
Qed.

(** the browser session, read off the pages, when it returns *)
Lemma crawl_docs_ok r docs :
  crawl_docs r = Ok docs ->
  browser_start r = Ok tt /\ browser_stop r = Ok tt
  /\ foldM (fun kw all_saved => docs <- keyword_docs r kw ;; Ok (all_saved ++ docs))
           (kws r) [] = Ok docs.
Proof.
  unfold crawl_docs. destruct (browser_start r) as [[]|e]; [|discriminate].
  cbn [bind]. destruct (foldM _ (kws r) []) as [all_saved|e]; [|discriminate].
  cbn [bind]. destruct (browser_stop r) as [[]|e]; [|discriminate].
  cbn [bind]. intros [= <-]. auto.
Qed.

Lemma crawl_docs_length r docs :
  crawl_docs r = Ok docs -> length docs <= 20 * length (kws r).
Proof.
  intros Hc. apply crawl_docs_ok in Hc as (_ & _ & Hc). revert Hc.
  enough (H : forall l acc docs,
             foldM (fun kw all_saved => docs <- keyword_docs r kw ;; Ok (all_saved ++ docs))
                   l acc = Ok docs ->
             length docs <= length acc + 20 * length l)
    by (intros Hd; apply H in Hd; cbn in Hd; lia).
  clear docs. intros l; induction l as [|kw l IH]; intros acc docs; cbn [foldM].
  - intros [= <-]. cbn. lia.
  - destruct (keyword_docs r kw) as [d|e] eqn:E; [|discriminate]. cbn [bind].
    intros Hf. apply IH in Hf. rewrite length_app in Hf.
    apply keyword_docs_length in E. cbn [length]. lia.
Qed.

Lemma crawl_docs_raises r kw e :
  In kw (kws r) -> search_anchors r kw = Raise e ->
  exists e', crawl_docs r = Raise e'.
Proof.
  intros Hin He. unfold crawl_docs.
  destruct (browser_start r) as [[]|e0]; [|cbn; eauto]. cbn [bind].
  assert (H : exists e', foldM (fun kw all_saved =>
                                  docs <- keyword_docs r kw ;; Ok (all_saved ++ docs))
                               (kws r) [] = Raise e').
  { generalize (@nil json) as acc. revert Hin.
    induction (kws r) as [|k l IH]; intros Hin acc; [destruct Hin|].
    cbn [foldM]. destruct (keyword_docs r k) as [d|e'] eqn:E; cbn [bind]; [|eauto].
    destruct Hin as [->|Hin]; [|now apply IH].
    unfold keyword_docs in E. rewrite He in E. discriminate. }
  destruct H as [e' ->]. cbn [bind]. eauto.
Qed.

End WithRuntime.
End RunFacts.
Export RunFacts.

Section RunProperties.
Context {R : Runtime}.

Lemma NoDup_map_Some {A} (l : list A) : NoDup l -> NoDup (List.map Some l).
Proof.
  induction 1 as [|x l Hx Hl IH]; cbn; constructor; auto.
  intros Hin. apply in_map_iff in Hin as (y & [= ->] & Hy). contradiction.
Qed.

(** Property X7.  A recipe page that fails to open is skipped: the page loop gives
    the same records and leaves the same world as without that link. *)
Theorem unopened_page_skipped (r : run) (keyword url : pystr)
    (before after : list pystr) (saved : list json) (w : world) :
  opens (visit r keyword url) = false ->
  for_each (scrape_page r keyword) (before ++ url :: after) saved w
  = for_each (scrape_page r keyword) (before ++ after) saved w.
Proof.
  intros Hc. rewrite !for_each_app. unfold io_bind.
  destruct (for_each (scrape_page r keyword) before saved w) as [[s1|e] w1];
    [|reflexivity].
  cbn [for_each]. unfold io_bind. rewrite scrape_page_eq, Hc. reflexivity.
Qed.

(** Property X8.  The records [scrape_keyword] returns are a function of what the
    pages show: neither the remote collection nor the outcome of its
    writes changes them. *)
Theorem saved_list_ignores_remote (r : run) (keyword : pystr) (w : world)
    (ok : pystr -> pystr -> bool) (d : option store) :
  fst (scrape_keyword r keyword w) = keyword_docs r keyword
  /\ fst (scrape_keyword (with_remote_set_ok ok r) keyword (with_db d w))
     = fst (scrape_keyword r keyword w).
Proof.
  split; [apply scrape_keyword_fst|]. now rewrite !scrape_keyword_fst.
Qed.

(** Property X9.  The records of one keyword carry, in order, the links of the
    discovered pages that gave a record; there are at most 20 of them
    and no two share a link. *)
Theorem keyword_records_bounded_distinct (r : run) (keyword : pystr) (w : world)
    (docs : list json) :
  fst (scrape_keyword r keyword w) = Ok docs ->
  exists anchors,
    search_anchors r keyword = Ok anchors
    /\ List.map record_link docs
       = List.map Some
           (List.filter (fun url => nonempty (page_docs r keyword url))
              (discover_links anchors))
    /\ length docs <= 20
    /\ NoDup (List.map record_link docs).
Proof.
  rewrite scrape_keyword_fst. intros Hk.
  pose proof (keyword_docs_length _ _ _ Hk) as Hlen.
  destruct (keyword_docs_flat _ _ _ Hk) as (anchors & Ha & ->). exists anchors.
  split; [exact Ha|]. split; [apply page_docs_links|]. split; [exact Hlen|].
  rewrite page_docs_links. apply NoDup_map_Some, NoDup_filter, discover_links_NoDup.
Qed.

(** Property X10.  What [main] returns and what it leaves in the two local files do
    not depend on the remote collection or on its writes. *)
Theorem local_output_ignores_remote (r : run) (w : world)
    (ok : pystr -> pystr -> bool) (d : option store) :
  fst (main (with_remote_set_ok ok r) (with_db d w)) = fst (main r w)
  /\ sample_file (snd (main (with_remote_set_ok ok r) (with_db d w)))
     = sample_file (snd (main r w))
  /\ history_file (snd (main (with_remote_set_ok ok r) (with_db d w)))
     = history_file (snd (main r w)).
Proof.
  pose proof (main_local r w) as H1.
  pose proof (main_local (with_remote_set_ok ok r) (with_db d w)) as H2.
  change (crawl_docs (with_remote_set_ok ok r)) with (crawl_docs r) in H2.
  cbn [with_remote_set_ok with_db sample_write history_write sample_file history_file] in H2.
  destruct (crawl_docs r) as [docs|e].
  - destruct H1 as (A1 & B1 & C1), H2 as (A2 & B2 & C2). repeat split; congruence.
  - destruct H1 as (A1 & B1 & C1), H2 as (A2 & B2 & C2). repeat split; congruence.
Qed.

(** Property X11.  When the search of one keyword fails, [main] raises and neither
    local file is touched, whatever earlier keywords collected. *)
Theorem search_failure_aborts_run (r : run) (w : world) (keyword : pystr) (e : exn) :
  In keyword (kws r) ->
  search_anchors r keyword = Raise e ->
  exists e',
    fst (main r w) = Raise e'
    /\ sample_file (snd (main r w)) = sample_file w
    /\ history_file (snd (main r w)) = history_file w.
Proof.
  intros Hin He. destruct (crawl_docs_raises r keyword e Hin He) as [e' Hc].
  pose proof (main_local r w) as H. rewrite Hc in H. eauto.
Qed.

(** Property X12.  A history file that decodes to something other than a list makes
    [main] raise [AttributeError] at [history.extend]: the history file
    is left as it was, the snapshot has already been written. *)
Theorem malformed_history_aborts (r : run) (w : world) (docs : list json) (v : json) :
  crawl_docs r = Ok docs ->
  history_file w = Holds v ->
  isinstance_list v = false ->
  fst (main r w) = Raise AttributeError
  /\ history_file (snd (main r w)) = Holds v
  /\ sample_file (snd (main r w))
     = write_json (sample_write r) (JList docs) (sample_file w).
Proof.
  intros Hc Hh Hv. pose proof (main_local r w) as H. rewrite Hc, Hh in H.
  cbn [read_history] in H. destruct H as (A & B & C).
  destruct v; try discriminate; cbn in A, C; auto.
Qed.

(** Property X13.  A run returns at most 20 records per keyword. *)
Theorem run_size_bounded (r : run) (w : world) (all_saved : list json) :
  fst (main r w) = Ok all_saved ->
  length all_saved <= 20 * length (kws r).
Proof.
  intros Hm. pose proof (main_local r w) as H.
  destruct (crawl_docs r) as [docs|e] eqn:Ec.
  - destruct H as (A & _). rewrite A in Hm.
    destruct (list_extend _ _); [|discriminate]. cbn in Hm. injection Hm as <-.
    now apply crawl_docs_length.
  - destruct H as (A & _). congruence.
Qed.

End RunProperties.

Module RunExamples.
Import Demo Demo2.

(** Property X7 at the run whose second page is closed. *)
Lemma unopened_page_skipped_witness :
  for_each (scrape_page (R := demo) closed_run [38622; 32905]%N)
    ([lit "https://icook.tw/recipes/1"] ++ lit "https://icook.tw/recipes/2" :: [])
    [] fresh_world
  = for_each (scrape_page (R := demo) closed_run [38622; 32905]%N)
      ([lit "https://icook.tw/recipes/1"] ++ []) [] fresh_world.
Proof.
  apply (@unopened_page_skipped demo closed_run). reflexivity.
Defined.

(** Property X9 at the soup run. *)
Lemma keyword_records_bounded_distinct_witness :
  exists anchors,
    search_anchors soup_run [38622; 32905]%N = Ok anchors
    /\ List.map record_link [soup_record]
       = List.map Some
           (List.filter
              (fun url => nonempty (page_docs (R := demo) soup_run [38622; 32905]%N url))
              (discover_links (R := demo) anchors))
    /\ length [soup_record] <= 20
    /\ NoDup (List.map record_link [soup_record]).
Proof.
  apply (@keyword_records_bounded_distinct demo soup_run [38622; 32905]%N fresh_world).
  vm_compute. reflexivity.
Defined.

(** Property X11 at the run whose search fails. *)
Lemma search_failure_aborts_run_witness :
  exists e',
    fst (main (R := demo) failing_run fresh_world) = Raise e'
    /\ sample_file (snd (main (R := demo) failing_run fresh_world)) = Absent
    /\ history_file (snd (main (R := demo) failing_run fresh_world)) = Absent.
Proof.
  apply (@search_failure_aborts_run demo failing_run fresh_world
           [38622; 32905]%N DriverError).
  - now left.
  - reflexivity.
Defined.

(** Property X12 at a history file that holds an object. *)
Lemma malformed_history_aborts_witness :
  fst (main (R := demo) soup_run odd_history_world) = Raise AttributeError
  /\ history_file (snd (main (R := demo) soup_run odd_history_world)) = Holds (JDict [])
  /\ sample_file (snd (main (R := demo) soup_run odd_history_world))
     = Holds (JList [soup_record]).
Proof.
  apply (@malformed_history_aborts demo soup_run odd_history_world [soup_record]
           (JDict [])).
  - vm_compute. reflexivity.
  - reflexivity.
  - reflexivity.
Defined.

(** Property X13 at the soup run. *)
Lemma run_size_bounded_witness : length [soup_record] <= 20 * 1.
Proof.
  apply (@run_size_bounded demo soup_run fresh_world [soup_record]).
  vm_compute. reflexivity.
Defined.

End RunExamples.

(** ** The remote collection *)

Module StoreFacts.

Lemma store_get_set_same id doc s : store_get id (store_set id doc s) = Some doc.
Proof.
  unfold store_get. induction s as [|[k v] s IH]; cbn [store_set List.find fst snd].
  - now rewrite str_eqb_refl.
  - destruct (str_eqb k id) eqn:E; cbn [List.find fst snd]; rewrite E; auto.
Qed.

Lemma store_get_set_other id id' doc s :
  id' <> id -> store_get id' (store_set id doc s) = store_get id' s.
Proof.
  intros Hne. unfold store_get.
  induction s as [|[k v] s IH]; cbn [store_set List.find fst snd].
  - destruct (str_eqb_spec id id'); [congruence|reflexivity].
  - destruct (str_eqb_spec k id) as [->|Hk]; cbn [List.find fst snd].
    + destruct (str_eqb_spec id id'); [congruence|reflexivity].
    + destruct (str_eqb k id'); [reflexivity|exact IH].
Qed.

(** a second write under the same identifier leaves no trace of the
    first *)
Lemma store_set_twice id doc doc' s :
  store_set id doc' (store_set id doc s) = store_set id doc' s.
Proof.
  induction s as [|[k v] s IH]; cbn [store_set].
  - now rewrite str_eqb_refl.
  - destruct (str_eqb k id) eqn:E; cbn [store_set]; rewrite E; [reflexivity|].
    now rewrite IH.
Qed.

Lemma store_set_length id doc s : length (store_set id doc s) <= S (length s).
Proof.
  induction s as [|[k v] s IH]; cbn [store_set length]; [lia|].
  destruct (str_eqb k id); cbn [length]; lia.
Qed.

Lemma upsert_ok doc u id s w :
  getitem_key doc (lit "link") = Ok (JStr u) ->
  doc_id (JStr u) = Ok id ->
  db w = Some s ->
  upsert_firestore true doc w = (Ok id, with_db (Some (store_set id doc s)) w).
Proof.
  intros Hl Hid Hdb. unfold upsert_firestore, io_bind, lift.
  destruct doc; try discriminate. cbn [contains getitem_key] in *.
  destruct (lookup (lit "link") d); [|discriminate].
  injection Hl as ->. cbn [negb]. rewrite Hid, Hdb. reflexivity.
Qed.

End StoreFacts.
Export StoreFacts.

Section StoreProperties.

(** Property X14.  [upsert_firestore] raises [AssertionError] on a record without
    [link], and [AttributeError] when the link is not a text or no
    remote handle is configured; in each case nothing is written. *)
Theorem upsert_rejects_bad_records :
  (forall ok d w,
     lookup (lit "link") d = None ->
     upsert_firestore ok (JDict d) w = (Raise AssertionError, w))
  /\ (forall ok d v w,
        lookup (lit "link") d = Some v -> isinstance_str v = false ->
        upsert_firestore ok (JDict d) w = (Raise AttributeError, w))
  /\ (forall ok d u w,
        lookup (lit "link") d = Some (JStr u) -> db w = None ->
        upsert_firestore ok (JDict d) w = (Raise AttributeError, w)).
Proof.
  split; [|split].
  - intros ok d w Hl. unfold upsert_firestore, io_bind, lift. cbn [contains].
    now rewrite Hl.
  - intros ok d v w Hl Hv. unfold upsert_firestore, io_bind, lift.
    cbn [contains getitem_key]. rewrite Hl. cbn [negb].
    destruct v; try discriminate; reflexivity.
  - intros ok d u w Hl Hdb. unfold upsert_firestore, io_bind, lift.
    cbn [contains getitem_key]. rewrite Hl. cbn [negb]. rewrite doc_id_text, Hdb.
    reflexivity.
Qed.

(** Property X15.  A write that goes through puts the record under the identifier of
    its link, where a lookup finds it; every other identifier keeps its
    record and the collection grows by at most one. *)
Theorem upsert_then_get (d : list (pystr * json)) (u : pystr) (s : store) (w : world) :
  lookup (lit "link") d = Some (JStr u) ->
  db w = Some s ->
  exists id,
    doc_id (JStr u) = Ok id
    /\ upsert_firestore true (JDict d) w
       = (Ok id, with_db (Some (store_set id (JDict d) s)) w)
    /\ store_get id (store_set id (JDict d) s) = Some (JDict d)
    /\ (forall id', id' <> id ->
          store_get id' (store_set id (JDict d) s) = store_get id' s)
    /\ length (store_set id (JDict d) s) <= S (length s).
Proof.
  intros Hl Hdb. rewrite doc_id_text. eexists. split; [reflexivity|].
  split.
  { apply upsert_ok with (u := u); auto.
    all: try (cbn [getitem_key]; now rewrite Hl).
    all: try apply doc_id_text. }
  split; [apply store_get_set_same|].
  split; [intros id' Hne; now apply store_get_set_other|apply store_set_length].
Qed.

(** Property X16.  Two records whose links differ only in the scheme land on one
    identifier: after both writes the collection is as if only the
    second had been written. *)
Theorem scheme_collision_overwrites (d1 d2 : list (pystr * json)) (rest : pystr)
    (s : store) (w : world) :
  lookup (lit "link") d1 = Some (JStr (lit "http://" ++ rest)) ->
  lookup (lit "link") d2 = Some (JStr (lit "https://" ++ rest)) ->
  db w = Some s ->
  exists id w1 w2,
    upsert_firestore true (JDict d1) w = (Ok id, w1)
    /\ upsert_firestore true (JDict d2) w1 = (Ok id, w2)
    /\ db w2 = Some (store_set id (JDict d2) s)
    /\ store_get id (store_set id (JDict d2) s) = Some (JDict d2).
Proof.
  intros H1 H2 Hdb.
  assert (Hid : doc_id (JStr (lit "http://" ++ rest))
                = doc_id (JStr (lit "https://" ++ rest))).
  { rewrite !doc_id_text, https_not_in_http.
    rewrite (replace_prefix (lit "https://")), (replace_prefix (lit "http://"))
      by reflexivity.
    reflexivity. }
  destruct (doc_id (JStr (lit "https://" ++ rest))) as [id|e] eqn:E;
    [|rewrite doc_id_text in E; discriminate].
  exists id. eexists. eexists. split.
  { apply upsert_ok with (u := lit "http://" ++ rest) (s := s); auto.
    cbn [getitem_key]. now rewrite H1. }
  split.
  { apply upsert_ok with (u := lit "https://" ++ rest)
                         (s := store_set id (JDict d1) s); auto.
    cbn [getitem_key]. now rewrite H2. }
  cbn [db with_db]. rewrite store_set_twice. split; [reflexivity|].
  apply store_get_set_same.
Qed.

End StoreProperties.

Module StoreExamples.
Import Demo Demo2.

(** Property X15 at an empty collection. *)
Lemma upsert_then_get_witness :
  exists id,
    doc_id (JStr (lit "https://icook.tw/recipes/1")) = Ok id
    /\ upsert_firestore true secure_record remote_world
       = (Ok id, with_db (Some (store_set id secure_record [])) remote_world)
    /\ store_get id (store_set id secure_record []) = Some secure_record
    /\ (forall id', id' <> id ->
          store_get id' (store_set id secure_record []) = store_get id' [])
    /\ length (store_set id secure_record []) <= S (length (@nil (pystr * json))).
Proof.
  apply (@upsert_then_get
           [ (lit "title", JStr (lit "new"));
             (lit "link", JStr (lit "https://icook.tw/recipes/1")) ]
           (lit "https://icook.tw/recipes/1") [] remote_world);
    reflexivity.
Defined.

(** Property X16 at the two spellings of recipe 1. *)
Lemma scheme_collision_overwrites_witness :
  exists id w1 w2,
    upsert_firestore true plain_record remote_world = (Ok id, w1)
    /\ upsert_firestore true secure_record w1 = (Ok id, w2)
    /\ db w2 = Some (store_set id secure_record [])
    /\ store_get id (store_set id secure_record []) = Some secure_record.
Proof.
  apply (@scheme_collision_overwrites
           [ (lit "title", JStr (lit "old"));
             (lit "link", JStr (lit "http://icook.tw/recipes/1")) ]
           [ (lit "title", JStr (lit "new"));
             (lit "link", JStr (lit "https://icook.tw/recipes/1")) ]
           (lit "icook.tw/recipes/1") [] remote_world);
    reflexivity.
Defined.

End StoreExamples.

(** ** Script gathering and markup fallbacks *)

Module PageFacts.

Lemma text_of_strip t : text_of t = strip t.
Proof. unfold text_of. now destruct t. Qed.

(** elements that read the same twice: the comprehension keeps the
    stripped texts that are not blank *)
Lemma collect_steady_from texts acc :
  foldM collect_item (List.map (fun t => Element (Ok t) (Ok t)) texts) acc
  = Ok (acc ++ List.filter (fun s => nonempty s) (List.map strip texts)).
Proof.
  revert acc; induction texts as [|t texts IH]; intros acc; cbn [List.map foldM].
  - now rewrite app_nil_r.
  - unfold collect_item at 1. cbn [first_read second_read bind].
    rewrite text_of_strip. cbn [List.filter].
    destruct (nonempty (strip t)); cbn [bind]; rewrite IH;
      [now rewrite <- app_assoc|reflexivity].
Qed.

(** whatever the reads give, what is kept is stripped *)
Lemma collect_trimmed_from its acc tmp :
  Forall trimmed acc -> foldM collect_item its acc = Ok tmp -> Forall trimmed tmp.
Proof.
  revert acc; induction its as [|it its IH]; intros acc Hacc; cbn [foldM].
  - now intros [= <-].
  - unfold collect_item at 1. destruct (first_read it) as [t1|e]; [|discriminate].
    cbn [bind]. destruct (nonempty (text_of t1)); [|now apply IH].
    destruct (second_read it) as [t2|e]; [|discriminate]. cbn [bind].
    apply IH. apply Forall_app; split; [exact Hacc|].
    constructor; [|constructor]. rewrite text_of_strip. apply strip_trimmed.
Qed.

(** and it is not blank when the two reads agree *)
Lemma collect_clean_from its acc tmp :
  Forall steady its -> clean_list acc ->
  foldM collect_item its acc = Ok tmp -> clean_list tmp.
Proof.
  intros Hs. revert acc; induction Hs as [|it its Hit Hs IH]; intros acc Hacc; cbn [foldM].
  - now intros [= <-].
  - unfold collect_item at 1. unfold steady in Hit. rewrite Hit.
    destruct (first_read it) as [t1|e]; [|discriminate].
    cbn [bind]. destruct (nonempty (text_of t1)) eqn:E; [|now apply IH].
    cbn [bind]. apply IH. apply Forall_app; split; [exact Hacc|].
    constructor; [|constructor]. split; [|exact E].
    rewrite text_of_strip. apply strip_trimmed.
Qed.

(** a read that raises ends the comprehension *)
Lemma collect_raise its it e acc :
  In it its ->
  first_read it = Raise e
  \/ (exists t, first_read it = Ok t /\ nonempty (text_of t) = true
                /\ second_read it = Raise e) ->
  exists e', foldM collect_item its acc = Raise e'.
Proof.
  revert acc; induction its as [|it0 its IH]; intros acc Hin Hr; [destruct Hin|].
  cbn [foldM]. destruct (collect_item it0 acc) as [acc'|e0] eqn:E0; cbn [bind]; [|eauto].
  destruct Hin as [->|Hin]; [|now apply IH].
  exfalso. unfold collect_item in E0.
  destruct Hr as [Hr|(t & H1 & Hn & H2)].
  - rewrite Hr in E0. discriminate.
  - rewrite H1 in E0. cbn [bind] in E0. rewrite Hn, H2 in E0. discriminate.
Qed.

Lemma collect_texts_trimmed items tmp :
  collect_texts items = Ok tmp -> Forall trimmed tmp.
Proof.
  unfold collect_texts. destruct items as [its|e]; cbn [bind]; [|discriminate].
  apply collect_trimmed_from. constructor.
Qed.

Lemma collect_texts_clean its tmp :
  Forall steady its -> collect_texts (Ok its) = Ok tmp -> clean_list tmp.
Proof.
  intros Hs. unfold collect_texts. cbn [bind].
  apply collect_clean_from; [exact Hs|constructor].
Qed.

Lemma collect_texts_raises its it e :
  In it its ->
  first_read it = Raise e
  \/ (exists t, first_read it = Ok t /\ nonempty (text_of t) = true
                /\ second_read it = Raise e) ->
  exists e', collect_texts (Ok its) = Raise e'.
Proof. intros Hin Hr. unfold collect_texts. cbn [bind]. now apply collect_raise with (it := it) (e := e). Qed.

Lemma gather_from scripts acc :
  fold_left
    (fun ld_texts (s : res pystr) =>
       match s with
       | Ok txt =>
           if nonempty txt && substring (lit "Recipe") txt
           then ld_texts ++ [txt] else ld_texts
       | Raise _ => ld_texts
       end)
    scripts acc
  = acc ++ flat_map
             (fun s : res pystr =>
                match s with
                | Ok txt => if nonempty txt && substring (lit "Recipe") txt
                            then [txt] else []
                | Raise _ => []
                end) scripts.
Proof.
  revert acc; induction scripts as [|s scripts IH]; intros acc; cbn [fold_left flat_map].
  - now rewrite app_nil_r.
  - rewrite IH. destruct s as [txt|e]; [|reflexivity].
    destruct (nonempty txt && substring (lit "Recipe") txt);
      [now rewrite <- app_assoc|reflexivity].
Qed.

Lemma gather_flat scripts :
  gather_ld_texts scripts
  = flat_map
      (fun s : res pystr =>
         match s with
         | Ok txt => if nonempty txt && substring (lit "Recipe") txt
                     then [txt] else []
         | Raise _ => []
         end) scripts.
Proof. unfold gather_ld_texts. now rewrite gather_from. Qed.

End PageFacts.
Export PageFacts.

Section PageProperties.

Context {R : Runtime}.

(** Property X17.  The markup fallback for steps and ingredients reads each
    element twice: once to decide whether to keep it, once for the text
    it keeps.  When every element reads the same both times it gives
    the stripped, non-empty texts in page order.  In general the text
    kept is the stripped second read of an element whose first read was
    not blank, so the result is always stripped, and free of blank texts
    when the two reads agree.  When a read that is made raises, the
    whole fallback is dropped and the parsed value stays. *)
Theorem markup_fallback_all_or_nothing :
  (forall texts,
     collect_texts (Ok (List.map (fun t => Element (Ok t) (Ok t)) texts))
     = Ok (List.filter (fun s => nonempty s) (List.map strip texts)))
  /\ (forall t1 t2,
        collect_texts (Ok [Element (Ok t1) (Ok t2)])
        = Ok (if nonempty (strip t1) then [strip t2] else []))
  /\ (forall items tmp, collect_texts items = Ok tmp -> Forall trimmed tmp)
  /\ (forall its tmp,
        Forall steady its -> collect_texts (Ok its) = Ok tmp -> clean_list tmp)
  /\ (forall pv f its it e,
        In it its ->
        first_read it = Raise e
        \/ (exists t, first_read it = Ok t /\ nonempty (strip t) = true
                      /\ second_read it = Raise e) ->
        (ingredient_items pv = Ok its ->
         ingredients (fallback pv f) = ingredients f)
        /\ (step_items pv = Ok its -> steps (fallback pv f) = steps f)).
Proof.
  split; [|split; [|split; [|split]]].
  - intros texts. unfold collect_texts. cbn [bind]. now rewrite collect_steady_from.
  - intros t1 t2. unfold collect_texts, collect_item.
    cbn [bind foldM first_read second_read]. rewrite !text_of_strip.
    now destruct (nonempty (strip t1)).
  - apply collect_texts_trimmed.
  - apply collect_texts_clean.
  - intros pv f its it e Hin Hr.
    assert (Hr' : first_read it = Raise e
                  \/ (exists t, first_read it = Ok t /\ nonempty (text_of t) = true
                                /\ second_read it = Raise e)).
    { destruct Hr as [Hr|(t & H1 & Hn & H2)]; [now left|right].
      exists t. now rewrite text_of_strip. }
    destruct (collect_texts_raises its it e Hin Hr') as [e' He].
    split; intros Hit; unfold fallback; cbn [ingredients steps];
      rewrite Hit, He; now destruct (nonempty _).
Qed.

(** Property X18.  A script element that cannot be read, or whose text does not
    contain [Recipe], is not handed to the parser; the texts handed over
    are exactly the readable ones that contain it. *)
Theorem scripts_without_recipe_ignored :
  (forall before after s,
     match s with
     | Ok txt => substring (lit "Recipe") txt = false
     | Raise _ => True
     end ->
     gather_ld_texts (before ++ s :: after) = gather_ld_texts (before ++ after))
  /\ (forall scripts txt,
        In txt (gather_ld_texts scripts)
        <-> In (Ok txt) scripts /\ substring (lit "Recipe") txt = true).
Proof.
  split.
  - intros before after s Hs. rewrite !gather_flat, !flat_map_app. cbn [flat_map].
    destruct s as [txt|e]; [|reflexivity]. rewrite Hs, andb_false_r. reflexivity.
  - intros scripts txt. rewrite gather_flat, in_flat_map. split.
    + intros ([t|e] & Hin & Ht); [|destruct Ht].
      destruct (nonempty t && substring (lit "Recipe") t) eqn:E; [|destruct Ht].
      destruct Ht as [<-|[]]. apply andb_true_iff in E as [_ E]. auto.
    + intros [Hin Hs]. exists (Ok txt). split; [exact Hin|].
      rewrite Hs. destruct txt as [|c txt]; [discriminate|]. now left.
Qed.

End PageProperties.

(** ** Records and identifiers *)

Module RecordFacts.
Section WithRuntime.

Context {R : Runtime}.

Local Open Scope N_scope.

Lemma digits_then_stop stop s g : digits_then stop s = Some g -> In stop s.
Proof.
  revert g; induction s as [|c s IH]; cbn [digits_then]; intros g; [discriminate|].
  destruct (is_digit c); [|discriminate].
  destruct (digits_then stop s) as [ds|].
  - intros _. right. eapply IH; eauto.
  - destruct s as [|c' s']; [discriminate|].
    unfold char_eqb. destruct (N.eqb_spec c' stop); [|discriminate].
    intros _. right. left. assumption.
Qed.

Lemma digits_then_digit stop s g :
  digits_then stop s = Some g -> exists c, In c s /\ is_digit c = true.
Proof.
  destruct s as [|c s]; cbn [digits_then]; [discriminate|].
  destruct (is_digit c) eqn:Hc; [|discriminate]. intros _. exists c. split; [now left|exact Hc].
Qed.

Lemma In_skipn {A} (x : A) n l : In x (skipn n l) -> In x l.
Proof.
  revert l; induction n as [|n IH]; intros l; [auto|].
  destruct l as [|a l]; cbn [skipn]; [auto|]. intros H. right. now apply IH.
Qed.

Lemma search_hours_found s g :
  search_hours s = Some g ->
  In 72 s /\ exists c, In c s /\ is_digit c = true.
Proof.
  induction s as [|c s IH]; cbn [search_hours]; [discriminate|].
  destruct (startswith (lit "PT") (c :: s)).
  - destruct (digits_then 72 (skipn 2 (c :: s))) as [g'|] eqn:E.
    + intros _. split.
      * eapply In_skipn, digits_then_stop, E.
      * destruct (digits_then_digit _ _ _ E) as (x & Hx & Hd).
        exists x. split; [eapply In_skipn, Hx|exact Hd].
    + intros H. destruct (IH H) as (H72 & x & Hx & Hd).
      split; [now right|]. exists x. split; [now right|exact Hd].
  - intros H. destruct (IH H) as (H72 & x & Hx & Hd).
    split; [now right|]. exists x. split; [now right|exact Hd].
Qed.

Lemma search_minutes_found s g :
  search_minutes s = Some g ->
  In 77 s /\ exists c, In c s /\ is_digit c = true.
Proof.
  induction s as [|c s IH]; [discriminate|].
  change (search_minutes (c :: s))
    with (match digits_then 77 (c :: s) with
          | Some g => Some g
          | None => search_minutes s
          end).
  destruct (digits_then 77 (c :: s)) as [g'|] eqn:E.
  - intros _. split; [eapply digits_then_stop, E|eapply digits_then_digit, E].
  - intros H. destruct (IH H) as (H77 & x & Hx & Hd).
    split; [now right|]. exists x. split; [now right|exact Hd].
Qed.

Lemma unitless_duration s :
  startswith (lit "PT") s = true ->
  (~ In 72 s /\ ~ In 77 s) \/ Forall (fun c => is_digit c = false) s ->
  iso8601_duration_to_text (JStr s) = Ok JNone.
Proof.
  intros Hpt Hs.
  assert (Hh : search_hours s = None).
  { destruct (search_hours s) as [g|] eqn:E; [|reflexivity]. exfalso.
    destruct (search_hours_found _ _ E) as (H72 & x & Hx & Hd).
    destruct Hs as [[Hn _]|Hall]; [auto|].
    rewrite Forall_forall in Hall. rewrite (Hall _ Hx) in Hd. discriminate. }
  assert (Hm : search_minutes s = None).
  { destruct (search_minutes s) as [g|] eqn:E; [|reflexivity]. exfalso.
    destruct (search_minutes_found _ _ E) as (H77 & x & Hx & Hd).
    destruct Hs as [[_ Hn]|Hall]; [auto|].
    rewrite Forall_forall in Hall. rewrite (Hall _ Hx) in Hd. discriminate. }
  rewrite (iso8601_PT s 0 0 Hpt); [reflexivity| |].
  - now rewrite Hh.
  - now rewrite Hm.
Qed.

Lemma link_is_recipe_url anchors url :
  In url (discover_links anchors) ->
  exists ds, nonempty ds = true /\ forallb is_digit ds = true /\ url = recipe_url ds.
Proof.
  unfold discover_links. intros H.
  assert (H' : In url (fromkeys (matching_links anchors))).
  { rewrite <- (firstn_skipn LIMIT_PER_ING). apply in_or_app. now left. }
  clear H. rename H' into H.
  rewrite fromkeys_first_seen in H. apply (proj1 (first_seen_In _ _)) in H.
  rewrite matching_links_flat in H. apply in_flat_map in H as (href & _ & H).
  destruct href as [h|]; [|destruct H]. cbn [anchor_link] in H.
  destruct (nonempty h && fullmatch_recipe h) eqn:E; [|destruct H].
  destruct H as [<-|[]]. apply andb_true_iff in E as [_ E].
  apply fullmatch_recipe_inv in E as (ds & -> & Hn & Hd).
  exists ds. repeat split; auto.
Qed.

Lemma fallback_record (P : list pystr -> Prop) pv parsed url :
  (forall l, clean_list l -> P l) ->
  (forall tmp, collect_texts (ingredient_items pv) = Ok tmp -> P tmp) ->
  (forall tmp, collect_texts (step_items pv) = Ok tmp -> P tmp) ->
  well_trimmed parsed ->
  filled_text_or_none (time_text parsed) -> text_or_none (image_url parsed) ->
  nonempty (ingredients (fallback pv parsed)) = true ->
  is_record P url (make_doc url (fallback pv parsed)).
Proof.
  intros Hclean Hing Hstp (Ht & Hi & _ & Hy & Hs) Htime Himg Hne.
  assert (Htitle : exists t, (if truthy (title (fallback pv parsed))
                              then title (fallback pv parsed) else JStr []) = JStr t).
  { unfold fallback; cbn [title].
    destruct (truthy (title parsed)) eqn:E.
    - rewrite E. destruct (title parsed); try discriminate; try (now destruct Ht); eauto.
    - destruct (h1_text pv) as [t|e];
        match goal with |- context [truthy ?v] => destruct (truthy v) end; eauto. }
  destruct Htitle as [t Htitle].
  exists t, (ingredients (fallback pv parsed)), (steps (fallback pv parsed)),
    (time_text parsed), (yield_info parsed), (image_url (fallback pv parsed)).
  split; [unfold make_doc; rewrite Htitle; reflexivity|].
  split; [now apply nonempty_true|].
  split.
  { unfold fallback; cbn [ingredients].
    destruct (nonempty (ingredients parsed)); [now apply Hclean|].
    destruct (collect_texts (ingredient_items pv)) as [tmp|e] eqn:E; [|now apply Hclean].
    destruct (nonempty tmp); [|now apply Hclean]. now apply Hing. }
  split.
  { unfold fallback; cbn [steps].
    destruct (nonempty (steps parsed)); [now apply Hclean|].
    destruct (collect_texts (step_items pv)) as [tmp|e] eqn:E; [|now apply Hclean].
    destruct (nonempty tmp); [|now apply Hclean]. now apply Hstp. }
  split; [exact Htime|]. split; [exact Hy|].
  unfold fallback; cbn [image_url].
  destruct (truthy (image_url parsed)); [exact Himg|].
  destruct (og_image pv) as [[og|]|e]; try exact Himg.
  destruct (nonempty og && startswith (lit "http") og); [|exact Himg].
  right. eauto.
Qed.

Lemma page_doc_record (P : list pystr -> Prop) r kw url doc :
  (forall l, clean_list l -> P l) ->
  (forall tmp, collect_texts (ingredient_items (visit r kw url)) = Ok tmp -> P tmp) ->
  (forall tmp, collect_texts (step_items (visit r kw url)) = Ok tmp -> P tmp) ->
  In doc (page_docs r kw url) -> is_record P url doc.
Proof.
  intros Hclean Hing Hstp.
  unfold page_docs. destruct (negb _); [intros []|].
  destruct (parse_ld_json _) as [parsed|e] eqn:E; [|intros []].
  cbv zeta. destruct (nonempty _) eqn:Hne; [|intros []].
  intros [<-|[]].
  destruct (parse_time_image _ _ E) as [Ht Hi].
  apply fallback_record; auto. eapply parse_ld_json_trimmed, E.
Qed.

Lemma clean_trimmed l : clean_list l -> Forall trimmed l.
Proof. apply Forall_impl. now intros s [H _]. Qed.

(** a record of a page, as it is on any page *)
Lemma page_doc_trimmed r kw url doc :
  In doc (page_docs r kw url) -> is_record (Forall trimmed) url doc.
Proof.
  apply page_doc_record;
    [apply clean_trimmed|intros tmp; apply collect_texts_trimmed..].
Qed.

(** and on a page whose elements read the same twice *)
Lemma page_doc_clean r kw url doc :
  steady_page (visit r kw url) ->
  In doc (page_docs r kw url) -> is_record clean_list url doc.
Proof.
  intros [Hs Hi]. apply page_doc_record; [auto|..]; intros tmp.
  - destruct (ingredient_items (visit r kw url)) as [its|e] eqn:E; [|discriminate].
    apply collect_texts_clean. now apply Hi.
  - destruct (step_items (visit r kw url)) as [its|e] eqn:E; [|discriminate].
    apply collect_texts_clean. now apply Hs.
Qed.

Lemma crawl_docs_In r docs doc :
  crawl_docs r = Ok docs -> In doc docs ->
  exists kw anchors url,
    In kw (kws r) /\ search_anchors r kw = Ok anchors
    /\ In url (discover_links anchors) /\ In doc (page_docs r kw url).
Proof.
  intros Hc. apply crawl_docs_ok in Hc as (_ & _ & Hc). revert Hc.
  enough (H : forall l acc docs,
             foldM (fun kw all_saved => docs <- keyword_docs r kw ;; Ok (all_saved ++ docs))
                   l acc = Ok docs ->
             In doc docs ->
             In doc acc
             \/ exists kw anchors url,
                  In kw l /\ search_anchors r kw = Ok anchors
                  /\ In url (discover_links anchors) /\ In doc (page_docs r kw url)).
  { intros Hc Hin. destruct (H _ _ _ Hc Hin) as [[]|Hex]. exact Hex. }
  induction l as [|k l IH]; intros acc ds; cbn [foldM].
  - intros [= <-]. auto.
  - destruct (keyword_docs r k) as [d|e] eqn:E; cbn [bind]; [|discriminate].
    intros Hf Hin. destruct (IH _ _ Hf Hin) as [Hacc|(kw & an & url & Hk & Ha & Hu & Hd)].
    + apply in_app_or in Hacc as [Hacc|Hacc]; [now left|right].
      destruct (keyword_docs_flat _ _ _ E) as (an & Ea & ->).
      apply in_flat_map in Hacc as (url & Hu & Hd).
      exists k, an, url. repeat split; auto. now left.
    + right. exists kw, an, url. repeat split; auto. now right.
Qed.

Lemma main_result r w all_saved :
  fst (main r w) = Ok all_saved -> crawl_docs r = Ok all_saved.
Proof.
  pose proof (main_local r w) as H. destruct (crawl_docs r) as [docs|e].
  - destruct H as [H _]. rewrite H.
    destruct (list_extend _ _); cbn [bind]; congruence.
  - destruct H as [H _]. rewrite H. discriminate.
Qed.

Section Ascii.

Hypothesis Hascii : ascii_digits.

Lemma digit_not c ds :
  c < 128 -> ((48 <=? c) && (c <=? 57)) = false ->
  forallb is_digit ds = true -> ~ In c ds.
Proof.
  intros Hc Hnd Hds Hin. rewrite forallb_forall in Hds. specialize (Hds _ Hin).
  rewrite (is_digit_ascii Hascii c Hc) in Hds. congruence.
Qed.

Lemma recipe_id ds :
  forallb is_digit ds = true ->
  doc_id (JStr (recipe_url ds)) = Ok (lit "icook.tw_recipes_" ++ ds).
Proof.
  intros Hds. rewrite doc_id_text. unfold recipe_url.
  change (lit "https://icook.tw/recipes/" ++ ds)
    with (lit "https://" ++ (lit "icook.tw/recipes/" ++ ds)).
  rewrite (replace_prefix (lit "https://")) by reflexivity. cbn [app].
  assert (Hcolon : ~ In 58 (lit "icook.tw/recipes/" ++ ds)).
  { intros Hin. apply in_app_or in Hin as [Hin|Hin].
    - cbv in Hin. repeat (destruct Hin as [Hin|Hin]; [discriminate|]). exact Hin.
    - revert Hin. apply digit_not; [reflexivity|reflexivity|exact Hds]. }
  rewrite (replace_absent (lit "https://") [] 58) by (auto; cbv; tauto).
  rewrite (replace_absent (lit "http://") [] 58) by (auto; cbv; tauto).
  change (lit "/") with [47]. change (lit "_") with [95].
  rewrite replace_char, map_app. f_equal. f_equal.
  assert (Hslash : ~ In 47 ds) by (apply digit_not; [reflexivity|reflexivity|exact Hds]).
  clear Hcolon Hds. induction ds as [|c ds IH]; [reflexivity|].
  cbn [List.map]. destruct (N.eqb_spec 47 c) as [<-|_].
  - exfalso. apply Hslash. now left.
  - f_equal. apply IH. intros Hin. apply Hslash. now right.
Qed.

End Ascii.

End WithRuntime.
End RecordFacts.
Export RecordFacts.

Section RecordProperties.

Context {R : Runtime}.

Local Open Scope N_scope.

(** Property X19.  A [PT] duration with no [H] and no [M] (seconds only, say), or
    with no digit at all, converts to no value; as the time of a node it
    is then kept as the raw text. *)
Theorem duration_without_units_unconverted (s : pystr) :
  startswith (lit "PT") s = true ->
  (~ In 72 s /\ ~ In 77 s) \/ Forall (fun c => is_digit c = false) s ->
  iso8601_duration_to_text (JStr s) = Ok JNone
  /\ forall d cur,
       truthy (time_text cur) = false ->
       duration_source (JDict d) = Ok (JStr s) ->
       fill_time (JDict d) cur = Ok (with_time_text (JStr s) cur).
Proof.
  intros Hpt Hs. pose proof (unitless_duration s Hpt Hs) as Hr.
  split; [exact Hr|]. intros d cur Hc Hd.
  unfold fill_time. rewrite Hc, Hd. cbn [bind truthy].
  destruct s as [|c s]; [discriminate|]. cbn [nonempty]. now rewrite Hr.
Qed.

(** Property X20.  Every record a run returns has the eight keys of [doc] in order,
    a text title, at least one ingredient, stripped ingredient and step
    texts, and a link of the form [https://icook.tw/recipes/<digits>].
    When the elements of every page read the same twice, no ingredient
    or step text is blank. *)
Theorem saved_records_well_formed (r : run) (w : world) (all_saved : list json) :
  fst (main r w) = Ok all_saved ->
  Forall (fun doc =>
            exists ds, nonempty ds = true /\ forallb is_digit ds = true
                       /\ is_record (Forall trimmed) (recipe_url ds) doc) all_saved
  /\ ((forall kw url, steady_page (visit r kw url)) ->
      Forall (fun doc =>
                exists ds, nonempty ds = true /\ forallb is_digit ds = true
                           /\ is_record clean_list (recipe_url ds) doc) all_saved).
Proof.
  intros Hm. apply main_result in Hm.
  split; [|intros Hsteady]; apply Forall_forall; intros doc Hin;
    destruct (crawl_docs_In r all_saved doc Hm Hin) as (kw & an & url & _ & _ & Hu & Hd);
    destruct (link_is_recipe_url an url Hu) as (ds & Hn & Hds & ->);
    exists ds; repeat split; auto.
  - eapply page_doc_trimmed, Hd.
  - eapply page_doc_clean; [apply Hsteady|exact Hd].
Qed.

(** Property X21.  With ASCII digits, every discovered link is
    [https://icook.tw/recipes/<digits>] with identifier
    [icook.tw_recipes_<digits>], and distinct discovered links have
    distinct identifiers. *)
Theorem crawler_ids_distinct (anchors : list (option pystr)) :
  ascii_digits ->
  (forall u, In u (discover_links anchors) ->
     exists ds, nonempty ds = true /\ forallb is_digit ds = true
                /\ u = recipe_url ds
                /\ doc_id (JStr u) = Ok (lit "icook.tw_recipes_" ++ ds))
  /\ (forall u1 u2,
        In u1 (discover_links anchors) -> In u2 (discover_links anchors) ->
        doc_id (JStr u1) = doc_id (JStr u2) -> u1 = u2).
Proof.
  intros Hascii.
  assert (H1 : forall u, In u (discover_links anchors) ->
     exists ds, nonempty ds = true /\ forallb is_digit ds = true
                /\ u = recipe_url ds
                /\ doc_id (JStr u) = Ok (lit "icook.tw_recipes_" ++ ds)).
  { intros u Hu. destruct (link_is_recipe_url anchors u Hu) as (ds & Hn & Hds & ->).
    exists ds. repeat split; auto. now apply recipe_id. }
  split; [exact H1|].
  intros u1 u2 Hu1 Hu2 Heq.
  destruct (H1 u1 Hu1) as (d1 & _ & _ & -> & E1).
  destruct (H1 u2 Hu2) as (d2 & _ & _ & -> & E2).
  rewrite E1, E2 in Heq. injection Heq as Heq. now subst.
Qed.

End RecordProperties.

Module RecordExamples.
Import Demo Demo2.

(** Property X19 at forty-five seconds. *)
Lemma duration_without_units_unconverted_witness :
  @iso8601_duration_to_text demo (JStr (lit "PT45S")) = Ok JNone
  /\ forall d cur,
       truthy (time_text cur) = false ->
       @duration_source demo (JDict d) = Ok (JStr (lit "PT45S")) ->
       @fill_time demo (JDict d) cur = Ok (with_time_text (JStr (lit "PT45S")) cur).
Proof.
  apply (@duration_without_units_unconverted demo (lit "PT45S")).
  - reflexivity.
  - left. split; cbv; intuition discriminate.
Defined.

(** Property X20 at the soup run. *)
Lemma saved_records_well_formed_witness :
  Forall (fun doc =>
            exists ds, nonempty ds = true /\ forallb (@is_digit demo) ds = true
                       /\ is_record (Forall trimmed) (recipe_url ds) doc)
         [soup_record].
Proof.
  apply (@saved_records_well_formed demo soup_run fresh_world [soup_record]).
  vm_compute. reflexivity.
Defined.

(** Property X21 at two anchors. *)
Lemma crawler_ids_distinct_witness :
  (forall u, In u (@discover_links demo [Some (lit "/recipes/1"); Some (lit "/recipes/22")]) ->
     exists ds, nonempty ds = true /\ forallb (@is_digit demo) ds = true
                /\ u = recipe_url ds
                /\ doc_id (JStr u) = Ok (lit "icook.tw_recipes_" ++ ds))
  /\ (forall u1 u2,
        In u1 (@discover_links demo [Some (lit "/recipes/1"); Some (lit "/recipes/22")]) ->
        In u2 (@discover_links demo [Some (lit "/recipes/1"); Some (lit "/recipes/22")]) ->
        doc_id (JStr u1) = doc_id (JStr u2) -> u1 = u2).
Proof.
  apply (@crawler_ids_distinct demo [Some (lit "/recipes/1"); Some (lit "/recipes/22")]).
  exact Examples.demo_ascii_digits.
Defined.

End RecordExamples.

(** ** Remote completeness, images and the local files *)

Module RemoteFacts.
Section WithRuntime.

Context {R : Runtime}.

Lemma with_db_same w s : db w = Some s -> with_db (Some s) w = w.
Proof. destruct w as [a b c]. cbn. now intros ->. Qed.

(** one page, with the remote collection configured and its write going
    through *)
Lemma scrape_page_remote r kw url id saved saved' w s :
  db w = Some s ->
  remote_set_ok r kw url = true ->
  doc_id (JStr url) = Ok id ->
  fst (scrape_page r kw url saved w) = Ok saved' ->
  scrape_page r kw url saved w
  = (Ok (saved ++ page_docs r kw url),
     with_db (Some (fold_left (fun s doc => store_set id doc s)
                              (page_docs r kw url) s)) w).
Proof.
  intros Hdb Hok Hid. rewrite scrape_page_eq. unfold page_docs.
  destruct (negb (opens (visit r kw url))).
  { intros _. cbn [fold_left]. now rewrite app_nil_r, (with_db_same _ _ Hdb). }
  destruct (parse_ld_json (gather_ld_texts (ld_scripts (visit r kw url))))
    as [parsed|e]; [|discriminate].
  cbv zeta. destruct (nonempty (ingredients (fallback (visit r kw url) parsed)));
    cbn [fst]; destruct (pause (visit r kw url)) as [[]|e]; cbn [bind];
    try discriminate; intros _.
  - rewrite Hdb, Hok.
    rewrite (upsert_ok (make_doc url (fallback (visit r kw url) parsed)) url id s w);
      auto.
  - cbn [fold_left]. now rewrite app_nil_r, (with_db_same _ _ Hdb).
Qed.

Lemma page_docs_store r kw url id s :
  (forall doc, In doc (page_docs r kw url) ->
     store_get id (fold_left (fun s doc => store_set id doc s) (page_docs r kw url) s)
     = Some doc)
  /\ (forall id', id' <> id ->
        store_get id' (fold_left (fun s doc => store_set id doc s) (page_docs r kw url) s)
        = store_get id' s).
Proof.
  unfold page_docs. destruct (negb _); [split; [intros ? []|reflexivity]|].
  destruct (parse_ld_json _) as [parsed|e]; [|split; [intros ? []|reflexivity]].
  cbv zeta. destruct (nonempty _); [|split; [intros ? []|reflexivity]].
  cbn [fold_left]. split.
  - intros doc [<-|[]]. apply store_get_set_same.
  - intros id' Hne. now apply store_get_set_other.
Qed.

(** the page loop over links with distinct identifiers: every record
    saved is the one the collection holds under its identifier *)
Lemma pages_remote r kw (ident : pystr -> pystr) links :
  (forall url, remote_set_ok r kw url = true) ->
  (forall url, In url links -> doc_id (JStr url) = Ok (ident url)) ->
  (forall u1 u2, In u1 links -> In u2 links -> ident u1 = ident u2 -> u1 = u2) ->
  NoDup links ->
  forall saved w s docs,
  db w = Some s ->
  fst (for_each (scrape_page r kw) links saved w) = Ok docs ->
  exists s',
    db (snd (for_each (scrape_page r kw) links saved w)) = Some s'
    /\ (forall url doc, In url links -> In doc (page_docs r kw url) ->
          store_get (ident url) s' = Some doc)
    /\ (forall id, (forall url, In url links -> id <> ident url) ->
          store_get id s' = store_get id s).
Proof.
  intros Hok. induction links as [|url links IH];
    intros Hid Hinj Hnd saved w s docs Hdb Hret.
  - exists s. cbn. repeat split; auto. intros ? ? [].
  - cbn [for_each] in Hret |- *. unfold io_bind in Hret |- *.
    assert (Hp : exists saved', fst (scrape_page r kw url saved w) = Ok saved').
    { destruct (scrape_page r kw url saved w) as [[s1|e] w1];
        [cbn; eauto|cbn in Hret; discriminate]. }
    destruct Hp as [saved' Hp].
    pose proof (scrape_page_remote r kw url (ident url) saved saved' w s Hdb (Hok url)
                  (Hid url (or_introl eq_refl)) Hp) as E.
    rewrite E in Hret. rewrite E. clear E Hp.
    set (s1 := fold_left _ _ s) in *. inversion Hnd as [|? ? Hnotin Hnd']; subst.
    destruct (IH (fun u Hu => Hid u (or_intror Hu))
                 (fun u1 u2 H1 H2 => Hinj u1 u2 (or_intror H1) (or_intror H2))
                 Hnd' (saved ++ page_docs r kw url) (with_db (Some s1) w) s1 docs
                 eq_refl Hret)
      as (s' & Hs' & Hget & Hother).
    destruct (page_docs_store r kw url (ident url) s) as [Hsame Hrest].
    fold s1 in Hsame, Hrest.
    exists s'. split; [exact Hs'|]. split.
    + intros u doc [<-|Hu] Hdoc.
      * rewrite Hother; [now apply Hsame|].
        intros u' Hu' Heq. apply Hnotin.
        rewrite (Hinj url u' (or_introl eq_refl) (or_intror Hu') Heq). exact Hu'.
      * now apply Hget.
    + intros id Hid'. rewrite Hother by (intros u Hu; apply Hid'; now right).
      apply Hrest. apply Hid'. now left.
Qed.

End WithRuntime.
End RemoteFacts.
Export RemoteFacts.

Section RemoteProperties.

Context {R : Runtime}.

(** Property X22.  With a remote collection configured and every write going
    through, each record [scrape_keyword] returns is, at the end, the
    record the collection holds under the identifier of its link. *)
Theorem saved_records_reach_remote (r : run) (keyword : pystr) (w : world)
    (s : store) (docs : list json) :
  ascii_digits ->
  db w = Some s ->
  (forall url, remote_set_ok r keyword url = true) ->
  fst (scrape_keyword r keyword w) = Ok docs ->
  exists s',
    db (snd (scrape_keyword r keyword w)) = Some s'
    /\ Forall (fun doc =>
                 exists url id,
                   record_link doc = Some url /\ doc_id (JStr url) = Ok id
                   /\ store_get id s' = Some doc) docs.
Proof.
  intros Hascii Hdb Hok Hdocs.
  pose proof Hdocs as Hk. rewrite scrape_keyword_fst in Hk.
  destruct (keyword_docs_flat _ _ _ Hk) as (anchors & Ha & ->).
  unfold scrape_keyword, io_bind, lift in Hdocs |- *. rewrite Ha in Hdocs |- *.
  set (ident := fun url => replace (lit "/") (lit "_")
                             (replace (lit "http://") []
                                (replace (lit "https://") [] url))).
  assert (Hid : forall url, doc_id (JStr url) = Ok (ident url))
    by (intros url; apply doc_id_text).
  assert (Hinj : forall u1 u2,
             In u1 (discover_links anchors) -> In u2 (discover_links anchors) ->
             ident u1 = ident u2 -> u1 = u2).
  { intros u1 u2 H1 H2 Heq.
    destruct (link_is_recipe_url anchors u1 H1) as (d1 & _ & Hd1 & ->).
    destruct (link_is_recipe_url anchors u2 H2) as (d2 & _ & Hd2 & ->).
    pose proof (Hid (recipe_url d1)) as E1. pose proof (Hid (recipe_url d2)) as E2.
    rewrite (recipe_id Hascii d1 Hd1) in E1. rewrite (recipe_id Hascii d2 Hd2) in E2.
    rewrite Heq in E1. rewrite <- E1 in E2. injection E2 as E2. now subst. }
  destruct (pages_remote r keyword ident (discover_links anchors) Hok
              (fun url _ => Hid url) Hinj (discover_links_NoDup anchors) [] w s _
              Hdb Hdocs)
    as (s' & Hs' & Hget & _).
  exists s'. split; [exact Hs'|].
  apply Forall_forall. intros doc Hin. apply in_flat_map in Hin as (url & Hu & Hd).
  exists url, (ident url). split; [now apply (page_docs_link r keyword)|].
  split; [apply Hid|now apply Hget].
Qed.

(** Property X23.  Of an image list only the first element is consulted; when it is
    neither a text nor an object the result is [None], whatever
    follows. *)
Theorem image_list_first_only :
  (forall x rest,
     extract_image_url_from_ld (JList (x :: rest))
     = extract_image_url_from_ld (JList [x]))
  /\ (forall x rest,
        isinstance_str x = false -> isinstance_dict x = false ->
        extract_image_url_from_ld (JList (x :: rest)) = Ok JNone).
Proof.
  split.
  - intros x rest. reflexivity.
  - intros x rest Hs Hd. unfold extract_image_url_from_ld.
    cbn [truthy nonempty negb isinstance_str isinstance_list andb getitem0 bind].
    rewrite Hs, Hd. reflexivity.
Qed.

(** Property X24.  [ensure_str] is idempotent. *)
Theorem ensure_str_idempotent (x : json) :
  ensure_str (ensure_str x) = ensure_str x.
Proof.
  unfold ensure_str. destruct (is_None x) eqn:E; [reflexivity|].
  cbn [is_None py_str]. now rewrite strip_idempotent.
Qed.

(** Property X25.  When the crawl returns and the history read gives a list, [main]
    returns the records whatever the two writes do; each file ends as
    its own write leaves it, and the remote collection is as the crawl
    left it. *)
Theorem file_writes_independent (r : run) (w : world) (docs old : list json) :
  crawl_docs r = Ok docs ->
  read_history (history_file w) = JList old ->
  fst (main r w) = Ok docs
  /\ sample_file (snd (main r w))
     = write_json (sample_write r) (JList docs) (sample_file w)
  /\ history_file (snd (main r w))
     = write_json (history_write r) (JList (old ++ docs)) (history_file w)
  /\ db (snd (main r w)) = db (snd (crawl r w)).
Proof.
  intros Hc Hh. pose proof (main_local r w) as H. rewrite Hc in H.
  rewrite Hh in H. cbn [list_extend bind] in H. destruct H as (H1 & H2 & H3).
  repeat split; auto.
  pose proof (crawl_fst r w) as Hf. rewrite Hc in Hf.
  destruct (crawl r w) as [[d|e] wc] eqn:Ec; cbn [fst snd] in *; [|discriminate].
  injection Hf as ->. rewrite (main_after_crawl _ _ _ _ Ec).
  destruct (list_extend _ _); reflexivity.
Qed.

End RemoteProperties.

Module RemoteExamples.
Import Demo Demo2.

(** Property X22 at the soup run over an empty collection. *)
Lemma saved_records_reach_remote_witness :
  exists s',
    db (snd (scrape_keyword (R := demo) soup_run [38622; 32905]%N remote_world)) = Some s'
    /\ Forall (fun doc =>
                 exists url id,
                   record_link doc = Some url /\ doc_id (JStr url) = Ok id
                   /\ store_get id s' = Some doc) [soup_record].
Proof.
  apply (@saved_records_reach_remote demo soup_run [38622; 32905]%N remote_world
           [] [soup_record]).
  - exact Examples.demo_ascii_digits.
  - reflexivity.
  - reflexivity.
  - vm_compute. reflexivity.
Defined.

(** Property X25 at the soup run with the snapshot not writable. *)
Lemma file_writes_independent_witness :
  fst (main (R := demo) unwritable_run fresh_world) = Ok [soup_record]
  /\ sample_file (snd (main (R := demo) unwritable_run fresh_world))
     = write_json (sample_write unwritable_run) (JList [soup_record])
         (sample_file fresh_world)
  /\ history_file (snd (main (R := demo) unwritable_run fresh_world))
     = write_json (history_write unwritable_run) (JList ([] ++ [soup_record]))
         (history_file fresh_world)
  /\ db (snd (main (R := demo) unwritable_run fresh_world))
     = db (snd (crawl (R := demo) unwritable_run fresh_world)).
Proof.
  apply (@file_writes_independent demo unwritable_run fresh_world [soup_record] []).
  - vm_compute. reflexivity.
  - reflexivity.
Defined.

End RemoteExamples.
